(** * Console3 terminal core: a shallow embedding and its verified properties

    The development follows the C++ sources of the terminal core:
    - [RingBuffer]      Core/RingBuffer.h      (SPSC byte queue)
    - [TerminalBuffer]  Core/TerminalBuffer.{h,cpp} (cell grid, scrollback, dirty bits)
    - [VTermWrapper]    Emulation/VTermWrapper.{h,cpp} (callbacks of the parser)
    - [PtySession]      Core/PtySession.{h,cpp}  (reader thread loop)
    - [Session]         Core/Session.{h,cpp}     (wiring, persistence)
    - [TerminalView]    UI/TerminalView.cpp      (key translation)
    Part I holds the embedding, Part II the properties proved of it.

    Conventions.  [size_t] is the 64-bit unsigned type of the x64 target and is
    modelled as a [Z] in [0, 2^64) with the wrap-around written out; [int] is a
    [Z]; [char] is a [Z] in [0, 256); vectors and deques are lists. *)

From Stdlib Require Import ZArith Lia List Bool Ascii String.
From stdpp Require Import base tactics option list numbers.

Local Open Scope Z_scope.

(* ===================================================================== *)
(** * Part I: the embedding *)
(* ===================================================================== *)

(** ** Core/RingBuffer.h *)

Module RingBuffer.

(** Reduction of a mathematical integer to a [size_t] value. *)
Definition size_t (z : Z) : Z := z mod 2 ^ 64.

(** The values a [size_t] argument can take. *)
Definition is_size_t (z : Z) : Prop := 0 <= z < 2 ^ 64.

(** [static constexpr size_t NextPowerOfTwo(size_t n)] *)
Definition NextPowerOfTwo (n : Z) : Z :=
  if n =? 0 then 1
  else
    let n := size_t (n - 1) in
    let n := Z.lor n (Z.shiftr n 1) in
    let n := Z.lor n (Z.shiftr n 2) in
    let n := Z.lor n (Z.shiftr n 4) in
    let n := Z.lor n (Z.shiftr n 8) in
    let n := Z.lor n (Z.shiftr n 16) in
    let n := Z.lor n (Z.shiftr n 32) in
    size_t (n + 1).

Section Elem.
Context {T : Type} `{!Inhabited T}.

(** The data members of [RingBuffer<T>].  The two atomics are plain counters
    here: every operation below is one producer-side or consumer-side call
    taken as a whole. *)
Record t : Type := Make {
  m_capacity : Z;
  m_mask : Z;
  m_buffer : list T;
  m_head : Z;
  m_tail : Z
}.

(** [explicit RingBuffer(size_t capacity = 65536)]: the storage is
    value-initialised, which is [inhabitant] here. *)
Definition create (capacity : Z) : t :=
  let cap := NextPowerOfTwo capacity in
  {| m_capacity := cap;
     m_mask := size_t (cap - 1);
     m_buffer := replicate (Z.to_nat cap) inhabitant;
     m_head := 0;
     m_tail := 0 |}.

(** [AvailableToRead(head, tail)] *)
Definition AvailableToRead (head tail : Z) : Z := size_t (head - tail).

(** [AvailableToWrite(head, tail)] *)
Definition AvailableToWrite (rb : t) (head tail : Z) : Z :=
  size_t (size_t (m_capacity rb - 1) - size_t (head - tail)).

(** [std::memcpy(&dst[off], src, n * sizeof(T))].  Positions past the end of
    [dst] are left alone by [list_inserts]; the source has undefined behaviour
    there, which the buffers of the theorems on contents never reach. *)
Definition memcpy_to (dst : list T) (off : Z) (src : list T) (n : Z) : list T :=
  list_inserts (Z.to_nat off) (take (Z.to_nat n) src) dst.

(** [std::memcpy(out, &src[off], n * sizeof(T))]: the [n] elements copied out. *)
Definition memcpy_from (src : list T) (off : Z) (n : Z) : list T :=
  take (Z.to_nat n) (drop (Z.to_nat off) src).

(** The storage after the producer has copied in [n] elements of [data] at
    [head], in one or two chunks. *)
Definition copy_in (rb : t) (head : Z) (data : list T) (n : Z) : list T :=
  let headIndex := Z.land head (m_mask rb) in
  let firstChunk := Z.min n (size_t (m_capacity rb - headIndex)) in
  let secondChunk := size_t (n - firstChunk) in
  let buf := memcpy_to (m_buffer rb) headIndex data firstChunk in
  if 0 <? secondChunk
  then memcpy_to buf 0 (drop (Z.to_nat firstChunk) data) secondChunk
  else buf.

(** [size_t Write(const T *data, size_t length)]; [length] is the length of
    [data].  Returns the new state and the number of elements accepted. *)
Definition Write (rb : t) (data : list T) : t * Z :=
  let head := m_head rb in
  let tail := m_tail rb in
  let available := AvailableToWrite rb head tail in
  let toWrite := Z.min (Z.of_nat (length data)) available in
  if toWrite =? 0 then (rb, 0)
  else
    ({| m_capacity := m_capacity rb; m_mask := m_mask rb;
        m_buffer := copy_in rb head data toWrite;
        m_head := size_t (head + toWrite); m_tail := tail |}, toWrite).

(** The elements the consumer copies out for a request of [n] elements:
    shared by [Read] and [Peek]. *)
Definition copy_out (rb : t) (tail n : Z) : list T :=
  let tailIndex := Z.land tail (m_mask rb) in
  let firstChunk := Z.min n (size_t (m_capacity rb - tailIndex)) in
  let secondChunk := size_t (n - firstChunk) in
  memcpy_from (m_buffer rb) tailIndex firstChunk ++
  (if 0 <? secondChunk then memcpy_from (m_buffer rb) 0 secondChunk else []).

(** [size_t Read(T *data, size_t maxLength)]: the new state and the elements
    stored into [data]; their number is the return value. *)
Definition Read (rb : t) (maxLength : Z) : t * list T :=
  let tail := m_tail rb in
  let head := m_head rb in
  let available := AvailableToRead head tail in
  let toRead := Z.min maxLength available in
  if toRead =? 0 then (rb, [])
  else
    ({| m_capacity := m_capacity rb; m_mask := m_mask rb;
        m_buffer := m_buffer rb;
        m_head := head; m_tail := size_t (tail + toRead) |},
     copy_out rb tail toRead).

(** [size_t Peek(T *data, size_t maxLength) const] *)
Definition Peek (rb : t) (maxLength : Z) : list T :=
  let tail := m_tail rb in
  let head := m_head rb in
  let available := AvailableToRead head tail in
  let toPeek := Z.min maxLength available in
  if toPeek =? 0 then [] else copy_out rb tail toPeek.

(** [size_t Skip(size_t count)] *)
Definition Skip (rb : t) (count : Z) : t * Z :=
  let tail := m_tail rb in
  let head := m_head rb in
  let available := AvailableToRead head tail in
  let toSkip := Z.min count available in
  (if 0 <? toSkip
   then {| m_capacity := m_capacity rb; m_mask := m_mask rb;
           m_buffer := m_buffer rb;
           m_head := head; m_tail := size_t (tail + toSkip) |}
   else rb,
   toSkip).

(** [size_t Size() const] *)
Definition Size (rb : t) : Z := AvailableToRead (m_head rb) (m_tail rb).

(** [size_t Available() const] *)
Definition Available (rb : t) : Z :=
  AvailableToWrite rb (m_head rb) (m_tail rb).

Definition IsEmpty (rb : t) : bool := Size rb =? 0.
Definition IsFull (rb : t) : bool := Available rb =? 0.

(** [size_t Capacity() const] *)
Definition Capacity (rb : t) : Z := size_t (m_capacity rb - 1).

(** [void Clear()] *)
Definition Clear (rb : t) : t :=
  {| m_capacity := m_capacity rb; m_mask := m_mask rb;
     m_buffer := m_buffer rb; m_head := 0; m_tail := 0 |}.

(** *** Call sequences *)

(** One call of the public interface, with its arguments. *)
Inductive call : Type :=
  | CallWrite (data : list T)
  | CallRead (maxLength : Z)
  | CallPeek (maxLength : Z)
  | CallSkip (count : Z)
  | CallClear.

(** The arguments of a call are [size_t] values. *)
Definition call_args_ok (c : call) : Prop :=
  match c with
  | CallWrite data => is_size_t (Z.of_nat (length data))
  | CallRead n | CallPeek n | CallSkip n => is_size_t n
  | CallClear => True
  end.

Definition exec (rb : t) (c : call) : t :=
  match c with
  | CallWrite data => fst (Write rb data)
  | CallRead n => fst (Read rb n)
  | CallPeek _ => rb
  | CallSkip n => fst (Skip rb n)
  | CallClear => Clear rb
  end.

Definition exec_all (rb : t) (cs : list call) : t := fold_left exec cs rb.

(** A log of a run of writes and reads: everything submitted to [Write], and
    everything [Read] handed back, both in call order. *)
Record log : Type := Log { submitted : list T; received : list T }.

Inductive io : Type :=
  | IoWrite (data : list T)
  | IoRead (maxLength : Z).

Definition io_step (st : t * log) (c : io) : t * log :=
  let '(rb, lg) := st in
  match c with
  | IoWrite data =>
      (fst (Write rb data),
       {| submitted := submitted lg ++ data; received := received lg |})
  | IoRead n =>
      let '(rb', out) := Read rb n in
      (rb', {| submitted := submitted lg; received := received lg ++ out |})
  end.

Definition io_run (rb : t) (cs : list io) : t * log :=
  fold_left io_step cs (rb, {| submitted := []; received := [] |}).

(** No write of the run exceeds the free capacity at the time it is made, and
    read requests are [size_t] values. *)
Fixpoint io_fits (rb : t) (cs : list io) : Prop :=
  match cs with
  | [] => True
  | IoWrite data :: cs' =>
      Z.of_nat (length data) <= Available rb /\ io_fits (fst (Write rb data)) cs'
  | IoRead n :: cs' =>
      is_size_t n /\ io_fits (fst (Read rb n)) cs'
  end.

(** *** Invariants and the abstract queue *)

(** The counters never hold more than [Capacity()] elements. *)
Definition bounded (rb : t) : Prop := Size rb <= Capacity rb.

(** A buffer whose storage matches its power-of-two capacity and whose
    counters are at most [Capacity()] apart. *)
Definition wf (rb : t) : Prop :=
  exists k, 0 <= k <= 63 /\
    m_capacity rb = 2 ^ k /\
    m_mask rb = Z.ones k /\
    Z.of_nat (length (m_buffer rb)) = 2 ^ k /\
    Size rb <= 2 ^ k - 1.

(** The queued elements, oldest first: [Size()] slots starting at the tail. *)
Definition contents (rb : t) : list T :=
  (fun i : nat =>
     m_buffer rb !!! Z.to_nat ((m_tail rb + Z.of_nat i) mod m_capacity rb))
  <$> seq 0 (Z.to_nat (Size rb)).

End Elem.

Arguments t T : clear implicits.
Arguments call T : clear implicits.
Arguments io T : clear implicits.
Arguments log T : clear implicits.

(** [window k x y]: bit [i] of [y] is set exactly when [x] has a set bit among
    the [k] positions starting at [i]. *)
Definition window (k x y : Z) : Prop :=
  forall i, 0 <= i ->
    Z.testbit y i = true <-> exists j, i <= j < i + k /\ Z.testbit x j = true.

(** The capacity a request is rounded to: the least power of two that is at
    least the request (1 for a request of 0). *)
Definition round_up_pow2 (n : Z) : Z := 2 ^ Z.log2_up n.

End RingBuffer.

(** ** C++ library: exceptions, strings, numbers *)

Module Cxx.

(** The exceptions thrown by the modelled code, with the index they report. *)
Inductive exception : Type :=
  | invalid_argument
  | out_of_range_row (row : Z)
  | out_of_range_col (col : Z)
  | runtime_error.

(** The outcome of a call that may throw. *)
Inductive result (A : Type) : Type :=
  | Ok (a : A)
  | Throw (e : exception).
Arguments Ok {A} a.
Arguments Throw {A} e.

Definition bind {A B} (r : result A) (k : A -> result B) : result B :=
  match r with
  | Ok a => k a
  | Throw e => Throw e
  end.

(** [std::clamp(v, lo, hi)] *)
Definition clamp (v lo hi : Z) : Z :=
  if v <? lo then lo else if hi <? v then hi else v.

(** [static_cast<char>] and [static_cast<uint8_t>]: the low eight bits. *)
Definition to_uint8 (z : Z) : Z := z mod 256.

(** The limits of the 32-bit [int] of the target (climits). *)
Definition INT_MAX : Z := 2147483647.
Definition INT_MIN : Z := -2147483648.

(** [-n] for an [int n].  Negating [INT_MIN] overflows, which is undefined
    behaviour; the two's complement negation the target's compilers emit
    gives [INT_MIN] back, and that is the value taken here. *)
Definition neg_int (n : Z) : Z := if n =? INT_MIN then INT_MIN else - n.

(** The bytes of a string literal. *)
Definition bytes (s : string) : list Z :=
  (fun a : ascii => Z.of_N (N_of_ascii a)) <$> list_ascii_of_string s.

(** Decimal digits of a non-negative number, most significant first; [fuel]
    bounds the number of digits. *)
Fixpoint decimal (fuel : nat) (n : Z) : list Z :=
  match fuel with
  | O => []
  | S fuel' =>
      if n <? 10 then [48 + n]
      else decimal fuel' (n / 10) ++ [48 + n mod 10]
  end.

(** [std::to_string] of an unsigned value of at most 64 bits (at most twenty
    digits), and the %zu conversion. *)
Definition to_string_unsigned (n : Z) : list Z := decimal 20 n.

(** [std::to_string(int)] and the %d conversion. *)
Definition to_string (n : Z) : list Z :=
  if n <? 0 then 45 :: to_string_unsigned (- n) else to_string_unsigned n.

(** The characters of a C string up to its terminating NUL. *)
Fixpoint c_str (s : list Z) : list Z :=
  match s with
  | [] => []
  | c :: rest => if c =? 0 then [] else c :: c_str rest
  end.

(** *** [std::string] searching and [atoi] *)

(** Whether [hay] starts with [needle]. *)
Fixpoint is_prefix (needle hay : list Z) : bool :=
  match needle, hay with
  | [], _ => true
  | _ :: _, [] => false
  | a :: needle', b :: hay' => (a =? b) && is_prefix needle' hay'
  end.

(** The position of the first occurrence of [needle] in [hay], counted from
    [pos], the position of the head of [hay]. *)
Fixpoint find_in (needle hay : list Z) (pos : nat) : option nat :=
  if is_prefix needle hay then Some pos
  else
    match hay with
    | [] => None
    | _ :: hay' => find_in needle hay' (S pos)
    end.

(** [s.find(needle, pos)]; [None] is [npos]. *)
Definition find (s needle : list Z) (pos : nat) : option nat :=
  if (length s <? pos)%nat then None else find_in needle (drop pos s) pos.

(** [s.substr(pos, n)] for [pos] within [s]. *)
Definition substr (s : list Z) (pos n : nat) : list Z := take n (drop pos s).

Definition isspace (c : Z) : bool := (c =? 32) || ((9 <=? c) && (c <=? 13)).
Definition isdigit (c : Z) : bool := (48 <=? c) && (c <=? 57).

Fixpoint skip_spaces (s : list Z) : list Z :=
  match s with
  | c :: rest => if isspace c then skip_spaces rest else s
  | [] => []
  end.

(** The digit loop of [atoi]. *)
Fixpoint atoi_digits (s : list Z) (acc : Z) : Z :=
  match s with
  | c :: rest => if isdigit c then atoi_digits rest (acc * 10 + (c - 48)) else acc
  | [] => acc
  end.

(** The number that a text starts with, as [strtol] reads it: white space, an
    optional sign, digits. *)
Definition numeral (s : list Z) : Z :=
  match skip_spaces s with
  | c :: rest =>
      if c =? 45 then - atoi_digits rest 0
      else if c =? 43 then atoi_digits rest 0
      else atoi_digits (c :: rest) 0
  | [] => 0
  end.

(** [std::atoi].  When the number does not fit an [int] the behaviour is
    undefined, and the C libraries differ: glibc converts the [long] that
    [strtol] returns, the UCRT returns [INT_MAX] or [INT_MIN].  The result is
    then [out_of_int] of the number, which every statement leaves open. *)
Definition atoi (out_of_int : Z -> Z) (s : list Z) : Z :=
  let v := numeral s in
  if (INT_MIN <=? v) && (v <=? INT_MAX) then v else out_of_int v.



(** *** State with exceptions

    A computation over a state [S] that either returns or throws; the state
    reached at the point of the throw is kept. *)
Definition M (S A : Type) : Type := S -> result A * S.

Definition ret {S A} (a : A) : M S A := fun s => (Ok a, s).
Definition mbind {S A B} (m : M S A) (k : A -> M S B) : M S B :=
  fun s => match m s with
           | (Ok a, s') => k a s'
           | (Throw e, s') => (Throw e, s')
           end.
Definition modify {S} (f : S -> S) : M S unit := fun s => (Ok tt, f s).

(** [for (x : xs) body(x);] *)
Fixpoint for_each {S A} (xs : list A) (body : A -> M S unit) : M S unit :=
  match xs with
  | [] => ret tt
  | x :: rest => mbind (body x) (fun _ => for_each rest body)
  end.

End Cxx.

(** ** Core/TerminalBuffer.h, Core/TerminalBuffer.cpp *)

Module TerminalBuffer.
Import Cxx.

(** [struct CellAttributes]: one-bit fields are booleans, [underline] is the
    two-bit style. *)
Record CellAttributes : Type := {
  bold : bool;
  italic : bool;
  underline : Z;
  blink : bool;
  reverse : bool;
  strikethrough : bool;
  conceal : bool
}.

Definition CellAttributes_default : CellAttributes :=
  {| bold := false; italic := false; underline := 0; blink := false;
     reverse := false; strikethrough := false; conceal := false |}.

(** [struct CellColor] *)
Record CellColor : Type := { r : Z; g : Z; b : Z; flags : Z }.

Definition FLAG_DEFAULT : Z := 1.
Definition FLAG_INDEXED : Z := 2.

Definition IsDefault (c : CellColor) : bool := negb (Z.land (flags c) FLAG_DEFAULT =? 0).
Definition IsIndexed (c : CellColor) : bool := negb (Z.land (flags c) FLAG_INDEXED =? 0).

Definition CellColor_Default : CellColor :=
  {| r := 0; g := 0; b := 0; flags := FLAG_DEFAULT |}.
Definition CellColor_Rgb (r' g' b' : Z) : CellColor :=
  {| r := r'; g := g'; b := b'; flags := 0 |}.
Definition CellColor_Indexed (index : Z) : CellColor :=
  {| r := index; g := 0; b := 0; flags := FLAG_INDEXED |}.

(** [struct Cell] *)
Record Cell : Type := {
  charCode : Z;
  combining : list Z;
  fg : CellColor;
  bg : CellColor;
  attrs : CellAttributes;
  width : Z
}.

(** [Cell{}], which is also the state after [Cell::Clear()]. *)
Definition Cell_default : Cell :=
  {| charCode := 32; combining := [0; 0; 0];
     fg := CellColor_Default; bg := CellColor_Default;
     attrs := CellAttributes_default; width := 1 |}.

Definition Cell_Clear (c : Cell) : Cell := Cell_default.

(** [using Row = std::vector<Cell>] *)
Definition Row : Type := list Cell.

(** [struct TerminalBufferConfig] *)
Record TerminalBufferConfig : Type := {
  cfg_rows : Z;
  cfg_cols : Z;
  cfg_scrollbackLines : Z
}.

(** The data members of [class TerminalBuffer]; the front of the scrollback
    deque is the head of the list. *)
Record t : Type := {
  m_rows : Z;
  m_cols : Z;
  m_maxScrollback : Z;
  m_screen : list Row;
  m_scrollback : list Row;
  m_dirty : list bool
}.

(** [static const Cell s_emptyCell] *)
Definition s_emptyCell : Cell := Cell_default.

Definition set_screen (tb : t) (screen : list Row) : t :=
  {| m_rows := m_rows tb; m_cols := m_cols tb;
     m_maxScrollback := m_maxScrollback tb; m_screen := screen;
     m_scrollback := m_scrollback tb; m_dirty := m_dirty tb |}.

Definition set_dirty (tb : t) (dirty : list bool) : t :=
  {| m_rows := m_rows tb; m_cols := m_cols tb;
     m_maxScrollback := m_maxScrollback tb; m_screen := m_screen tb;
     m_scrollback := m_scrollback tb; m_dirty := dirty |}.

(** [Row CreateEmptyRow() const] *)
Definition CreateEmptyRow (tb : t) : Row :=
  Cell_Clear <$> replicate (Z.to_nat (m_cols tb)) Cell_default.

(** [TerminalBuffer(const TerminalBufferConfig&)] *)
Definition create (config : TerminalBufferConfig) : result t :=
  if (cfg_rows config <=? 0) || (cfg_cols config <=? 0) then Throw invalid_argument
  else
    let tb0 := {| m_rows := cfg_rows config; m_cols := cfg_cols config;
                  m_maxScrollback := cfg_scrollbackLines config;
                  m_screen := []; m_scrollback := []; m_dirty := [] |} in
    Ok {| m_rows := cfg_rows config; m_cols := cfg_cols config;
          m_maxScrollback := cfg_scrollbackLines config;
          m_screen := replicate (Z.to_nat (cfg_rows config)) (CreateEmptyRow tb0);
          m_scrollback := [];
          m_dirty := resize (Z.to_nat (cfg_rows config)) true [] |}.

(** [void TrimScrollback()]: pop from the back while over the cap. *)
Definition TrimScrollback (tb : t) : t :=
  {| m_rows := m_rows tb; m_cols := m_cols tb;
     m_maxScrollback := m_maxScrollback tb; m_screen := m_screen tb;
     m_scrollback := take (Z.to_nat (m_maxScrollback tb)) (m_scrollback tb);
     m_dirty := m_dirty tb |}.

(** [void MarkDirty(int row)] *)
Definition MarkDirty (tb : t) (row : Z) : t :=
  if (0 <=? row) && (row <? m_rows tb)
  then set_dirty tb (<[Z.to_nat row := true]> (m_dirty tb))
  else tb.

(** [void MarkAllDirty()] *)
Definition MarkAllDirty (tb : t) : t :=
  set_dirty tb (replicate (length (m_dirty tb)) true).

(** [void ClearDirty()] *)
Definition ClearDirty (tb : t) : t :=
  set_dirty tb (replicate (length (m_dirty tb)) false).

(** [bool IsDirty(int row) const] *)
Definition IsDirty (tb : t) (row : Z) : bool :=
  if (0 <=? row) && (row <? m_rows tb)
  then default false (m_dirty tb !! Z.to_nat row)
  else false.

(** One round of the shrinking loop of [Resize]: the top row moves to the
    front of the scrollback. *)
Definition evict_top (tb : t) : t :=
  match m_screen tb with
  | [] => tb
  | top :: rest =>
      {| m_rows := m_rows tb; m_cols := m_cols tb;
         m_maxScrollback := m_maxScrollback tb; m_screen := rest;
         m_scrollback := top :: m_scrollback tb; m_dirty := m_dirty tb |}
  end.

(** One round of the growing loop of [Resize]. *)
Definition push_empty_row (tb : t) : t :=
  set_screen tb (m_screen tb ++ [CreateEmptyRow tb]).

(** [void Resize(int rows, int cols)] *)
Definition Resize (tb : t) (rows cols : Z) : t :=
  if (rows <=? 0) || (cols <=? 0) then tb
  else
    let tb1 :=
      if rows =? m_rows tb then tb
      else
        let tb' :=
          if m_rows tb <? rows
          then Nat.iter (Z.to_nat (rows - m_rows tb)) push_empty_row tb
          else TrimScrollback (Nat.iter (Z.to_nat (m_rows tb - rows)) evict_top tb) in
        {| m_rows := rows; m_cols := m_cols tb';
           m_maxScrollback := m_maxScrollback tb'; m_screen := m_screen tb';
           m_scrollback := m_scrollback tb'; m_dirty := m_dirty tb' |} in
    let tb2 :=
      if cols =? m_cols tb1 then tb1
      else
        {| m_rows := m_rows tb1; m_cols := cols;
           m_maxScrollback := m_maxScrollback tb1;
           m_screen := (fun row : Row => resize (Z.to_nat cols) Cell_default row)
                       <$> m_screen tb1;
           m_scrollback := m_scrollback tb1; m_dirty := m_dirty tb1 |} in
    MarkAllDirty (set_dirty tb2 (resize (Z.to_nat (m_rows tb2)) true (m_dirty tb2))).

(** [void ValidateRow(int row) const] *)
Definition ValidateRow (tb : t) (row : Z) : result unit :=
  if (row <? 0) || (m_rows tb <=? row) then Throw (out_of_range_row row) else Ok tt.

(** [void ValidateCol(int col) const] *)
Definition ValidateCol (tb : t) (col : Z) : result unit :=
  if (col <? 0) || (m_cols tb <=? col) then Throw (out_of_range_col col) else Ok tt.

(** [m_screen[row][col]] for a position whose cell exists.  Where a row
    vector is shorter than [m_cols] the source indexes past its end, which is
    undefined behaviour; what is returned here for such a position stands
    for nothing, and the statements on cells are about grids in which every
    position exists ([in_bounds] below). *)
Definition cell_at (tb : t) (row col : Z) : Cell :=
  default Cell_default (m_screen tb !! Z.to_nat row ≫= (.!! Z.to_nat col)).

(** [m_screen[row][col] = f(m_screen[row][col])], for a position whose cell
    exists; see [cell_at] for a row shorter than [m_cols]. *)
Definition update_cell (tb : t) (row col : Z) (f : Cell -> Cell) : t :=
  set_screen tb (alter (alter f (Z.to_nat col)) (Z.to_nat row) (m_screen tb)).

(** A [Cell&] into the grid: the position it designates. *)
Record CellRef : Type := { ref_row : Z; ref_col : Z }.

(** [Cell& GetCell(int row, int col)] *)
Definition GetCell (tb : t) (row col : Z) : result CellRef :=
  bind (ValidateRow tb row) (fun _ =>
  bind (ValidateCol tb col) (fun _ =>
  Ok {| ref_row := row; ref_col := col |})).

(** Reading and assigning through a [Cell&]. *)
Definition load (tb : t) (ref : CellRef) : Cell := cell_at tb (ref_row ref) (ref_col ref).
Definition store (tb : t) (ref : CellRef) (f : Cell -> Cell) : t :=
  update_cell tb (ref_row ref) (ref_col ref) f.

(** [const Cell& GetCell(int row, int col) const] *)
Definition GetCell_const (tb : t) (row col : Z) : Cell :=
  if (row <? 0) || (m_rows tb <=? row) || (col <? 0) || (m_cols tb <=? col)
  then s_emptyCell
  else cell_at tb row col.

Definition in_grid (tb : t) (row col : Z) : bool :=
  (0 <=? row) && (row <? m_rows tb) && (0 <=? col) && (col <? m_cols tb).

(** [void SetCell(int row, int col, const Cell& cell)] *)
Definition SetCell (tb : t) (row col : Z) (cell : Cell) : t :=
  if in_grid tb row col
  then MarkDirty (update_cell tb row col (fun _ => cell)) row
  else tb.

(** [void SetChar(int row, int col, uint32_t charCode, int width = 1)] *)
Definition SetChar (tb : t) (row col : Z) (code : Z) (w : Z) : t :=
  if in_grid tb row col
  then MarkDirty
         (update_cell tb row col (fun cell =>
            {| charCode := code; combining := [0; 0; 0];
               fg := fg cell; bg := bg cell; attrs := attrs cell;
               width := to_uint8 w |})) row
  else tb.

(** [void ClearCell(int row, int col)] *)
Definition ClearCell (tb : t) (row col : Z) : t :=
  if in_grid tb row col
  then MarkDirty (update_cell tb row col Cell_Clear) row
  else tb.

(** [void ClearRange(int row, int startCol, int endCol)] *)
Definition ClearRange (tb : t) (row startCol endCol : Z) : t :=
  if (row <? 0) || (m_rows tb <=? row) then tb
  else
    let startCol := Z.max 0 startCol in
    let endCol := Z.min (m_cols tb) endCol in
    let tb' :=
      foldl (fun acc col => update_cell acc row col Cell_Clear) tb
            (seqZ startCol (endCol - startCol)) in
    MarkDirty tb' row.

(** [void ClearRow(int row)] *)
Definition ClearRow (tb : t) (row : Z) : t := ClearRange tb row 0 (m_cols tb).


(** [size_t GetMaxScrollback() const] *)
Definition GetMaxScrollback (tb : t) : Z := m_maxScrollback tb.

(** [void ClearScreen()] *)
Definition ClearScreen (tb : t) : t := foldl ClearRow tb (seqZ 0 (m_rows tb)).

(** [const Row& GetRow(int row) const] *)
Definition GetRow (tb : t) (row : Z) : result Row :=
  bind (ValidateRow tb row) (fun _ =>
  Ok (default [] (m_screen tb !! Z.to_nat row))).

(** [void MarkDirtyRange(int startRow, int endRow)] *)
Definition MarkDirtyRange (tb : t) (startRow endRow : Z) : t :=
  let startRow := Z.max 0 startRow in
  let endRow := Z.min (m_rows tb) endRow in
  foldl (fun acc row => set_dirty acc (<[Z.to_nat row := true]> (m_dirty acc))) tb
        (seqZ startRow (endRow - startRow)).

(** [std::vector<int> GetDirtyRows() const] *)
Definition GetDirtyRows (tb : t) : list Z :=
  foldl (fun result row =>
           if default false (m_dirty tb !! Z.to_nat row) then result ++ [row] else result)
        [] (seqZ 0 (m_rows tb)).

(** [bool HasDirty() const noexcept] *)
Definition HasDirty (tb : t) : bool := existsb (fun d : bool => d) (m_dirty tb).

(** [m_screen[row]] as an rvalue; a row the loops of [Scroll] move from is
    assigned again before anything reads it, so a move is a copy here. *)
Definition row_at (screen : list Row) (row : Z) : Row :=
  default [] (screen !! Z.to_nat row).

(** One round of the scroll-up loop of [Scroll] on the region [top, bottom). *)
Definition scroll_up_once (top bottom : Z) (tb : t) : t :=
  let scrollback :=
    if top =? 0 then row_at (m_screen tb) top :: m_scrollback tb
    else m_scrollback tb in
  let screen :=
    foldl (fun scr row => <[Z.to_nat row := row_at scr (row + 1)]> scr)
          (m_screen tb) (seqZ top (bottom - 1 - top)) in
  {| m_rows := m_rows tb; m_cols := m_cols tb;
     m_maxScrollback := m_maxScrollback tb;
     m_screen := <[Z.to_nat (bottom - 1) := CreateEmptyRow tb]> screen;
     m_scrollback := scrollback; m_dirty := m_dirty tb |}.

(** One round of the scroll-down loop of [Scroll]; its inner loop runs from
    [bottom - 1] down to [top + 1]. *)
Definition scroll_down_once (top bottom : Z) (tb : t) : t :=
  let screen :=
    foldl (fun scr row => <[Z.to_nat row := row_at scr (row - 1)]> scr)
          (m_screen tb) (rev (seqZ (top + 1) (bottom - 1 - top))) in
  match top =? 0, m_scrollback tb with
  | true, front :: rest =>
      {| m_rows := m_rows tb; m_cols := m_cols tb;
         m_maxScrollback := m_maxScrollback tb;
         m_screen := <[Z.to_nat top := front]> screen;
         m_scrollback := rest; m_dirty := m_dirty tb |}
  | _, _ =>
      {| m_rows := m_rows tb; m_cols := m_cols tb;
         m_maxScrollback := m_maxScrollback tb;
         m_screen := <[Z.to_nat top := CreateEmptyRow tb]> screen;
         m_scrollback := m_scrollback tb; m_dirty := m_dirty tb |}
  end.

(** The part of [Scroll] after the early return, on the clamped region.  The
    scroll-down loop runs [lines = -lines] rounds; with [lines = INT_MIN] the
    negated value is negative and the loop does not run. *)
Definition scroll_region (tb : t) (lines top bottom : Z) : t :=
  let tb' :=
    if 0 <? lines
    then TrimScrollback (Nat.iter (Z.to_nat lines) (scroll_up_once top bottom) tb)
    else Nat.iter (Z.to_nat (neg_int lines)) (scroll_down_once top bottom) tb in
  MarkDirtyRange tb' top bottom.

(** [void Scroll(int lines, int top = 0, int bottom = -1)] *)
Definition Scroll (tb : t) (lines top bottom : Z) : t :=
  let bottom := if bottom <? 0 then m_rows tb else bottom in
  let top := clamp top 0 (m_rows tb - 1) in
  let bottom := clamp bottom (top + 1) (m_rows tb) in
  if (lines =? 0) || (bottom - 1 <=? top) then tb
  else scroll_region tb lines top bottom.

(** [void ScrollUp()] *)
Definition ScrollUp (tb : t) : t := Scroll tb 1 0 (m_rows tb).

(** [void ScrollDown()] *)
Definition ScrollDown (tb : t) : t := Scroll tb (-1) 0 (m_rows tb).

(** [const Row* GetScrollbackLine(size_t index) const]; [None] is the null
    pointer. *)
Definition GetScrollbackLine (tb : t) (index : Z) : option Row :=
  if index <? Z.of_nat (length (m_scrollback tb))
  then m_scrollback tb !! Z.to_nat index
  else None.

(** [void ClearScrollback()] *)
Definition ClearScrollback (tb : t) : t :=
  {| m_rows := m_rows tb; m_cols := m_cols tb;
     m_maxScrollback := m_maxScrollback tb; m_screen := m_screen tb;
     m_scrollback := []; m_dirty := m_dirty tb |}.

(** [void SetMaxScrollback(size_t lines)] *)
Definition SetMaxScrollback (tb : t) (lines : Z) : t :=
  TrimScrollback
    {| m_rows := m_rows tb; m_cols := m_cols tb;
       m_maxScrollback := lines; m_screen := m_screen tb;
       m_scrollback := m_scrollback tb; m_dirty := m_dirty tb |}.

(** *** Text extraction *)

(** The UTF-8 bytes appended for one code point. *)
Definition utf8_encode (cp : Z) : list Z :=
  if cp <? 128 then [to_uint8 cp]
  else if cp <? 2048 then
    [to_uint8 (Z.lor 192 (Z.shiftr cp 6));
     to_uint8 (Z.lor 128 (Z.land cp 63))]
  else if cp <? 65536 then
    [to_uint8 (Z.lor 224 (Z.shiftr cp 12));
     to_uint8 (Z.lor 128 (Z.land (Z.shiftr cp 6) 63));
     to_uint8 (Z.lor 128 (Z.land cp 63))]
  else
    [to_uint8 (Z.lor 240 (Z.shiftr cp 18));
     to_uint8 (Z.lor 128 (Z.land (Z.shiftr cp 12) 63));
     to_uint8 (Z.lor 128 (Z.land (Z.shiftr cp 6) 63));
     to_uint8 (Z.lor 128 (Z.land cp 63))].

(** The loop over [cell.combining], which stops at the first zero. *)
Fixpoint combining_text (combs : list Z) : list Z :=
  match combs with
  | [] => []
  | comb :: rest => if comb =? 0 then [] else utf8_encode comb ++ combining_text rest
  end.

(** The bytes one cell contributes to its row's text. *)
Definition cell_text (cell : Cell) : list Z :=
  if width cell =? 0 then []
  else utf8_encode (charCode cell) ++ combining_text (combining cell).

(** [while (!result.empty() && result.back() == ' ') result.pop_back();],
    on the reversed string. *)
Fixpoint drop_leading_spaces (s : list Z) : list Z :=
  match s with
  | c :: rest => if c =? 32 then drop_leading_spaces rest else s
  | [] => []
  end.

Definition trim_trailing_spaces (s : list Z) : list Z :=
  rev (drop_leading_spaces (rev s)).

(** [std::string GetRowText(int row) const] *)
Definition GetRowText (tb : t) (row : Z) : list Z :=
  if (row <? 0) || (m_rows tb <=? row) then []
  else
    let cells := default [] (m_screen tb !! Z.to_nat row) in
    trim_trailing_spaces (foldl (fun result cell => result ++ cell_text cell) [] cells).

(** The body of the row loop of [GetRegionText], run for [count] rows from
    [row]; [startCol] and [endCol] reach the loop as in the source. *)
Fixpoint region_loop (tb : t) (startRow startCol endRow endCol : Z)
    (count : nat) (row : Z) (result : list Z) : list Z :=
  match count with
  | O => result
  | S count' =>
      let rowText := GetRowText tb row in
      let colStart := if row =? startRow then startCol else 0 in
      let colEnd := if row =? endRow then endCol else m_cols tb in
      let result := if negb (length rowText =? 0)%nat then result ++ rowText else result in
      let result := if row <? endRow then result ++ [10] else result in
      region_loop tb startRow startCol endRow endCol count' (row + 1) result
  end.

(** [std::string GetRegionText(int startRow, int startCol, int endRow, int endCol) const] *)
Definition GetRegionText (tb : t) (startRow startCol endRow endCol : Z) : list Z :=
  let startRow := clamp startRow 0 (m_rows tb - 1) in
  let endRow := clamp endRow 0 (m_rows tb - 1) in
  region_loop tb startRow startCol endRow endCol
    (Z.to_nat (endRow - startRow + 1)) startRow [].

(** [std::string GetAllText() const] *)
Definition GetAllText (tb : t) : list Z :=
  GetRegionText tb 0 0 (m_rows tb - 1) (m_cols tb).

(** *** The class invariant *)

(** The screen has [m_rows] rows of [m_cols] cells and one dirty bit per row. *)
Definition wf (tb : t) : Prop :=
  0 < m_rows tb /\ 0 < m_cols tb /\
  Z.of_nat (length (m_screen tb)) = m_rows tb /\
  Forall (fun row : Row => Z.of_nat (length row) = m_cols tb) (m_screen tb) /\
  Z.of_nat (length (m_dirty tb)) = m_rows tb.

(** Every position of the [m_rows] by [m_cols] rectangle exists: the screen
    has [m_rows] rows of at least [m_cols] cells, and there is one dirty bit
    per row.  On such a grid no [m_screen[row][col]] and no [m_dirty[row]]
    that the class evaluates is out of bounds. *)
Definition in_bounds (tb : t) : Prop :=
  Z.of_nat (length (m_screen tb)) = m_rows tb /\
  Forall (fun row : Row => m_cols tb <= Z.of_nat (length row)) (m_screen tb) /\
  Z.of_nat (length (m_dirty tb)) = m_rows tb.

(** A position outside the grid. *)
Definition out_of_range (tb : t) (row col : Z) : Prop :=
  row < 0 \/ m_rows tb <= row \/ col < 0 \/ m_cols tb <= col.

(** The scrollback holds at most [m_maxScrollback] rows. *)
Definition capped (tb : t) : Prop :=
  Z.of_nat (length (m_scrollback tb)) <= m_maxScrollback tb.

(** A row of [m_cols] blank cells. *)
Definition blank_row (cols : Z) : Row := replicate (Z.to_nat cols) Cell_default.

(** One call of a mutating member function, with its arguments. *)
Inductive call : Type :=
  | CallResize (rows cols : Z)
  | CallSetCell (row col : Z) (cell : Cell)
  | CallSetChar (row col code w : Z)
  | CallClearCell (row col : Z)
  | CallClearRange (row startCol endCol : Z)
  | CallClearRow (row : Z)
  | CallClearScreen
  | CallScroll (lines top bottom : Z)
  | CallScrollUp
  | CallScrollDown
  | CallClearScrollback
  | CallSetMaxScrollback (lines : Z)
  | CallMarkDirty (row : Z)
  | CallMarkDirtyRange (startRow endRow : Z)
  | CallMarkAllDirty
  | CallClearDirty.

(** The arguments of a call have their C++ types: a [size_t] is not negative. *)
Definition call_args_ok (c : call) : Prop :=
  match c with
  | CallSetMaxScrollback lines => 0 <= lines
  | _ => True
  end.

Definition exec (tb : t) (c : call) : t :=
  match c with
  | CallResize rows cols => Resize tb rows cols
  | CallSetCell row col cell => SetCell tb row col cell
  | CallSetChar row col code w => SetChar tb row col code w
  | CallClearCell row col => ClearCell tb row col
  | CallClearRange row startCol endCol => ClearRange tb row startCol endCol
  | CallClearRow row => ClearRow tb row
  | CallClearScreen => ClearScreen tb
  | CallScroll lines top bottom => Scroll tb lines top bottom
  | CallScrollUp => ScrollUp tb
  | CallScrollDown => ScrollDown tb
  | CallClearScrollback => ClearScrollback tb
  | CallSetMaxScrollback lines => SetMaxScrollback tb lines
  | CallMarkDirty row => MarkDirty tb row
  | CallMarkDirtyRange startRow endRow => MarkDirtyRange tb startRow endRow
  | CallMarkAllDirty => MarkAllDirty tb
  | CallClearDirty => ClearDirty tb
  end.

(** Every scrollback row has the width of the grid. *)
Definition uniform (tb : t) : Prop :=
  Forall (fun row : Row => Z.of_nat (length row) = m_cols tb) (m_scrollback tb).

(** The calls that bring scrollback rows back to the screen. *)
Definition restores (c : call) : bool :=
  match c with
  | CallScroll lines _ _ => lines <? 0
  | CallScrollDown => true
  | _ => false
  end.

(** The calls that leave the number of columns as it is. *)
Definition keeps_width (tb : t) (c : call) : Prop :=
  match c with
  | CallResize rows cols => rows <= 0 \/ cols <= 0 \/ cols = m_cols tb
  | _ => True
  end.

(** The grid a scroll works on: a region of at least two rows inside a
    screen of full rows. *)
Definition scrollable (tb : t) (top bottom : Z) : Prop :=
  0 <= top /\ top + 1 < bottom /\ bottom <= Z.of_nat (length (m_screen tb)).

(** Rows joined by single newlines. *)
Fixpoint join_lines (lines : list (list Z)) : list Z :=
  match lines with
  | [] => []
  | [l] => l
  | l :: rest => l ++ [10] ++ join_lines rest
  end.

End TerminalBuffer.

(** ** Emulation/VTermWrapper.h, Emulation/VTermWrapper.cpp *)

Module VTermWrapper.
Import Cxx.

(** *** The libvterm declarations the wrapper relies on (vterm.h) *)

Definition VTERM_MAX_CHARS_PER_CELL : nat := 6.
Definition VTERM_COLOR_TYPE_MASK : Z := 1.
Definition VTERM_COLOR_RGB : Z := 0.
Definition VTERM_COLOR_INDEXED : Z := 1.
Definition VTERM_COLOR_DEFAULT_FG : Z := 2.
Definition VTERM_COLOR_DEFAULT_BG : Z := 4.
Definition VTERM_PROP_CURSORSHAPE_BLOCK : Z := 1.
Definition VTERM_PROP_CURSORSHAPE_UNDERLINE : Z := 2.
Definition VTERM_PROP_CURSORSHAPE_BAR_LEFT : Z := 3.

(** [VTermColor]: the type byte and the three payload bytes; the palette
    index of an indexed colour shares its storage with [red]. *)
Record VTermColor : Type := { vc_type : Z; vc_red : Z; vc_green : Z; vc_blue : Z }.

Definition VTERM_COLOR_IS_DEFAULT_FG (c : VTermColor) : bool :=
  negb (Z.land (vc_type c) VTERM_COLOR_DEFAULT_FG =? 0).
Definition VTERM_COLOR_IS_DEFAULT_BG (c : VTermColor) : bool :=
  negb (Z.land (vc_type c) VTERM_COLOR_DEFAULT_BG =? 0).
Definition VTERM_COLOR_IS_INDEXED (c : VTermColor) : bool :=
  Z.land (vc_type c) VTERM_COLOR_TYPE_MASK =? VTERM_COLOR_INDEXED.
Definition VTERM_COLOR_IS_RGB (c : VTermColor) : bool :=
  Z.land (vc_type c) VTERM_COLOR_TYPE_MASK =? VTERM_COLOR_RGB.

(** [VTermScreenCellAttrs] *)
Record VTermScreenCellAttrs : Type := {
  va_bold : Z; va_underline : Z; va_italic : Z; va_blink : Z;
  va_reverse : Z; va_conceal : Z; va_strike : Z
}.

(** [VTermScreenCell] *)
Record VTermScreenCell : Type := {
  vs_chars : list Z;
  vs_width : Z;
  vs_attrs : VTermScreenCellAttrs;
  vs_fg : VTermColor;
  vs_bg : VTermColor
}.

(** [VTermRect] *)
Record VTermRect : Type := {
  start_row : Z; end_row : Z; start_col : Z; end_col : Z
}.

(** *** The wrapper's own types *)

(** [struct TermColor] *)
Record TermColor : Type := {
  tc_r : Z; tc_g : Z; tc_b : Z;
  isDefault : bool; isIndexed : bool; paletteIndex : Z
}.

Definition TermColor_default : TermColor :=
  {| tc_r := 0; tc_g := 0; tc_b := 0;
     isDefault := true; isIndexed := false; paletteIndex := 0 |}.

(** [TermColor TermColor::FromVTerm(const VTermColor&)] *)
Definition TermColor_FromVTerm (color : VTermColor) : TermColor :=
  if VTERM_COLOR_IS_DEFAULT_FG color || VTERM_COLOR_IS_DEFAULT_BG color
  then TermColor_default
  else if VTERM_COLOR_IS_INDEXED color
  then {| tc_r := 0; tc_g := 0; tc_b := 0;
          isDefault := false; isIndexed := true; paletteIndex := vc_red color |}
  else if VTERM_COLOR_IS_RGB color
  then {| tc_r := vc_red color; tc_g := vc_green color; tc_b := vc_blue color;
          isDefault := false; isIndexed := false; paletteIndex := 0 |}
  else TermColor_default.

(** [struct CellAttrs] *)
Record CellAttrs : Type := {
  ca_bold : bool; ca_italic : bool; ca_underline : bool; ca_blink : bool;
  ca_reverse : bool; ca_strikethrough : bool; ca_conceal : bool;
  underlineStyle : Z
}.

(** [CellAttrs CellAttrs::FromVTerm(const VTermScreenCellAttrs&)] *)
Definition CellAttrs_FromVTerm (attrs : VTermScreenCellAttrs) : CellAttrs :=
  {| ca_bold := negb (va_bold attrs =? 0);
     ca_italic := negb (va_italic attrs =? 0);
     ca_underline := negb (va_underline attrs =? 0);
     underlineStyle := to_uint8 (va_underline attrs);
     ca_blink := negb (va_blink attrs =? 0);
     ca_reverse := negb (va_reverse attrs =? 0);
     ca_strikethrough := negb (va_strike attrs =? 0);
     ca_conceal := negb (va_conceal attrs =? 0) |}.

(** [struct TermCell] *)
Record TermCell : Type := {
  chars : list Z;
  tc_width : Z;
  tc_attrs : CellAttrs;
  tc_fg : TermColor;
  tc_bg : TermColor
}.

(** The conversion of one libvterm cell, as [GetCell] and [OnScrollbackPush]
    both do it. *)
Definition convert_cell (cell : VTermScreenCell) : TermCell :=
  let cs := c_str (take VTERM_MAX_CHARS_PER_CELL (vs_chars cell)) in
  {| chars := if (length cs =? 0)%nat then [32] else cs;
     tc_width := if 0 <? vs_width cell then vs_width cell else 1;
     tc_attrs := CellAttrs_FromVTerm (vs_attrs cell);
     tc_fg := TermColor_FromVTerm (vs_fg cell);
     tc_bg := TermColor_FromVTerm (vs_bg cell) |}.

(** [enum class CursorShape] *)
Inductive CursorShape : Type := Block | Underline | Bar.

(** [struct TermProps] *)
Record TermProps : Type := {
  title : list Z;
  iconName : list Z;
  cursorVisible : bool;
  cursorBlink : bool;
  cursorShape : CursorShape;
  altScreen : bool;
  mouseMode : Z
}.

Definition TermProps_default : TermProps :=
  {| title := []; iconName := []; cursorVisible := true; cursorBlink := true;
     cursorShape := Block; altScreen := false; mouseMode := 0 |}.

(** A property change as libvterm reports it: the property and the member
    of the [VTermValue] union that goes with it.  A string is [None] when its
    pointer is null. *)
Inductive PropChange : Type :=
  | PropCursorVisible (boolean : Z)
  | PropCursorBlink (boolean : Z)
  | PropAltScreen (boolean : Z)
  | PropTitle (str : option (list Z))
  | PropIconName (str : option (list Z))
  | PropCursorShape (number : Z)
  | PropMouse (number : Z)
  | PropOther.

(** What libvterm reports to the wrapper's static handlers.  A damage report
    comes with the parser's cell view at that time, which is what
    [vterm_screen_get_cell] answers while the callback runs; the cells of a
    scrollback line are [None] when the pointer is null. *)
Inductive Report : Type :=
  | RepDamage (rect : VTermRect) (screen : Z -> Z -> option VTermScreenCell)
  | RepMoveRect (dest src : VTermRect) (screen : Z -> Z -> option VTermScreenCell)
  | RepMoveCursor (row col : Z) (visible : Z)
  | RepSetTermProp (change : PropChange)
  | RepBell
  | RepResize (rows cols : Z)
  | RepScrollbackPush (cols : Z) (cells : option (list VTermScreenCell))
  | RepScrollbackPop (cols : Z)
  | RepOutput (s : option (list Z)).

Section Host.
(** [H] is the state of the object whose methods the registered callbacks
    call (the session). *)
Context {H : Type}.
(** [MultiByteToWideChar(CP_UTF8, 0, str, len, ...)]: the UTF-16 code units
    of [len] bytes. *)
Context (MultiByteToWideChar : list Z -> list Z).

(** The data members of [class VTermWrapper] that the handlers use; the
    parser itself stays with libvterm.  A [std::function] member is [None]
    while empty. *)
Record t : Type := {
  m_props : TermProps;
  m_cursorRow : Z;
  m_cursorCol : Z;
  m_damageCallback :
    option ((Z -> Z -> TermCell) -> Z -> Z -> Z -> Z -> M H unit);
  m_moveCursorCallback : option (Z -> Z -> bool -> M H unit);
  m_termPropCallback : option (TermProps -> M H unit);
  m_bellCallback : option (M H unit);
  m_resizeCallback : option (Z -> Z -> M H unit);
  m_outputCallback : option (list Z -> M H unit);
  m_scrollbackPushCallback : option (list TermCell -> M H unit)
}.

(** [VTermWrapper(int rows, int cols)], once [vterm_new] has succeeded.  The
    reports libvterm makes during the constructor's [vterm_screen_reset] find
    every callback empty and are not replayed here. *)
Definition create : t :=
  {| m_props := TermProps_default; m_cursorRow := 0; m_cursorCol := 0;
     m_damageCallback := None; m_moveCursorCallback := None;
     m_termPropCallback := None; m_bellCallback := None;
     m_resizeCallback := None; m_outputCallback := None;
     m_scrollbackPushCallback := None |}.

Definition SetDamageCallback (w : t) cb : t :=
  {| m_props := m_props w; m_cursorRow := m_cursorRow w;
     m_cursorCol := m_cursorCol w; m_damageCallback := Some cb;
     m_moveCursorCallback := m_moveCursorCallback w;
     m_termPropCallback := m_termPropCallback w;
     m_bellCallback := m_bellCallback w;
     m_resizeCallback := m_resizeCallback w;
     m_outputCallback := m_outputCallback w;
     m_scrollbackPushCallback := m_scrollbackPushCallback w |}.

Definition SetTermPropCallback (w : t) cb : t :=
  {| m_props := m_props w; m_cursorRow := m_cursorRow w;
     m_cursorCol := m_cursorCol w; m_damageCallback := m_damageCallback w;
     m_moveCursorCallback := m_moveCursorCallback w;
     m_termPropCallback := Some cb;
     m_bellCallback := m_bellCallback w;
     m_resizeCallback := m_resizeCallback w;
     m_outputCallback := m_outputCallback w;
     m_scrollbackPushCallback := m_scrollbackPushCallback w |}.

Definition SetScrollbackPushCallback (w : t) cb : t :=
  {| m_props := m_props w; m_cursorRow := m_cursorRow w;
     m_cursorCol := m_cursorCol w; m_damageCallback := m_damageCallback w;
     m_moveCursorCallback := m_moveCursorCallback w;
     m_termPropCallback := m_termPropCallback w;
     m_bellCallback := m_bellCallback w;
     m_resizeCallback := m_resizeCallback w;
     m_outputCallback := m_outputCallback w;
     m_scrollbackPushCallback := Some cb |}.

Definition set_props (w : t) (props : TermProps) : t :=
  {| m_props := props; m_cursorRow := m_cursorRow w;
     m_cursorCol := m_cursorCol w; m_damageCallback := m_damageCallback w;
     m_moveCursorCallback := m_moveCursorCallback w;
     m_termPropCallback := m_termPropCallback w;
     m_bellCallback := m_bellCallback w;
     m_resizeCallback := m_resizeCallback w;
     m_outputCallback := m_outputCallback w;
     m_scrollbackPushCallback := m_scrollbackPushCallback w |}.

Definition set_cursor (w : t) (row col : Z) : t :=
  {| m_props := m_props w; m_cursorRow := row; m_cursorCol := col;
     m_damageCallback := m_damageCallback w;
     m_moveCursorCallback := m_moveCursorCallback w;
     m_termPropCallback := m_termPropCallback w;
     m_bellCallback := m_bellCallback w;
     m_resizeCallback := m_resizeCallback w;
     m_outputCallback := m_outputCallback w;
     m_scrollbackPushCallback := m_scrollbackPushCallback w |}.

(** [TermCell GetCell(int row, int col) const], over the parser's view. *)
Definition GetCell (screen : Z -> Z -> option VTermScreenCell) (row col : Z)
    : TermCell :=
  match screen row col with
  | Some cell => convert_cell cell
  | None =>
      {| chars := []; tc_width := 1;
         tc_attrs := CellAttrs_FromVTerm
                       {| va_bold := 0; va_underline := 0; va_italic := 0;
                          va_blink := 0; va_reverse := 0; va_conceal := 0;
                          va_strike := 0 |};
         tc_fg := TermColor_default; tc_bg := TermColor_default |}
  end.

(** Calling a [std::function] member that may be empty. *)
Definition call_if_set {A} (cb : option A) (run : A -> M H unit) : M H unit :=
  match cb with
  | Some f => run f
  | None => ret tt
  end.

(** [static int OnDamage(VTermRect rect, void* user)] *)
Definition OnDamage (w : t) (rect : VTermRect) screen : M H unit :=
  call_if_set (m_damageCallback w) (fun cb =>
    cb (GetCell screen) (start_row rect) (end_row rect) (start_col rect) (end_col rect)).

(** [static int OnMoveRect(VTermRect dest, VTermRect src, void* user)] *)
Definition OnMoveRect (w : t) (dest src : VTermRect) screen : M H unit :=
  call_if_set (m_damageCallback w) (fun cb =>
    mbind (cb (GetCell screen) (start_row src) (end_row src) (start_col src) (end_col src))
      (fun _ =>
    cb (GetCell screen) (start_row dest) (end_row dest) (start_col dest) (end_col dest))).

(** [static int OnMoveCursor(VTermPos pos, VTermPos oldpos, int visible, void* user)] *)
Definition OnMoveCursor (w : t) (row col visible : Z) : t * M H unit :=
  (set_cursor w row col,
   call_if_set (m_moveCursorCallback w) (fun cb => cb row col (negb (visible =? 0)))).

(** The new value of [m_props] and of [propsChanged] in [OnSetTermProp]. *)
Definition apply_prop (props : TermProps) (change : PropChange) : TermProps * bool :=
  let with_title (tl : list Z) :=
    {| title := tl; iconName := iconName props;
       cursorVisible := cursorVisible props; cursorBlink := cursorBlink props;
       cursorShape := cursorShape props; altScreen := altScreen props;
       mouseMode := mouseMode props |} in
  let with_icon (ic : list Z) :=
    {| title := title props; iconName := ic;
       cursorVisible := cursorVisible props; cursorBlink := cursorBlink props;
       cursorShape := cursorShape props; altScreen := altScreen props;
       mouseMode := mouseMode props |} in
  match change with
  | PropCursorVisible boolean =>
      ({| title := title props; iconName := iconName props;
          cursorVisible := negb (boolean =? 0); cursorBlink := cursorBlink props;
          cursorShape := cursorShape props; altScreen := altScreen props;
          mouseMode := mouseMode props |}, true)
  | PropCursorBlink boolean =>
      ({| title := title props; iconName := iconName props;
          cursorVisible := cursorVisible props; cursorBlink := negb (boolean =? 0);
          cursorShape := cursorShape props; altScreen := altScreen props;
          mouseMode := mouseMode props |}, true)
  | PropAltScreen boolean =>
      ({| title := title props; iconName := iconName props;
          cursorVisible := cursorVisible props; cursorBlink := cursorBlink props;
          cursorShape := cursorShape props; altScreen := negb (boolean =? 0);
          mouseMode := mouseMode props |}, true)
  | PropTitle (Some str) =>
      if (0 <? length str)%nat && (0 <? length (MultiByteToWideChar str))%nat
      then (with_title (MultiByteToWideChar str), true)
      else (props, false)
  | PropTitle None => (props, false)
  | PropIconName (Some str) =>
      if (0 <? length str)%nat && (0 <? length (MultiByteToWideChar str))%nat
      then (with_icon (MultiByteToWideChar str), true)
      else (props, false)
  | PropIconName None => (props, false)
  | PropCursorShape number =>
      ({| title := title props; iconName := iconName props;
          cursorVisible := cursorVisible props; cursorBlink := cursorBlink props;
          cursorShape :=
            if number =? VTERM_PROP_CURSORSHAPE_BLOCK then Block
            else if number =? VTERM_PROP_CURSORSHAPE_UNDERLINE then Underline
            else if number =? VTERM_PROP_CURSORSHAPE_BAR_LEFT then Bar
            else cursorShape props;
          altScreen := altScreen props; mouseMode := mouseMode props |}, true)
  | PropMouse number =>
      ({| title := title props; iconName := iconName props;
          cursorVisible := cursorVisible props; cursorBlink := cursorBlink props;
          cursorShape := cursorShape props; altScreen := altScreen props;
          mouseMode := number |}, true)
  | PropOther => (props, false)
  end.

(** [static int OnSetTermProp(VTermProp prop, VTermValue* val, void* user)] *)
Definition OnSetTermProp (w : t) (change : PropChange) : t * M H unit :=
  let '(props, propsChanged) := apply_prop (m_props w) change in
  (set_props w props,
   if propsChanged
   then call_if_set (m_termPropCallback w) (fun cb => cb props)
   else ret tt).

(** [static int OnBell(void* user)] *)
Definition OnBell (w : t) : M H unit :=
  call_if_set (m_bellCallback w) (fun cb => cb).

(** [static int OnResize(int rows, int cols, void* user)] *)
Definition OnResize (w : t) (rows cols : Z) : M H unit :=
  call_if_set (m_resizeCallback w) (fun cb => cb rows cols).

(** [static int OnScrollbackPush(int cols, const VTermScreenCell* cells, void* user)] *)
Definition OnScrollbackPush (w : t) (cols : Z)
    (cells : option (list VTermScreenCell)) : M H unit :=
  match m_scrollbackPushCallback w, cells with
  | Some cb, Some cells => cb (convert_cell <$> take (Z.to_nat cols) cells)
  | _, _ => ret tt
  end.

(** [static void OnOutput(const char* s, size_t len, void* user)] *)
Definition OnOutput (w : t) (s : option (list Z)) : M H unit :=
  match m_outputCallback w, s with
  | Some cb, Some s => if (0 <? length s)%nat then cb s else ret tt
  | _, _ => ret tt
  end.

(** The handler libvterm calls for a report: the wrapper afterwards and the
    effect on the host. *)
Definition dispatch (w : t) (rep : Report) : t * M H unit :=
  match rep with
  | RepDamage rect screen => (w, OnDamage w rect screen)
  | RepMoveRect dest src screen => (w, OnMoveRect w dest src screen)
  | RepMoveCursor row col visible => OnMoveCursor w row col visible
  | RepSetTermProp change => OnSetTermProp w change
  | RepBell => (w, OnBell w)
  | RepResize rows cols => (w, OnResize w rows cols)
  | RepScrollbackPush cols cells => (w, OnScrollbackPush w cols cells)
  | RepScrollbackPop cols => (w, ret tt)
  | RepOutput s => (w, OnOutput w s)
  end.

End Host.

Arguments t H : clear implicits.

End VTermWrapper.

(** ** Core/PtySession.h, Core/PtySession.cpp *)

Module PtySession.
Import Cxx.

(** Win32 constants (winbase.h, winerror.h). *)
Definition STILL_ACTIVE : Z := 259.
Definition ERROR_BROKEN_PIPE : Z := 109.
Definition ERROR_OPERATION_ABORTED : Z := 995.

(** [constexpr DWORD kPtyBufferSize] *)
Definition kPtyBufferSize : Z := 4096.

(** [struct PtyConfig] *)
Record PtyConfig : Type := {
  shell : list Z;
  args : list Z;
  workingDir : list Z;
  cols : Z;
  rows : Z
}.

(** What one blocking [ReadFile] on the PTY output pipe returns: the bytes
    read on success, the value of [GetLastError()] on failure. *)
Inductive ReadFile_result : Type :=
  | ReadOk (data : list Z)
  | ReadFailed (lastError : Z).

(** One round of the reader loop as its environment presents it: the value
    of [m_running] loaded at the loop head, and the outcome of the read. *)
Record Round : Type := { running_seen : bool; read_result : ReadFile_result }.

(** The child process as the reader finds it after the loop: whether
    [m_processInfo.hProcess] is set, and what [GetExitCodeProcess] stores
    ([None] when the call fails). *)
Record ProcessInfo : Type := { hProcess : bool; GetExitCodeProcess : option Z }.

Section Host.
(** [H] is the state of the object whose methods the registered callbacks
    call (the session). *)
Context {H : Type}.

(** The data members of [class PtySession] the reader and the session use;
    [m_config] is the configuration given to [Start]. *)
Record t : Type := {
  m_running : bool;
  m_outputCallback : option (list Z -> M H unit);
  m_exitCallback : option (Z -> M H unit);
  m_cols : Z;
  m_rows : Z;
  m_config : PtyConfig
}.

Definition set_running (pty : t) (running : bool) : t :=
  {| m_running := running; m_outputCallback := m_outputCallback pty;
     m_exitCallback := m_exitCallback pty; m_cols := m_cols pty;
     m_rows := m_rows pty; m_config := m_config pty |}.

(** Modelled from the spec: [PtySession::GetConfig()], which
    [Session::GetConfig] calls, is not declared in PtySession.h.  The session
    configuration is "used for construction and persistence", so the call is
    taken to return the configuration the PTY session was started with. *)
Definition GetConfig (pty : t) : PtyConfig := m_config pty.

(** The [while (m_running.load())] loop of [IoThreadProc] over the rounds the
    environment presents.  The result tells whether the loop was left; it is
    [false] when the rounds end with the thread still inside [ReadFile]. *)
Fixpoint reader_loop (pty : t) (rounds : list Round) : M H bool :=
  match rounds with
  | [] => ret false
  | round :: rest =>
      if negb (running_seen round) then ret true
      else
        match read_result round with
        | ReadFailed _ => ret true
        | ReadOk data =>
            if (length data =? 0)%nat then ret true
            else
              mbind (match m_outputCallback pty with
                     | Some cb => cb data
                     | None => ret tt
                     end)
                    (fun _ => reader_loop pty rest)
        end
  end.

(** The exit code the reader reports after the loop, if any. *)
Definition reported_exit (proc : ProcessInfo) : option Z :=
  if hProcess proc then
    match GetExitCodeProcess proc with
    | Some exitCode => if exitCode =? STILL_ACTIVE then None else Some exitCode
    | None => None
    end
  else None.

(** [void IoThreadProc()]: the PTY session afterwards, if the thread has run
    to its end. *)
Definition IoThreadProc (pty : t) (rounds : list Round) (proc : ProcessInfo)
    : M H (option t) :=
  mbind (reader_loop pty rounds) (fun left =>
    if left then
      mbind (match reported_exit proc, m_exitCallback pty with
             | Some exitCode, Some cb => cb exitCode
             | _, _ => ret tt
             end)
            (fun _ => ret (Some (set_running pty false)))
    else ret None).

End Host.

Arguments t H : clear implicits.

End PtySession.

(** ** Core/Session.h, Core/Session.cpp *)

Module Session.
Import Cxx.

(** [enum class SessionState] *)
Inductive SessionState : Type := Idle | Running | Exited.

(** [struct SessionConfig]; wide strings are lists of UTF-16 code units. *)
Record SessionConfig : Type := {
  shell : list Z;
  args : list Z;
  workingDir : list Z;
  title : list Z;
  profileName : list Z;
  rows : Z;
  cols : Z;
  scrollbackLines : Z;
  tabIndex : Z
}.

(** The default member initialisers of [SessionConfig]. *)
Definition SessionConfig_default : SessionConfig :=
  {| shell := bytes "cmd.exe"; args := []; workingDir := [];
     title := bytes "Console3"; profileName := [];
     rows := 25; cols := 80; scrollbackLines := 10000; tabIndex := 0 |}.

(** A call the session makes to one of the two callbacks its owner sets. *)
Inductive Notification : Type :=
  | ExitNotified (exitCode : Z)
  | TitleNotified (title : list Z).

(** The state the session's own handlers work on: every data member except
    the two components that call back into it.  [notified] records the
    calls made to [m_exitCallback] and [m_titleCallback], oldest first. *)
Record Core : Type := {
  m_buffer : option TerminalBuffer.t;
  m_outputBuffer : option (RingBuffer.t Z);
  m_state : SessionState;
  m_rows : Z;
  m_cols : Z;
  m_title : list Z;
  m_exitCode : Z;
  m_exitCallback : bool;
  m_titleCallback : bool;
  notified : list Notification
}.

(** [class Session] *)
Record t : Type := {
  core : Core;
  m_vterm : option (VTermWrapper.t Core);
  m_pty : option (PtySession.t Core)
}.

(** [Session::Session()] *)
Definition create : t :=
  {| core := {| m_buffer := None; m_outputBuffer := None; m_state := Idle;
                m_rows := 25; m_cols := 80; m_title := bytes "Console3";
                m_exitCode := 0; m_exitCallback := false;
                m_titleCallback := false; notified := [] |};
     m_vterm := None; m_pty := None |}.

Definition set_buffer (c : Core) (tb : option TerminalBuffer.t) : Core :=
  {| m_buffer := tb; m_outputBuffer := m_outputBuffer c;
     m_state := m_state c; m_rows := m_rows c; m_cols := m_cols c;
     m_title := m_title c; m_exitCode := m_exitCode c;
     m_exitCallback := m_exitCallback c; m_titleCallback := m_titleCallback c;
     notified := notified c |}.

Definition set_outputBuffer (c : Core) (rb : option (RingBuffer.t Z)) : Core :=
  {| m_buffer := m_buffer c; m_outputBuffer := rb;
     m_state := m_state c; m_rows := m_rows c; m_cols := m_cols c;
     m_title := m_title c; m_exitCode := m_exitCode c;
     m_exitCallback := m_exitCallback c; m_titleCallback := m_titleCallback c;
     notified := notified c |}.

Definition set_state (c : Core) (st : SessionState) : Core :=
  {| m_buffer := m_buffer c; m_outputBuffer := m_outputBuffer c;
     m_state := st; m_rows := m_rows c; m_cols := m_cols c;
     m_title := m_title c; m_exitCode := m_exitCode c;
     m_exitCallback := m_exitCallback c; m_titleCallback := m_titleCallback c;
     notified := notified c |}.

(** [void SetExitCallback(SessionExitCallback)] *)
Definition SetExitCallback (s : t) : t :=
  let c := core s in
  {| core := {| m_buffer := m_buffer c; m_outputBuffer := m_outputBuffer c;
                m_state := m_state c; m_rows := m_rows c; m_cols := m_cols c;
                m_title := m_title c; m_exitCode := m_exitCode c;
                m_exitCallback := true; m_titleCallback := m_titleCallback c;
                notified := notified c |};
     m_vterm := m_vterm s; m_pty := m_pty s |}.

(** [void OnPtyOutput(const char* data, size_t length)] *)
Definition OnPtyOutput (data : list Z) : M Core unit :=
  modify (fun c =>
    match m_outputBuffer c with
    | Some rb => set_outputBuffer c (Some (fst (RingBuffer.Write rb data)))
    | None => c
    end).

(** [void OnPtyExit(DWORD exitCode)] *)
Definition OnPtyExit (exitCode : Z) : M Core unit :=
  modify (fun c =>
    {| m_buffer := m_buffer c; m_outputBuffer := m_outputBuffer c;
       m_state := Exited; m_rows := m_rows c; m_cols := m_cols c;
       m_title := m_title c; m_exitCode := exitCode;
       m_exitCallback := m_exitCallback c; m_titleCallback := m_titleCallback c;
       notified := if m_exitCallback c
                   then notified c ++ [ExitNotified exitCode]
                   else notified c |}).

(** The assignments [OnVTermDamage] makes to one buffer cell. *)
Definition copy_cell (vtCell : VTermWrapper.TermCell) (bufCell : TerminalBuffer.Cell)
    : TerminalBuffer.Cell :=
  let color (c : VTermWrapper.TermColor) :=
    if VTermWrapper.isDefault c then TerminalBuffer.CellColor_Default
    else TerminalBuffer.CellColor_Rgb
           (VTermWrapper.tc_r c) (VTermWrapper.tc_g c) (VTermWrapper.tc_b c) in
  let a := VTermWrapper.tc_attrs vtCell in
  {| TerminalBuffer.charCode :=
       match VTermWrapper.chars vtCell with
       | [] => 32
       | c :: _ => c
       end;
     TerminalBuffer.combining :=
       list_inserts 0 (take 3 (drop 1 (VTermWrapper.chars vtCell)))
                    (TerminalBuffer.combining bufCell);
     TerminalBuffer.fg := color (VTermWrapper.tc_fg vtCell);
     TerminalBuffer.bg := color (VTermWrapper.tc_bg vtCell);
     TerminalBuffer.attrs :=
       {| TerminalBuffer.bold := VTermWrapper.ca_bold a;
          TerminalBuffer.italic := VTermWrapper.ca_italic a;
          TerminalBuffer.underline := VTermWrapper.underlineStyle a mod 4;
          TerminalBuffer.blink := VTermWrapper.ca_blink a;
          TerminalBuffer.reverse := VTermWrapper.ca_reverse a;
          TerminalBuffer.strikethrough := VTermWrapper.ca_strikethrough a;
          TerminalBuffer.conceal :=
            TerminalBuffer.conceal (TerminalBuffer.attrs bufCell) |};
     TerminalBuffer.width := to_uint8 (VTermWrapper.tc_width vtCell) |}.

(** The loops of [OnVTermDamage] on the buffer.  [GetCell] throws for a
    position outside the grid, and nothing catches it. *)
Definition damage_buffer (view : Z -> Z -> VTermWrapper.TermCell)
    (startRow endRow startCol endCol : Z) : M TerminalBuffer.t unit :=
  for_each (seqZ startRow (endRow - startRow)) (fun row =>
    mbind
      (for_each (seqZ startCol (endCol - startCol)) (fun col =>
         fun tb =>
           match TerminalBuffer.GetCell tb row col with
           | Ok ref => (Ok tt, TerminalBuffer.store tb ref (copy_cell (view row col)))
           | Throw e => (Throw e, tb)
           end))
      (fun _ => modify (fun tb => TerminalBuffer.MarkDirty tb row))).

(** [void OnVTermDamage(int startRow, int endRow, int startCol, int endCol)];
    the parser it reads is the one that is calling. *)
Definition OnVTermDamage (view : Z -> Z -> VTermWrapper.TermCell)
    (startRow endRow startCol endCol : Z) : M Core unit :=
  fun c =>
    match m_buffer c with
    | None => (Ok tt, c)
    | Some tb =>
        let '(res, tb') := damage_buffer view startRow endRow startCol endCol tb in
        (res, set_buffer c (Some tb'))
    end.

(** [void OnVTermPropChange(const Emulation::TermProps& props)] *)
Definition OnVTermPropChange (props : VTermWrapper.TermProps) : M Core unit :=
  modify (fun c =>
    if bool_decide (m_title c <> VTermWrapper.title props)
       && negb (length (VTermWrapper.title props) =? 0)%nat
    then
      {| m_buffer := m_buffer c; m_outputBuffer := m_outputBuffer c;
         m_state := m_state c; m_rows := m_rows c; m_cols := m_cols c;
         m_title := VTermWrapper.title props; m_exitCode := m_exitCode c;
         m_exitCallback := m_exitCallback c;
         m_titleCallback := m_titleCallback c;
         notified := if m_titleCallback c
                     then notified c ++ [TitleNotified (VTermWrapper.title props)]
                     else notified c |}
    else c).

(** What the operating system and libvterm answer during [Start]: whether
    [vterm_new] returns a terminal, and whether [PtySession::Start] succeeds. *)
Record StartEnv : Type := { vterm_new_ok : bool; pty_start_ok : bool }.

(** [bool Start(const SessionConfig& config)] *)
Definition Start (s : t) (config : SessionConfig) (env : StartEnv) : t * bool :=
  match m_state (core s) with
  | Running => (s, false)
  | _ =>
      let c := core s in
      let c1 := {| m_buffer := m_buffer c; m_outputBuffer := m_outputBuffer c;
                   m_state := m_state c; m_rows := rows config;
                   m_cols := cols config; m_title := title config;
                   m_exitCode := m_exitCode c;
                   m_exitCallback := m_exitCallback c;
                   m_titleCallback := m_titleCallback c;
                   notified := notified c |} in
      let bufConfig :=
        {| TerminalBuffer.cfg_rows := rows config;
           TerminalBuffer.cfg_cols := cols config;
           TerminalBuffer.cfg_scrollbackLines := scrollbackLines config |} in
      match TerminalBuffer.create bufConfig with
      | Throw _ => ({| core := c1; m_vterm := m_vterm s; m_pty := m_pty s |}, false)
      | Ok tb =>
          let c2 := set_outputBuffer (set_buffer c1 (Some tb))
                      (Some (RingBuffer.create 65536)) in
          if negb (vterm_new_ok env)
          then ({| core := c2; m_vterm := m_vterm s; m_pty := m_pty s |}, false)
          else
            let vt := VTermWrapper.SetTermPropCallback
                        (VTermWrapper.SetDamageCallback
                           VTermWrapper.create OnVTermDamage)
                        OnVTermPropChange in
            let pty running :=
              {| PtySession.m_running := running;
                 PtySession.m_outputCallback := Some OnPtyOutput;
                 PtySession.m_exitCallback := Some OnPtyExit;
                 PtySession.m_cols := cols config;
                 PtySession.m_rows := rows config;
                 PtySession.m_config :=
                   {| PtySession.shell := shell config;
                      PtySession.args := args config;
                      PtySession.workingDir := workingDir config;
                      PtySession.cols := cols config;
                      PtySession.rows := rows config |} |} in
            if negb (pty_start_ok env)
            then ({| core := c2; m_vterm := Some vt; m_pty := Some (pty false) |}, false)
            else ({| core := set_state c2 Running; m_vterm := Some vt;
                     m_pty := Some (pty true) |}, true)
      end
  end.

Section Reports.
(** [MultiByteToWideChar(CP_UTF8, ...)], as the wrapper uses it for titles. *)
Context (MultiByteToWideChar : list Z -> list Z).

(** The session after libvterm has made one report to the wrapper's
    handlers, and whether a handler threw. *)
Definition on_report (s : t) (rep : VTermWrapper.Report) : t * result unit :=
  match m_vterm s with
  | None => (s, Ok tt)
  | Some vt =>
      let '(vt', effect) := VTermWrapper.dispatch MultiByteToWideChar vt rep in
      let '(res, c') := effect (core s) in
      ({| core := c'; m_vterm := Some vt'; m_pty := m_pty s |}, res)
  end.

(** A run of reports; it ends at the first handler that throws. *)
Fixpoint on_reports (s : t) (reps : list VTermWrapper.Report) : t * result unit :=
  match reps with
  | [] => (s, Ok tt)
  | rep :: rest =>
      match on_report s rep with
      | (s', Ok _) => on_reports s' rest
      | (s', Throw e) => (s', Throw e)
      end
  end.

End Reports.

(** The scrollback deque of the session's grid. *)
Definition scrollback_of (c : Core) : list TerminalBuffer.Row :=
  match m_buffer c with
  | Some tb => TerminalBuffer.m_scrollback tb
  | None => []
  end.

(** The wiring [Start] leaves in the wrapper: the damage and property
    callbacks are the session's handlers, every other callback is empty. *)
Definition wired (vt : VTermWrapper.t Core) : Prop :=
  VTermWrapper.m_damageCallback vt = Some OnVTermDamage /\
  VTermWrapper.m_termPropCallback vt = Some OnVTermPropChange /\
  VTermWrapper.m_moveCursorCallback vt = None /\
  VTermWrapper.m_bellCallback vt = None /\
  VTermWrapper.m_resizeCallback vt = None /\
  VTermWrapper.m_outputCallback vt = None /\
  VTermWrapper.m_scrollbackPushCallback vt = None.

(** A session whose wrapper is wired as [Start] leaves it. *)
Definition started (s : t) : Prop :=
  exists vt, m_vterm s = Some vt /\ wired vt.

(** A round in which the reader goes on: [m_running] is seen set and the
    read returns at least one byte. *)
Definition delivers (round : PtySession.Round) : bool :=
  PtySession.running_seen round &&
  match PtySession.read_result round with
  | PtySession.ReadOk data => negb (length data =? 0)%nat
  | PtySession.ReadFailed _ => false
  end.

(** The session state after the PTY has delivered the chunks [deliveries] to
    the output callback, one call each. *)
Definition deliver_all (c : Core) (deliveries : list (list Z)) : Core :=
  foldl (fun c data => snd (OnPtyOutput data c)) c deliveries.

(** The bytes queued in the session's ring buffer. *)
Definition queued (c : Core) : Z :=
  match m_outputBuffer c with
  | Some rb => RingBuffer.Size rb
  | None => 0
  end.

(** *** Serialization *)

Section Persistence.
(** [WideCharToMultiByte(CP_UTF8, 0, w, -1, ...)] and
    [MultiByteToWideChar(CP_UTF8, 0, s, -1, ...)]: the converted text of a
    NUL-terminated string, without the terminator. *)
Context (WideCharToMultiByte MultiByteToWideChar : list Z -> list Z).
(** What [std::atoi] returns for a number that does not fit an [int]. *)
Context (out_of_int : Z -> Z).

(** [std::string WideToUtf8(const std::wstring& wide)] *)
Definition WideToUtf8 (wide : list Z) : list Z :=
  if (length wide =? 0)%nat then [] else WideCharToMultiByte (c_str wide).

(** [std::wstring Utf8ToWide(const std::string& utf8)] *)
Definition Utf8ToWide (utf8 : list Z) : list Z :=
  if (length utf8 =? 0)%nat then [] else MultiByteToWideChar (c_str utf8).

(** [SessionConfig GetConfig() const] *)
Definition GetConfig (s : t) : SessionConfig :=
  {| shell := match m_pty s with
              | Some pty => PtySession.shell (PtySession.GetConfig pty)
              | None => bytes "cmd.exe"
              end;
     args := match m_pty s with
             | Some pty => PtySession.args (PtySession.GetConfig pty)
             | None => []
             end;
     workingDir := match m_pty s with
                   | Some pty => PtySession.workingDir (PtySession.GetConfig pty)
                   | None => []
                   end;
     title := m_title (core s);
     profileName := profileName SessionConfig_default;
     rows := m_rows (core s);
     cols := m_cols (core s);
     scrollbackLines := match m_buffer (core s) with
                        | Some tb => TerminalBuffer.GetMaxScrollback tb
                        | None => 10000
                        end;
     tabIndex := tabIndex SessionConfig_default |}.

(** The JSON text [Serialize] builds, given the text of each field: the
    five converted strings and the four printed numbers. *)
Definition json_text (shell_s args_s workingDir_s title_s profileName_s
                      rows_s cols_s scrollbackLines_s tabIndex_s : list Z) : list Z :=
  bytes "{" ++ [10] ++
  bytes "  " ++ [34] ++ bytes "shell" ++ [34] ++ bytes ": " ++ [34]
    ++ shell_s ++ [34] ++ bytes "," ++ [10] ++
  bytes "  " ++ [34] ++ bytes "args" ++ [34] ++ bytes ": " ++ [34]
    ++ args_s ++ [34] ++ bytes "," ++ [10] ++
  bytes "  " ++ [34] ++ bytes "workingDir" ++ [34] ++ bytes ": " ++ [34]
    ++ workingDir_s ++ [34] ++ bytes "," ++ [10] ++
  bytes "  " ++ [34] ++ bytes "title" ++ [34] ++ bytes ": " ++ [34]
    ++ title_s ++ [34] ++ bytes "," ++ [10] ++
  bytes "  " ++ [34] ++ bytes "profileName" ++ [34] ++ bytes ": " ++ [34]
    ++ profileName_s ++ [34] ++ bytes "," ++ [10] ++
  bytes "  " ++ [34] ++ bytes "rows" ++ [34] ++ bytes ": "
    ++ rows_s ++ bytes "," ++ [10] ++
  bytes "  " ++ [34] ++ bytes "cols" ++ [34] ++ bytes ": "
    ++ cols_s ++ bytes "," ++ [10] ++
  bytes "  " ++ [34] ++ bytes "scrollbackLines" ++ [34] ++ bytes ": "
    ++ scrollbackLines_s ++ bytes "," ++ [10] ++
  bytes "  " ++ [34] ++ bytes "tabIndex" ++ [34] ++ bytes ": "
    ++ tabIndex_s ++ [10] ++
  bytes "}".

(** The body of [Serialize] once [GetConfig()] has been taken. *)
Definition SerializeConfig (config : SessionConfig) : list Z :=
  json_text (WideToUtf8 (shell config)) (WideToUtf8 (args config))
            (WideToUtf8 (workingDir config)) (WideToUtf8 (title config))
            (WideToUtf8 (profileName config))
            (to_string (rows config)) (to_string (cols config))
            (to_string_unsigned (scrollbackLines config))
            (to_string (tabIndex config)).

(** [std::string Serialize() const] *)
Definition Serialize (s : t) : list Z := SerializeConfig (GetConfig s).

(** The lambda [findString] of [Deserialize]. *)
Definition findString (json : list Z) (key : string) : list Z :=
  let searchKey := [34] ++ bytes key ++ [34] ++ bytes ": " ++ [34] in
  match find json searchKey 0 with
  | None => []
  | Some pos =>
      let pos := (pos + length searchKey)%nat in
      match find json [34] pos with
      | None => []
      | Some end_ => substr json pos (end_ - pos)
      end
  end.

(** The lambda [findInt] of [Deserialize]. *)
Definition findInt (json : list Z) (key : string) : Z :=
  let searchKey := [34] ++ bytes key ++ [34] ++ bytes ": " in
  match find json searchKey 0 with
  | None => 0
  | Some pos =>
      let pos := (pos + length searchKey)%nat in
      atoi out_of_int (drop pos json)
  end.

(** [static std::optional<SessionConfig> Deserialize(const std::string& json)] *)
Definition Deserialize (json : list Z) : option SessionConfig :=
  let shell_ := Utf8ToWide (findString json "shell") in
  let rows_ := findInt json "rows" in
  let cols_ := findInt json "cols" in
  let scrollbackLines_ := RingBuffer.size_t (findInt json "scrollbackLines") in
  Some {| shell := if (length shell_ =? 0)%nat then bytes "cmd.exe" else shell_;
          args := Utf8ToWide (findString json "args");
          workingDir := Utf8ToWide (findString json "workingDir");
          title := Utf8ToWide (findString json "title");
          profileName := Utf8ToWide (findString json "profileName");
          rows := if rows_ <=? 0 then 25 else rows_;
          cols := if cols_ <=? 0 then 80 else cols_;
          scrollbackLines :=
            if scrollbackLines_ =? 0 then 10000 else scrollbackLines_;
          tabIndex := findInt json "tabIndex" |}.


End Persistence.

(** *** Feeding the parser *)

Section Pump.
(** [MultiByteToWideChar(CP_UTF8, ...)], as the wrapper uses it for titles. *)
Context (MultiByteToWideChar : list Z -> list Z).
(** libvterm's parser as the wrapper drives it.  [Parser] is the state behind
    the [VTerm*]; each of the two calls gives the state afterwards and the
    reports made to the wrapper's handlers during the call, in order. *)
Context {Parser : Type}.
Context (vterm_input_write : Parser -> list Z -> Parser * list VTermWrapper.Report).
Context (vterm_screen_flush_damage : Parser -> Parser * list VTermWrapper.Report).

(** [size_t VTermWrapper::InputWrite(const char* data, size_t length)] on the
    session's wrapper.  The byte count it returns is not used by the session
    and is left out. *)
Definition InputWrite (s : t) (p : Parser) (data : list Z)
    : t * Parser * result unit :=
  if (length data =? 0)%nat then (s, p, Ok tt)
  else
    let '(p', reps) := vterm_input_write p data in
    let '(s', res) := on_reports MultiByteToWideChar s reps in
    (s', p', res).

(** [void VTermWrapper::FlushDamage()] on the session's wrapper. *)
Definition FlushDamage (s : t) (p : Parser) : t * Parser * result unit :=
  let '(p', reps) := vterm_screen_flush_damage p in
  let '(s', res) := on_reports MultiByteToWideChar s reps in
  (s', p', res).

(** The session with the state of its ring buffer replaced. *)
Definition set_queue (s : t) (rb : RingBuffer.t Z) : t :=
  {| core := set_outputBuffer (core s) (Some rb);
     m_vterm := m_vterm s; m_pty := m_pty s |}.

(** The [while ((read = m_outputBuffer->Read(buf, sizeof(buf))) > 0)] loop of
    [ProcessOutput], for at most [fuel] reads; [None] when the reads are used
    up before the loop is left.  The reader thread adds nothing meanwhile.
    [m_outputBuffer] is checked before the loop, and nothing the loop calls
    resets it. *)
Fixpoint pump (fuel : nat) (s : t) (p : Parser) : option (t * Parser * result unit) :=
  match fuel with
  | O => None
  | S fuel' =>
      match m_outputBuffer (core s) with
      | None => Some (s, p, Ok tt)
      | Some rb =>
          let '(rb', buf) := RingBuffer.Read rb 4096 in
          let s1 := set_queue s rb' in
          if (length buf =? 0)%nat then Some (s1, p, Ok tt)
          else
            match InputWrite s1 p buf with
            | (s2, p2, Ok _) => pump fuel' s2 p2
            | (s2, p2, Throw e) => Some (s2, p2, Throw e)
            end
      end
  end.

(** [void ProcessOutput()] *)
Definition ProcessOutput (fuel : nat) (s : t) (p : Parser)
    : option (t * Parser * result unit) :=
  match m_outputBuffer (core s), m_vterm s with
  | Some _, Some _ =>
      match pump fuel s p with
      | Some (s', p', Ok _) => Some (FlushDamage s' p')
      | other => other
      end
  | _, _ => Some (s, p, Ok tt)
  end.

(** The parser after it has been given the chunks [chunks], one call each. *)
Definition fed (p : Parser) (chunks : list (list Z)) : Parser :=
  foldl (fun p chunk => fst (vterm_input_write p chunk)) p chunks.

End Pump.

(** The session the UI thread sees once the reader thread's handlers have
    brought the shared state to [c]. *)
Definition with_core (s : t) (c : Core) : t :=
  {| core := c; m_vterm := m_vterm s; m_pty := m_pty s |}.

(** The bytes of a round's read. *)
Definition read_bytes (round : PtySession.Round) : list Z :=
  match PtySession.read_result round with
  | PtySession.ReadOk data => data
  | PtySession.ReadFailed _ => []
  end.


End Session.

(** ** UI/TerminalView.cpp: key translation *)

Module TerminalView.
Import Cxx.

(** Virtual-key codes, with their values from WinUser.h. *)
Definition VK_TAB : Z := 9.
Definition VK_ESCAPE : Z := 27.
Definition VK_PRIOR : Z := 33.
Definition VK_NEXT : Z := 34.
Definition VK_END : Z := 35.
Definition VK_HOME : Z := 36.
Definition VK_LEFT : Z := 37.
Definition VK_UP : Z := 38.
Definition VK_RIGHT : Z := 39.
Definition VK_DOWN : Z := 40.
Definition VK_INSERT : Z := 45.
Definition VK_DELETE : Z := 46.
Definition VK_F1 : Z := 112.
Definition VK_F2 : Z := 113.
Definition VK_F3 : Z := 114.
Definition VK_F4 : Z := 115.
Definition VK_F5 : Z := 116.
Definition VK_F6 : Z := 117.
Definition VK_F7 : Z := 118.
Definition VK_F8 : Z := 119.
Definition VK_F9 : Z := 120.
Definition VK_F10 : Z := 121.
Definition VK_F11 : Z := 122.
Definition VK_F12 : Z := 123.
Definition VK_OEM_4 : Z := 219.

(** What [GetKeyState] reports for VK_CONTROL, VK_MENU and VK_SHIFT. *)
Record KeyState : Type := { ctrl : bool; alt : bool; shift : bool }.

(** [snprintf(modSeq, sizeof(modSeq), "\x1b[1;%dX", modParam)] with the final
    character [X]: at most fifteen characters are stored. *)
Definition snprintf_mod (final : Z) (modParam : Z) : list Z :=
  take 15 ([27] ++ bytes "[1;" ++ to_string modParam ++ [final]).

(** The [switch (vkey)] of [SendKeyToTerminal]: [None] is the [default:
    return], [Some None] a case that leaves [seq] null. *)
Definition key_sequence (vkey : Z) (keys : KeyState) (modParam : Z)
    : option (option (list Z)) :=
  let hasModifier := 1 <? modParam in
  let csi (final : Z) :=
    if hasModifier then snprintf_mod final modParam else [27; 91; final] in
  if vkey =? VK_UP then Some (Some (csi 65))
  else if vkey =? VK_DOWN then Some (Some (csi 66))
  else if vkey =? VK_RIGHT then Some (Some (csi 67))
  else if vkey =? VK_LEFT then Some (Some (csi 68))
  else if vkey =? VK_HOME then Some (Some (csi 72))
  else if vkey =? VK_END then Some (Some (csi 70))
  else if vkey =? VK_INSERT then Some (Some ([27] ++ bytes "[2~"))
  else if vkey =? VK_DELETE then Some (Some ([27] ++ bytes "[3~"))
  else if vkey =? VK_PRIOR then Some (Some ([27] ++ bytes "[5~"))
  else if vkey =? VK_NEXT then Some (Some ([27] ++ bytes "[6~"))
  else if vkey =? VK_F1 then Some (Some ([27] ++ bytes "OP"))
  else if vkey =? VK_F2 then Some (Some ([27] ++ bytes "OQ"))
  else if vkey =? VK_F3 then Some (Some ([27] ++ bytes "OR"))
  else if vkey =? VK_F4 then Some (Some ([27] ++ bytes "OS"))
  else if vkey =? VK_F5 then Some (Some ([27] ++ bytes "[15~"))
  else if vkey =? VK_F6 then Some (Some ([27] ++ bytes "[17~"))
  else if vkey =? VK_F7 then Some (Some ([27] ++ bytes "[18~"))
  else if vkey =? VK_F8 then Some (Some ([27] ++ bytes "[19~"))
  else if vkey =? VK_F9 then Some (Some ([27] ++ bytes "[20~"))
  else if vkey =? VK_F10 then Some (Some ([27] ++ bytes "[21~"))
  else if vkey =? VK_F11 then Some (Some ([27] ++ bytes "[23~"))
  else if vkey =? VK_F12 then Some (Some ([27] ++ bytes "[24~"))
  else if vkey =? VK_ESCAPE then Some (Some [27])
  else if vkey =? VK_TAB then Some (if shift keys then Some ([27] ++ bytes "[Z") else None)
  else None.

(** [void SendKeyToTerminal(UINT vkey, UINT scanCode, bool keyDown)]: the
    byte strings handed to [m_keyboardCallback], one per invocation.
    [has_callback] tells whether a callback is registered. *)
Definition SendKeyToTerminal (has_callback : bool) (keys : KeyState)
    (vkey scanCode : Z) (keyDown : bool) : list (list Z) :=
  if negb keyDown || negb has_callback then []
  else if ctrl keys && negb (alt keys) && (65 <=? vkey) && (vkey <=? 90)
  then [[to_uint8 (vkey - 65 + 1)]]
  else if ctrl keys && negb (alt keys) && (vkey =? VK_OEM_4)
  then [[27]]
  else if alt keys && negb (ctrl keys) && (65 <=? vkey) && (vkey <=? 90)
  then [[27; to_uint8 (if shift keys then vkey else vkey + 32)]]
  else
    let modParam := 1 in
    let modParam := if shift keys then modParam + 1 else modParam in
    let modParam := if alt keys then modParam + 2 else modParam in
    let modParam := if ctrl keys then modParam + 4 else modParam in
    match key_sequence vkey keys modParam with
    | Some (Some seq) => [c_str seq]
    | Some None | None => []
    end.

(** [void OnKeyDown(UINT nChar, UINT nRepCnt, UINT nFlags)] *)
Definition OnKeyDown (has_callback : bool) (keys : KeyState)
    (nChar nRepCnt nFlags : Z) : list (list Z) :=
  SendKeyToTerminal has_callback keys nChar (Z.land nFlags 255) true.

(** [void OnKeyUp(UINT nChar, UINT nRepCnt, UINT nFlags)] *)
Definition OnKeyUp (has_callback : bool) (keys : KeyState)
    (nChar nRepCnt nFlags : Z) : list (list Z) := [].

(** The four arrow keys, their virtual-key codes and the final character of
    their CSI sequences. *)
Inductive Arrow : Type := Up | Down | Right | Left.

Definition arrow_vkey (a : Arrow) : Z :=
  match a with Up => VK_UP | Down => VK_DOWN | Right => VK_RIGHT | Left => VK_LEFT end.

Definition arrow_final (a : Arrow) : Z :=
  match a with Up => 65 | Down => 66 | Right => 67 | Left => 68 end.


(** [static_cast<wchar_t>] of an unsigned value. *)
Definition to_wchar_t (z : Z) : Z := z mod 65536.


(** [struct Selection] *)
Record Selection : Type := {
  startRow : Z;
  startCol : Z;
  endRow : Z;
  endCol : Z;
  active : bool
}.

(** The test [sRow > eRow || (sRow == eRow && sCol > eCol)] that the three
    member functions make before they swap the end points. *)
Definition reversed (sRow sCol eRow eCol : Z) : bool :=
  (eRow <? sRow) || ((sRow =? eRow) && (eCol <? sCol)).

(** [bool Selection::Contains(int row, int col) const] *)
Definition Contains (s : Selection) (row col : Z) : bool :=
  if negb (active s) then false
  else
    let '(sRow, sCol, eRow, eCol) :=
      if reversed (startRow s) (startCol s) (endRow s) (endCol s)
      then (endRow s, endCol s, startRow s, startCol s)
      else (startRow s, startCol s, endRow s, endCol s) in
    if (row <? sRow) || (eRow <? row) then false
    else if (row =? sRow) && (row =? eRow) then (sCol <=? col) && (col <? eCol)
    else if row =? sRow then sCol <=? col
    else if row =? eRow then col <? eCol
    else true.

(** [void Selection::Normalize()] *)
Definition Normalize (s : Selection) : Selection :=
  if reversed (startRow s) (startCol s) (endRow s) (endCol s)
  then {| startRow := endRow s; startCol := endCol s;
          endRow := startRow s; endCol := startCol s; active := active s |}
  else s.

(** The UTF-16 code units [GetText] appends for one code point. *)
Definition utf16_encode (cp : Z) : list Z :=
  if cp <=? 65535 then [to_wchar_t cp]
  else
    let cp := cp - 65536 in
    [to_wchar_t (Z.lor 55296 (Z.shiftr cp 10));
     to_wchar_t (Z.lor 56320 (Z.land cp 1023))].

(** [std::wstring Selection::GetText(const Core::TerminalBuffer& buffer) const] *)
Definition GetText (s : Selection) (buffer : TerminalBuffer.t) : list Z :=
  if negb (active s) then []
  else
    let '(sRow, sCol, eRow, eCol) :=
      if reversed (startRow s) (startCol s) (endRow s) (endCol s)
      then (endRow s, endCol s, startRow s, startCol s)
      else (startRow s, startCol s, endRow s, endCol s) in
    foldl (fun result row =>
             let colStart := if row =? sRow then sCol else 0 in
             let colEnd := if row =? eRow then eCol else TerminalBuffer.m_cols buffer in
             let result :=
               foldl (fun result col =>
                        let cell := TerminalBuffer.GetCell_const buffer row col in
                        if TerminalBuffer.width cell =? 0 then result
                        else result ++ utf16_encode (TerminalBuffer.charCode cell))
                     result (seqZ colStart (colEnd - colStart)) in
             if row <? eRow then result ++ [10] else result)
          [] (seqZ sRow (eRow - sRow + 1)).

(** A position that comes before another in reading order. *)
Definition before (row col row' col' : Z) : Prop :=
  row < row' \/ (row = row' /\ col < col').

End TerminalView.

(* ===================================================================== *)
(** * Part II: the properties *)
(* ===================================================================== *)

(** ** Ring buffer: capacity rounding, the size invariant, FIFO order *)

Module RingBufferFacts.
Import RingBuffer.

(** *** Bit smearing in [NextPowerOfTwo] *)

Lemma window_init x : window 1 x x.
Proof.
  intros i Hi; split.
  - intros Hb. exists i. split; [lia | done].
  - intros (j & Hj & Hb). by replace i with j by lia.
Qed.

Lemma window_double k x y :
  0 <= k -> window k x y -> window (2 * k) x (Z.lor y (Z.shiftr y k)).
Proof.
  intros Hk Hw i Hi.
  rewrite Z.lor_spec, Z.shiftr_spec by lia.
  rewrite orb_true_iff, (Hw i Hi), (Hw (i + k)) by lia.
  split.
  - intros [(j & Hj & Hb) | (j & Hj & Hb)]; exists j; (split; [lia | done]).
  - intros (j & Hj & Hb).
    destruct (Z_lt_ge_dec j (i + k)); [left | right]; exists j; (split; [lia | done]).
Qed.

Lemma smear_ones m y :
  0 < m < 2 ^ 64 -> window 64 m y -> 0 <= y -> y = Z.ones (Z.log2 m + 1).
Proof.
  intros Hm Hw Hy.
  assert (Hlog : 0 <= Z.log2 m < 64).
  { split; [apply Z.log2_nonneg |]. apply Z.log2_lt_pow2; lia. }
  apply Z.bits_inj'. intros i Hi.
  rewrite Z.testbit_ones_nonneg by lia.
  destruct (Z.ltb_spec i (Z.log2 m + 1)) as [Hlt | Hge].
  - apply (Hw i Hi). exists (Z.log2 m). split; [lia |].
    apply Z.bit_log2. lia.
  - destruct (Z.testbit y i) eqn:Hb; [| done].
    apply (Hw i Hi) in Hb as (j & Hj & Hb).
    rewrite Z.bits_above_log2 in Hb; [done | lia | lia].
Qed.

Lemma smear_zero y : window 64 0 y -> 0 <= y -> y = 0.
Proof.
  intros Hw Hy. apply Z.bits_inj'. intros i Hi.
  rewrite Z.bits_0.
  destruct (Z.testbit y i) eqn:Hb; [| done].
  apply (Hw i Hi) in Hb as (j & _ & Hb). by rewrite Z.bits_0 in Hb.
Qed.

Lemma lor_shiftr_nonneg y k : 0 <= y -> 0 <= Z.lor y (Z.shiftr y k).
Proof. intros Hy. apply Z.lor_nonneg. split; [done |]. by apply Z.shiftr_nonneg. Qed.

(** On every [size_t] request the code computes the rounded capacity, reduced
    to 64 bits. *)
Lemma NextPowerOfTwo_spec n :
  is_size_t n -> NextPowerOfTwo n = size_t (round_up_pow2 n).
Proof.
  intros [Hn0 Hn]. unfold NextPowerOfTwo, round_up_pow2.
  destruct (Z.eqb_spec n 0) as [-> | Hne]; [done |].
  set (m := size_t (n - 1)).
  assert (Hm : m = n - 1) by (unfold m, size_t; apply Z.mod_small; lia).
  set (y := Z.lor _ (Z.shiftr _ 32)).
  assert (Hw : window 64 m y).
  { unfold y.
    repeat match goal with
    | |- window _ _ (Z.lor ?a (Z.shiftr ?a ?k)) =>
        apply (window_double k m a); [lia |]
    end.
    apply window_init. }
  assert (Hy : 0 <= y).
  { unfold y. repeat apply lor_shiftr_nonneg. unfold m, size_t.
    apply Z.mod_pos_bound. lia. }
  clearbody y. f_equal.
  destruct (Z.eq_dec n 1) as [-> | Hn1].
  - rewrite (smear_zero y); [done | by rewrite Hm in Hw | done].
  - rewrite (smear_ones m y) by (done || lia).
    rewrite Z.ones_equiv, Hm.
    rewrite (Z.log2_up_eqn n) by lia.
    replace (Z.pred n) with (n - 1) by lia.
    replace (Z.log2 (n - 1) + 1) with (Z.succ (Z.log2 (n - 1))) by lia.
    lia.
Qed.

(** [round_up_pow2] is a power of two, is at least the request, and no smaller
    power of two is. *)
Lemma round_up_pow2_least n :
  0 <= n ->
  n <= round_up_pow2 n /\ forall k, 0 <= k -> n <= 2 ^ k -> round_up_pow2 n <= 2 ^ k.
Proof.
  intros Hn. unfold round_up_pow2. split.
  - destruct (Z_le_gt_dec n 1) as [Hle | Hgt].
    + pose proof (Z.pow_pos_nonneg 2 (Z.log2_up n) ltac:(lia) (Z.log2_up_nonneg n)).
      lia.
    + apply Z.log2_up_spec. lia.
  - intros k Hk Hle. apply Z.pow_le_mono_r; [lia |].
    destruct (Z.eq_dec n 0) as [-> | Hne]; [done |].
    apply Z.log2_up_le_pow2; lia.
Qed.

Lemma log2_up_size_t n : is_size_t n -> 0 <= Z.log2_up n <= 64.
Proof.
  intros [H0 H]. split; [apply Z.log2_up_nonneg |].
  destruct (Z.eq_dec n 0) as [-> | Hne]; [done |].
  apply Z.log2_up_le_pow2; lia.
Qed.

(** *** Counter arithmetic *)

Lemma size_t_range z : is_size_t (size_t z).
Proof. unfold is_size_t, size_t. apply Z.mod_pos_bound. lia. Qed.

Lemma size_t_small z : is_size_t z -> size_t z = z.
Proof. intros Hz. unfold size_t. by apply Z.mod_small. Qed.

Lemma size_t_sub_l a b : size_t (size_t a - b) = size_t (a - b).
Proof. unfold size_t. apply Zminus_mod_idemp_l. Qed.

Lemma size_t_sub_r a b : size_t (a - size_t b) = size_t (a - b).
Proof. unfold size_t. apply Zminus_mod_idemp_r. Qed.

Lemma size_t_add_l a b : size_t (size_t a + b) = size_t (a + b).
Proof. unfold size_t. apply Zplus_mod_idemp_l. Qed.

(** Advancing the head by [w] grows the readable count by [w]. *)
Lemma AvailableToRead_advance_head h t w :
  0 <= w -> AvailableToRead h t + w < 2 ^ 64 ->
  AvailableToRead (size_t (h + w)) t = AvailableToRead h t + w.
Proof.
  unfold AvailableToRead. intros Hw Hlt.
  rewrite size_t_sub_l.
  replace (h + w - t) with (h - t + w) by lia.
  rewrite <- size_t_add_l. apply size_t_small.
  pose proof (size_t_range (h - t)) as Hr. unfold is_size_t in *. lia.
Qed.

(** Advancing the tail by [r] shrinks the readable count by [r]. *)
Lemma AvailableToRead_advance_tail h t r :
  0 <= r <= AvailableToRead h t ->
  AvailableToRead h (size_t (t + r)) = AvailableToRead h t - r.
Proof.
  unfold AvailableToRead. intros Hr.
  rewrite size_t_sub_r.
  replace (h - (t + r)) with (h - t + - r) by lia.
  rewrite <- size_t_add_l. apply size_t_small.
  pose proof (size_t_range (h - t)) as Hr'. unfold is_size_t in *. lia.
Qed.

Section Counters.
Context {T : Type} `{!Inhabited T}.
Implicit Types (rb : t T) (c : call T).

Lemma Size_range rb : is_size_t (Size rb).
Proof. apply size_t_range. Qed.

Lemma Available_eq rb : bounded rb -> Available rb = Capacity rb - Size rb.
Proof.
  unfold bounded, Available, AvailableToWrite, Capacity, Size. intros Hb.
  apply size_t_small.
  pose proof (size_t_range (m_capacity rb - 1)) as H1.
  pose proof (size_t_range (m_head rb - m_tail rb)) as H2.
  unfold AvailableToRead, is_size_t in *. lia.
Qed.

Lemma bounded_create capacity : bounded (create (T:=T) capacity).
Proof.
  unfold bounded, Size, Capacity, AvailableToRead; simpl.
  change (size_t (0 - 0)) with 0.
  apply size_t_range.
Qed.

Lemma bounded_Write rb data : bounded rb -> bounded (fst (Write rb data)).
Proof.
  intros Hb. unfold Write.
  fold (Available rb). rewrite (Available_eq rb Hb).
  pose proof (Size_range rb) as Hs.
  pose proof (size_t_range (m_capacity rb - 1)) as Hc. fold (Capacity rb) in Hc.
  destruct (Z.eqb_spec (Z.of_nat (length data) `min` (Capacity rb - Size rb)) 0);
    [done |].
  unfold bounded, Size, Capacity in *; simpl.
  rewrite AvailableToRead_advance_head; unfold is_size_t in *; lia.
Qed.

Lemma Size_Write rb data :
  bounded rb ->
  Size (fst (Write rb data)) = Z.min (Size rb + Z.of_nat (length data)) (Capacity rb) /\
  Capacity (fst (Write rb data)) = Capacity rb.
Proof.
  intros Hb. unfold Write.
  fold (Available rb). rewrite (Available_eq rb Hb).
  pose proof (Size_range rb) as Hs.
  pose proof (size_t_range (m_capacity rb - 1)) as Hc. fold (Capacity rb) in Hc.
  unfold bounded in Hb.
  destruct (Z.eqb_spec (Z.of_nat (length data) `min` (Capacity rb - Size rb)) 0);
    cbn [fst]; [lia |].
  split; [| done].
  unfold Size; cbn [m_head m_tail].
  rewrite AvailableToRead_advance_head; fold (Size rb); unfold is_size_t in *; lia.
Qed.

Lemma bounded_Read rb n : is_size_t n -> bounded rb -> bounded (fst (Read rb n)).
Proof.
  intros Hn Hb. unfold Read. fold (Size rb).
  pose proof (Size_range rb) as Hs.
  destruct (Z.eqb_spec (n `min` Size rb) 0); [done |].
  unfold bounded, Size, Capacity in *; simpl.
  rewrite AvailableToRead_advance_tail; unfold is_size_t in *; lia.
Qed.

Lemma bounded_Skip rb n : is_size_t n -> bounded rb -> bounded (fst (Skip rb n)).
Proof.
  intros Hn Hb. unfold Skip. fold (Size rb).
  pose proof (Size_range rb) as Hs. simpl.
  destruct (Z.ltb_spec 0 (n `min` Size rb)); [| done].
  unfold bounded, Size, Capacity in *; simpl.
  rewrite AvailableToRead_advance_tail; unfold is_size_t in *; lia.
Qed.

Lemma bounded_Clear rb : bounded (Clear rb).
Proof.
  unfold bounded, Size, Capacity, AvailableToRead; simpl.
  change (size_t (0 - 0)) with 0. apply size_t_range.
Qed.

Lemma bounded_exec rb c : call_args_ok c -> bounded rb -> bounded (exec rb c).
Proof.
  intros Hc Hb. destruct c; cbn [exec call_args_ok] in *.
  - by apply bounded_Write.
  - by apply bounded_Read.
  - done.
  - by apply bounded_Skip.
  - apply bounded_Clear.
Qed.

Lemma capacity_exec rb c : m_capacity (exec rb c) = m_capacity rb.
Proof.
  destruct c; simpl; try done.
  - unfold Write. by destruct (_ =? _).
  - unfold Read. by destruct (_ =? _).
  - unfold Skip; simpl. by destruct (_ <? _).
Qed.

Lemma exec_all_inv rb cs :
  Forall call_args_ok cs -> bounded rb ->
  bounded (exec_all rb cs) /\ m_capacity (exec_all rb cs) = m_capacity rb.
Proof.
  intros Hcs. revert rb. induction Hcs as [| c cs Hc _ IH]; intros rb Hb; [done |].
  simpl. destruct (IH (exec rb c)) as [IH1 IH2]; [by apply bounded_exec |].
  split; [done |]. by rewrite IH2, capacity_exec.
Qed.

(** C5.  For every requested capacity and after any sequence of Write, Read,
    Peek, Skip and Clear calls, [Size() + Available() + 1] is the requested
    capacity rounded up to a power of two. *)
Theorem size_available_capacity (capacity : Z) (cs : list (call T)) :
  is_size_t capacity ->
  Forall call_args_ok cs ->
  let rb := exec_all (create capacity) cs in
  Size rb + Available rb + 1 = round_up_pow2 capacity.
Proof.
  intros Hcap Hcs rb.
  destruct (exec_all_inv (create capacity) cs Hcs (bounded_create capacity))
    as [Hb Hc].
  fold rb in Hb, Hc. rewrite (Available_eq rb Hb).
  unfold Capacity. rewrite Hc. cbn [create m_capacity].
  rewrite (NextPowerOfTwo_spec capacity Hcap).
  unfold round_up_pow2.
  pose proof (log2_up_size_t capacity Hcap) as Hk.
  destruct (Z.eq_dec (Z.log2_up capacity) 64) as [Heq | Hne].
  - rewrite Heq.
    replace (size_t (size_t (2 ^ 64) - 1)) with (2 ^ 64 - 1) by (by vm_compute).
    lia.
  - assert (Hlt : 0 < 2 ^ Z.log2_up capacity < 2 ^ 64).
    { split; [apply Z.pow_pos_nonneg; lia |]. apply Z.pow_lt_mono_r; lia. }
    rewrite (size_t_small (2 ^ _)) by (unfold is_size_t; lia).
    rewrite size_t_small by (unfold is_size_t; lia). lia.
Qed.

End Counters.

Lemma size_available_capacity_witness :
  let rb := exec_all (create (T:=Z) 5)
              [CallWrite [1; 2; 3]; CallRead 2; CallPeek 1; CallSkip 4;
               CallClear; CallWrite [7]] in
  Size rb + Available rb + 1 = round_up_pow2 5.
Proof.
  apply size_available_capacity.
  - unfold is_size_t. lia.
  - repeat constructor; unfold is_size_t; simpl; lia.
Defined.

(** *** Contents of the queue *)

(** Wrap-around of an index that has advanced by less than one lap. *)
Lemma mod_wrap a b c :
  0 <= a < c -> 0 <= b < c ->
  (a + b) mod c = if a + b <? c then a + b else a + b - c.
Proof.
  intros Ha Hb. destruct (Z.ltb_spec (a + b) c).
  - apply Z.mod_small. lia.
  - symmetry. apply (Z.mod_unique_pos _ _ 1); lia.
Qed.

Section Contents.
Context {T : Type} `{!Inhabited T}.
Implicit Types (rb : t T) (buf data : list T).

Lemma length_contents rb : length (contents rb) = Z.to_nat (Size rb).
Proof. unfold contents. by rewrite length_fmap, length_seq. Qed.

Lemma wf_capacity_pos rb : wf rb -> 0 < m_capacity rb <= 2 ^ 63.
Proof.
  intros (k & Hk & -> & _). split; [apply Z.pow_pos_nonneg; lia |].
  apply Z.pow_le_mono_r; lia.
Qed.

Lemma lookup_contents rb (i : nat) :
  wf rb -> (i < Z.to_nat (Size rb))%nat ->
  contents rb !! i =
  m_buffer rb !! Z.to_nat ((m_tail rb + Z.of_nat i) mod m_capacity rb).
Proof.
  intros Hwf Hi. pose proof (wf_capacity_pos rb Hwf) as Hc.
  destruct Hwf as (k & Hk & Hcap & _ & Hlen & _).
  unfold contents. rewrite list_lookup_fmap, lookup_seq_lt by done. simpl.
  symmetry. apply list_lookup_lookup_total_lt.
  pose proof (Z.mod_pos_bound (m_tail rb + Z.of_nat i) (m_capacity rb)). lia.
Qed.


Lemma wf_index rb z : wf rb -> Z.land z (m_mask rb) = z mod m_capacity rb.
Proof. intros (k & Hk & -> & -> & _). apply Z.land_ones. lia. Qed.

Lemma wf_length rb : wf rb -> Z.of_nat (length (m_buffer rb)) = m_capacity rb.
Proof. intros (k & Hk & -> & _ & -> & _). done. Qed.

Lemma wf_Size rb : wf rb -> 0 <= Size rb < m_capacity rb.
Proof.
  intros (k & Hk & -> & _ & _ & Hs). pose proof (Size_range rb) as [H0 _]. lia.
Qed.

Lemma size_t_mod_capacity rb z :
  wf rb -> size_t z mod m_capacity rb = z mod m_capacity rb.
Proof.
  intros Hwf. pose proof (wf_capacity_pos rb Hwf) as Hc.
  destruct Hwf as (k & Hk & Hcap & _). unfold size_t.
  apply Z.mod_mod_divide.
  rewrite Hcap. exists (2 ^ (64 - k)).
  rewrite <- Z.pow_add_r by lia. f_equal. lia.
Qed.

Lemma wf_head_index rb :
  wf rb ->
  m_head rb mod m_capacity rb = (m_tail rb + Size rb) mod m_capacity rb.
Proof.
  intros Hwf. unfold Size, AvailableToRead.
  rewrite Z.add_mod, (size_t_mod_capacity rb _ Hwf), <- Z.add_mod
    by (pose proof (wf_capacity_pos rb Hwf); lia).
  f_equal. lia.
Qed.

Lemma length_copy_out rb tl n :
  wf rb -> 0 <= n < m_capacity rb ->
  length (copy_out rb tl n) = Z.to_nat n.
Proof.
  intros Hwf Hn. pose proof (wf_length rb Hwf) as Hlen.
  unfold copy_out, memcpy_from. rewrite (wf_index rb tl Hwf).
  pose proof (Z.mod_pos_bound tl (m_capacity rb) ltac:(lia)) as Hti.
  set (ti := tl mod m_capacity rb) in *.
  rewrite (size_t_small (m_capacity rb - ti)) by (unfold is_size_t; pose proof (wf_capacity_pos rb Hwf); lia).
  rewrite (size_t_small (n - _)) by (unfold is_size_t; pose proof (wf_capacity_pos rb Hwf); lia).
  rewrite length_app, length_take, length_drop.
  destruct (Z.ltb_spec 0 (n - n `min` (m_capacity rb - ti))).
  - rewrite length_take, length_drop. lia.
  - simpl. lia.
Qed.

Lemma lookup_copy_out rb tl n (i : nat) :
  wf rb -> 0 <= n < m_capacity rb -> Z.of_nat i < n ->
  copy_out rb tl n !! i =
  m_buffer rb !! Z.to_nat ((tl + Z.of_nat i) mod m_capacity rb).
Proof.
  intros Hwf Hn Hi. pose proof (wf_length rb Hwf) as Hlen.
  pose proof (wf_capacity_pos rb Hwf) as Hc.
  unfold copy_out, memcpy_from. rewrite (wf_index rb tl Hwf).
  rewrite <- (Zplus_mod_idemp_l tl).
  pose proof (Z.mod_pos_bound tl (m_capacity rb) ltac:(lia)) as Hti.
  set (ti := tl mod m_capacity rb) in *.
  rewrite (size_t_small (m_capacity rb - ti)) by (unfold is_size_t; lia).
  rewrite (size_t_small (n - _)) by (unfold is_size_t; lia).
  rewrite (mod_wrap ti (Z.of_nat i)) by lia.
  set (fc := n `min` (m_capacity rb - ti)).
  destruct (Z_lt_ge_dec (Z.of_nat i) fc) as [Hlt | Hge].
  - rewrite lookup_app_l by (rewrite length_take, length_drop; lia).
    rewrite lookup_take_lt, lookup_drop by lia.
    destruct (Z.ltb_spec (ti + Z.of_nat i) (m_capacity rb)); [| lia].
    f_equal. lia.
  - rewrite lookup_app_r by (rewrite length_take, length_drop; lia).
    rewrite length_take, length_drop.
    destruct (Z.ltb_spec 0 (n - fc)); [| lia].
    rewrite lookup_take_lt, lookup_drop by lia.
    destruct (Z.ltb_spec (ti + Z.of_nat i) (m_capacity rb)); [lia |].
    f_equal. lia.
Qed.

Lemma length_copy_in rb hd data n :
  length (copy_in rb hd data n) = length (m_buffer rb).
Proof.
  unfold copy_in, memcpy_to. destruct (_ <? _); by rewrite !length_inserts.
Qed.

(** After the producer's copy, the [n] slots from the head hold the first [n]
    elements of [data]; every other slot is untouched. *)
Lemma lookup_copy_in rb hd data n j :
  wf rb -> 0 <= n < m_capacity rb -> n <= Z.of_nat (length data) ->
  0 <= j < m_capacity rb ->
  copy_in rb hd data n !! Z.to_nat ((hd + j) mod m_capacity rb) =
  if j <? n then data !! Z.to_nat j
  else m_buffer rb !! Z.to_nat ((hd + j) mod m_capacity rb).
Proof.
  intros Hwf Hn Hdata Hj. pose proof (wf_length rb Hwf) as Hlen.
  pose proof (wf_capacity_pos rb Hwf) as Hc.
  unfold copy_in, memcpy_to. rewrite (wf_index rb hd Hwf).
  rewrite <- (Zplus_mod_idemp_l hd).
  pose proof (Z.mod_pos_bound hd (m_capacity rb) ltac:(lia)) as Hhi.
  set (hi := hd mod m_capacity rb) in *.
  rewrite (size_t_small (m_capacity rb - hi)) by (unfold is_size_t; lia).
  rewrite (size_t_small (n - _)) by (unfold is_size_t; lia).
  rewrite (mod_wrap hi j) by lia.
  set (fc := n `min` (m_capacity rb - hi)).
  set (p := if hi + j <? m_capacity rb then hi + j else hi + j - m_capacity rb).
  assert (Hp : 0 <= p < m_capacity rb)
    by (unfold p; destruct (Z.ltb_spec (hi + j) (m_capacity rb)); lia).
  assert (Hpj : p = hi + j /\ hi + j < m_capacity rb \/
                p = hi + j - m_capacity rb /\ m_capacity rb <= hi + j)
    by (unfold p; destruct (Z.ltb_spec (hi + j) (m_capacity rb)); lia).
  clearbody p.
  set (first := list_inserts (Z.to_nat hi) (take (Z.to_nat fc) data) (m_buffer rb)).
  assert (Hfirst : first !! Z.to_nat p =
            if (hi <=? p) && (p <? hi + fc) then data !! Z.to_nat (p - hi)
            else m_buffer rb !! Z.to_nat p).
  { unfold first.
    destruct (Z.leb_spec hi p); destruct (Z.ltb_spec p (hi + fc)); simpl.
    - rewrite list_lookup_inserts by (rewrite ?length_take; lia).
      rewrite lookup_take_lt by lia. f_equal. lia.
    - apply list_lookup_inserts_ge. rewrite length_take. lia.
    - apply list_lookup_inserts_lt. lia.
    - apply list_lookup_inserts_lt. lia. }
  assert (Hlf : length first = length (m_buffer rb)) by apply length_inserts.
  assert (Hfc : fc = n `min` (m_capacity rb - hi)) by done.
  clearbody first fc.
  destruct (Z.ltb_spec 0 (n - fc)) as [Hsc | Hsc].
  - (* two chunks *)
    destruct (Z_lt_ge_dec p (n - fc)) as [Hlo | Hhi'].
    + rewrite list_lookup_inserts
        by (rewrite ?length_take, ?length_drop, ?Hlf; lia).
      rewrite lookup_take_lt, lookup_drop by lia.
      destruct (Z.ltb_spec j n); [f_equal | ]; lia.
    + rewrite list_lookup_inserts_ge
        by (rewrite ?length_take, ?length_drop; lia).
      rewrite Hfirst.
      destruct (Z.leb_spec hi p); destruct (Z.ltb_spec p (hi + fc));
        destruct (Z.ltb_spec j n); simpl; try lia; try done.
      f_equal. lia.
  - (* one chunk *)
    rewrite Hfirst.
    destruct (Z.leb_spec hi p); destruct (Z.ltb_spec p (hi + fc));
      destruct (Z.ltb_spec j n); simpl; try lia; try done.
    f_equal. lia.
Qed.

Lemma wf_bounded rb : wf rb -> bounded rb /\ Capacity rb = m_capacity rb - 1.
Proof.
  intros Hwf. pose proof (wf_capacity_pos rb Hwf) as Hc.
  pose proof (wf_Size rb Hwf) as Hs.
  assert (Capacity rb = m_capacity rb - 1) as Hcap
    by (apply size_t_small; unfold is_size_t; lia).
  split; [| done]. unfold bounded. lia.
Qed.

Lemma wf_create capacity : 0 <= capacity <= 2 ^ 63 -> wf (create (T:=T) capacity).
Proof.
  intros Hcap.
  assert (Hk : 0 <= Z.log2_up capacity <= 63).
  { split; [apply Z.log2_up_nonneg |].
    destruct (Z.eq_dec capacity 0) as [-> | Hne]; [done |].
    apply Z.log2_up_le_pow2; lia. }
  assert (Hpow : 0 < 2 ^ Z.log2_up capacity <= 2 ^ 63).
  { split; [apply Z.pow_pos_nonneg; lia | apply Z.pow_le_mono_r; lia]. }
  exists (Z.log2_up capacity). unfold create; cbn [m_capacity m_mask m_buffer].
  rewrite NextPowerOfTwo_spec by (unfold is_size_t; lia).
  unfold round_up_pow2.
  rewrite (size_t_small (2 ^ _)) by (unfold is_size_t; lia).
  repeat split; try lia.
  - rewrite Z.ones_equiv. apply size_t_small. unfold is_size_t. lia.
  - rewrite length_replicate. lia.
  - unfold Size, AvailableToRead; cbn [m_head m_tail].
    change (size_t (0 - 0)) with 0. lia.
Qed.

Lemma contents_create capacity : contents (create (T:=T) capacity) = [].
Proof. done. Qed.

(** A write is accepted up to the free capacity, and what is accepted lands
    behind the queued elements. *)
Lemma Write_contents_take rb data :
  wf rb ->
  wf (fst (Write rb data)) /\
  contents (fst (Write rb data)) =
    contents rb ++ take (Z.to_nat (Available rb)) data.
Proof.
  intros Hwf.
  pose proof (wf_capacity_pos rb Hwf) as Hc.
  pose proof (wf_Size rb Hwf) as Hs.
  destruct (wf_bounded rb Hwf) as [Hb Hcap].
  pose proof (Available_eq rb Hb) as Hav. rewrite Hcap in Hav.
  unfold Write. fold (Available rb).
  set (w := Z.of_nat (length data) `min` Available rb).
  assert (Hw : 0 <= w <= Available rb /\ w <= Z.of_nat (length data)) by lia.
  assert (Htake : take (Z.to_nat (Available rb)) data = take (Z.to_nat w) data).
  { destruct (Z_le_gt_dec (Z.of_nat (length data)) (Available rb)).
    - rewrite !take_ge by lia. done.
    - f_equal. lia. }
  rewrite Htake.
  destruct (Z.eqb_spec w 0) as [H0 | Hne].
  { rewrite H0. cbn [fst]. by rewrite take_0, app_nil_r. }
  cbn [fst].
  set (rb' := {| m_capacity := _ |}).
  assert (Hsize' : Size rb' = Size rb + w).
  { unfold Size, rb'; cbn [m_head m_tail].
    apply AvailableToRead_advance_head; [lia |]. fold (Size rb). lia. }
  assert (Hwf' : wf rb').
  { destruct Hwf as (k & Hk & Hcapk & Hmask & Hlen & Hsz).
    exists k. unfold rb' at 1 2 3; cbn [m_capacity m_mask m_buffer].
    rewrite length_copy_in. repeat split; try done; lia. }
  split; [done |].
  apply (list_eq_same_length _ _ (Z.to_nat (Size rb') )).
  { rewrite length_app, length_contents, length_take. lia. }
  { apply length_contents. }
  intros i x y Hi Hx Hy.
  rewrite (lookup_contents rb' i Hwf' Hi) in Hx.
  unfold rb' in Hx; cbn [m_buffer m_tail m_capacity] in Hx.
  destruct (Z_lt_ge_dec (Z.of_nat i) (Size rb)) as [Hlt | Hge].
  - rewrite lookup_app_l in Hy by (rewrite length_contents; lia).
    rewrite (lookup_contents rb i Hwf) in Hy by lia.
    replace ((m_tail rb + Z.of_nat i) mod m_capacity rb)
      with ((m_head rb + (Z.of_nat i - Size rb + m_capacity rb)) mod m_capacity rb)
      in Hx, Hy.
    2:{ rewrite <- Zplus_mod_idemp_l, (wf_head_index rb Hwf), Zplus_mod_idemp_l.
        rewrite <- (Z.mod_add (m_tail rb + Z.of_nat i) 1 (m_capacity rb)) by lia.
        f_equal. lia. }
    rewrite (lookup_copy_in rb) in Hx by (done || lia).
    destruct (Z.ltb_spec (Z.of_nat i - Size rb + m_capacity rb) w); [lia |].
    congruence.
  - rewrite lookup_app_r in Hy by (rewrite length_contents; lia).
    rewrite length_contents in Hy.
    replace ((m_tail rb + Z.of_nat i) mod m_capacity rb)
      with ((m_head rb + (Z.of_nat i - Size rb)) mod m_capacity rb) in Hx.
    2:{ rewrite <- Zplus_mod_idemp_l, (wf_head_index rb Hwf), Zplus_mod_idemp_l.
        f_equal. lia. }
    rewrite (lookup_copy_in rb) in Hx by (done || lia).
    destruct (Z.ltb_spec (Z.of_nat i - Size rb) w); [| lia].
    rewrite lookup_take_lt in Hy by lia.
    replace (i - Z.to_nat (Size rb))%nat with (Z.to_nat (Z.of_nat i - Size rb))
      in Hy by lia.
    congruence.
Qed.

(** A write that fits is accepted whole. *)
Lemma Write_contents rb data :
  wf rb -> Z.of_nat (length data) <= Available rb ->
  wf (fst (Write rb data)) /\
  contents (fst (Write rb data)) = contents rb ++ data.
Proof.
  intros Hwf Hfit. destruct (Write_contents_take rb data Hwf) as [Hwf' Hc].
  split; [done |]. rewrite Hc. f_equal. apply take_ge. lia.
Qed.

(** A read hands back the oldest queued elements and leaves the rest. *)
Lemma Read_contents rb n :
  wf rb -> is_size_t n ->
  wf (fst (Read rb n)) /\
  contents rb = snd (Read rb n) ++ contents (fst (Read rb n)).
Proof.
  intros Hwf Hn.
  pose proof (wf_capacity_pos rb Hwf) as Hc.
  pose proof (wf_Size rb Hwf) as Hs.
  unfold Read. fold (Size rb).
  destruct (Z.eqb_spec (n `min` Size rb) 0) as [H0 | Hne]; [done |].
  cbn [fst snd].
  set (r := n `min` Size rb) in *.
  assert (Hr : 0 < r <= Size rb) by (unfold r, is_size_t in *; lia).
  set (rb' := {| m_capacity := _ |}).
  assert (Hsize' : Size rb' = Size rb - r).
  { unfold Size, rb'; cbn [m_head m_tail].
    apply AvailableToRead_advance_tail. fold (Size rb). lia. }
  assert (Hwf' : wf rb').
  { destruct Hwf as (k & Hk & Hcapk & Hmask & Hlen & Hsz).
    exists k. unfold rb' at 1 2 3; cbn [m_capacity m_mask m_buffer].
    repeat split; try done; lia. }
  split; [done |].
  assert (Hlo : length (copy_out rb (m_tail rb) r) = Z.to_nat r)
    by (apply length_copy_out; [done | lia]).
  apply (list_eq_same_length _ _ (Z.to_nat (Size rb))).
  { rewrite length_app, length_contents, Hlo. lia. }
  { apply length_contents. }
  intros i x y Hi Hx Hy.
  rewrite (lookup_contents rb i Hwf Hi) in Hx.
  destruct (Z_lt_ge_dec (Z.of_nat i) r) as [Hlt | Hge].
  - rewrite lookup_app_l in Hy by lia.
    rewrite lookup_copy_out in Hy by (done || lia). congruence.
  - rewrite lookup_app_r in Hy by lia.
    rewrite Hlo, (lookup_contents rb') in Hy by (done || lia).
    unfold rb' in Hy; cbn [m_buffer m_tail m_capacity] in Hy.
    replace ((size_t (m_tail rb + r) + Z.of_nat (i - Z.to_nat r)) mod m_capacity rb)
      with ((m_tail rb + Z.of_nat i) mod m_capacity rb) in Hy; [congruence |].
    symmetry.
    rewrite <- Zplus_mod_idemp_l, (size_t_mod_capacity rb _ Hwf), Zplus_mod_idemp_l.
    f_equal. lia.
Qed.

(** Everything submitted so far is what was received followed by what is
    still queued. *)
Lemma io_run_inv (cs : list (io T)) rb lg :
  wf rb -> io_fits rb cs ->
  submitted lg = received lg ++ contents rb ->
  let st := fold_left io_step cs (rb, lg) in
  wf (fst st) /\ submitted (snd st) = received (snd st) ++ contents (fst st).
Proof.
  revert rb lg. induction cs as [| c cs IH]; intros rb lg Hwf Hfits Hinv; [done |].
  destruct c as [data | n]; cbn [fold_left io_step]; destruct Hfits as [Hc Hfits].
  - destruct (Write_contents rb data Hwf Hc) as [Hwf' Hcont].
    apply IH; [done | done |]. cbn [submitted received].
    by rewrite Hinv, Hcont, app_assoc.
  - destruct (Read_contents rb n Hwf Hc) as [Hwf' Hcont].
    destruct (Read rb n) as [rb' out] eqn:HR. cbn [fst snd] in *.
    apply IH; [done | done |]. cbn [submitted received].
    by rewrite Hinv, Hcont, app_assoc.
Qed.

(** C4.  In every run of Write and Read calls in which no write exceeds the
    free capacity, the elements handed back by the reads are, in order, a
    prefix of the elements submitted to the writes; once the buffer is drained
    the two sequences are equal. *)
Theorem fifo_order (capacity : Z) (cs : list (io T)) :
  0 <= capacity <= 2 ^ 63 ->
  io_fits (create capacity) cs ->
  let st := io_run (create capacity) cs in
  received (snd st) `prefix_of` submitted (snd st) /\
  (Size (fst st) = 0 -> received (snd st) = submitted (snd st)).
Proof.
  intros Hcap Hfits st.
  destruct (io_run_inv cs (create capacity) {| submitted := []; received := [] |}
              (wf_create capacity Hcap) Hfits eq_refl) as [Hwf Hinv].
  fold (io_run (create capacity) cs) in Hwf, Hinv. fold st in Hwf, Hinv.
  split.
  - by exists (contents (fst st)).
  - intros Hz. rewrite Hinv.
    assert (contents (fst st) = []) as ->; [| by rewrite app_nil_r].
    apply nil_length_inv. rewrite length_contents, Hz. done.
Qed.

End Contents.

Lemma fifo_order_witness :
  let st := io_run (create (T:=Z) 4)
              [IoWrite [1; 2; 3]; IoRead 2; IoWrite [4; 5]; IoRead 5] in
  received (snd st) `prefix_of` submitted (snd st) /\
  (Size (fst st) = 0 -> received (snd st) = submitted (snd st)).
Proof.
  apply fifo_order.
  - lia.
  - vm_compute. repeat split; discriminate.
Defined.

(** The second write above wraps around the end of the four-slot storage. *)
Example fifo_wraps :
  let st := io_run (create (T:=Z) 4)
              [IoWrite [1; 2; 3]; IoRead 2; IoWrite [4; 5]; IoRead 5] in
  m_buffer (fst st) = [5; 2; 3; 4] /\ received (snd st) = [1; 2; 3; 4; 5].
Proof. by vm_compute. Qed.

(** A write that does not fit is cut short: the tail of [data] is not queued. *)
Example write_partial :
  let '(rb, accepted) := Write (create (T:=Z) 4) [1; 2; 3; 4; 5] in
  accepted = 3 /\ contents rb = [1; 2; 3] /\ Available rb = 0.
Proof. by vm_compute. Qed.

(** *** The consumer's calls and partial writes *)

Section Queue.
Context {T : Type} `{!Inhabited T}.
Implicit Types (rb : t T) (data : list T).

Lemma length_Read rb n :
  wf rb -> is_size_t n ->
  length (snd (Read rb n)) = Z.to_nat (Z.min n (Size rb)).
Proof.
  intros Hwf Hn.
  pose proof (wf_Size rb Hwf) as Hs.
  unfold Read. fold (Size rb).
  destruct (Z.eqb_spec (n `min` Size rb) 0) as [H0 | Hne]; cbn [snd].
  - by rewrite H0.
  - apply length_copy_out; [done |]. unfold is_size_t in Hn. lia.
Qed.

Lemma Read_take rb n :
  wf rb -> is_size_t n ->
  snd (Read rb n) = take (Z.to_nat n) (contents rb) /\
  contents (fst (Read rb n)) = drop (Z.to_nat n) (contents rb).
Proof.
  intros Hwf Hn.
  destruct (Read_contents rb n Hwf Hn) as [_ Hc].
  pose proof (length_Read rb n Hwf Hn) as Hlen.
  pose proof (wf_Size rb Hwf) as Hs.
  pose proof (length_contents rb) as Hlc.
  destruct (Z_le_gt_dec n (Size rb)) as [Hle | Hgt].
  - rewrite Z.min_l in Hlen by done. rewrite Hc.
    by rewrite take_app_length', drop_app_length'.
  - rewrite Z.min_r in Hlen by lia.
    assert (Hnil : contents (fst (Read rb n)) = []).
    { apply nil_length_inv. rewrite Hc, length_app in Hlc. lia. }
    rewrite Hnil, app_nil_r in Hc. rewrite Hnil, <- Hc. split.
    + symmetry. apply take_ge. lia.
    + symmetry. apply drop_ge. lia.
Qed.

(** X1.  [Peek] hands back the oldest queued elements, at most [maxLength] of
    them, and they are the elements the next [Read] of the same length would
    return. *)
Theorem Peek_oldest (rb : t T) (maxLength : Z) :
  wf rb -> is_size_t maxLength ->
  Peek rb maxLength = take (Z.to_nat maxLength) (contents rb) /\
  Peek rb maxLength = snd (Read rb maxLength).
Proof.
  intros Hwf Hn.
  assert (HP : Peek rb maxLength = snd (Read rb maxLength)).
  { unfold Peek, Read.
    by destruct (maxLength `min` AvailableToRead (m_head rb) (m_tail rb) =? 0). }
  split; [| done]. rewrite HP. by apply Read_take.
Qed.

(** X2.  [Read] returns the oldest queued elements, at most [maxLength] of
    them and [Size()] at the most, and the queue keeps the rest in order. *)
Theorem Read_oldest (rb : t T) (maxLength : Z) :
  wf rb -> is_size_t maxLength ->
  snd (Read rb maxLength) = take (Z.to_nat maxLength) (contents rb) /\
  contents (fst (Read rb maxLength)) = drop (Z.to_nat maxLength) (contents rb) /\
  Z.of_nat (length (snd (Read rb maxLength))) = Z.min maxLength (Size rb) /\
  wf (fst (Read rb maxLength)).
Proof.
  intros Hwf Hn.
  destruct (Read_take rb maxLength Hwf Hn) as [Hout Hrest].
  destruct (Read_contents rb maxLength Hwf Hn) as [Hwf' _].
  pose proof (wf_Size rb Hwf) as Hs.
  repeat split; try done.
  rewrite length_Read by done. unfold is_size_t in Hn. lia.
Qed.

(** X3.  [Skip] discards the oldest queued elements, as many as asked for or
    all of them, and returns how many it discarded. *)
Theorem Skip_drops (rb : t T) (count : Z) :
  wf rb -> is_size_t count ->
  contents (fst (Skip rb count)) = drop (Z.to_nat count) (contents rb) /\
  snd (Skip rb count) = Z.min count (Size rb) /\
  wf (fst (Skip rb count)).
Proof.
  intros Hwf Hn.
  pose proof (wf_Size rb Hwf) as Hs.
  assert (HS : fst (Skip rb count) = fst (Read rb count)).
  { unfold Skip, Read. fold (Size rb). cbn [fst].
    destruct (Z.eqb_spec (count `min` Size rb) 0) as [-> | Hne]; [done |].
    destruct (Z.ltb_spec 0 (count `min` Size rb)); [done |].
    unfold is_size_t in Hn. lia. }
  rewrite HS.
  destruct (Read_take rb count Hwf Hn) as [_ Hrest].
  destruct (Read_contents rb count Hwf Hn) as [Hwf' _].
  done.
Qed.

(** X4.  [Clear] empties the queue: nothing is left to read and the whole
    usable capacity is free again. *)
Theorem Clear_empties (rb : t T) :
  wf rb ->
  contents (Clear rb) = [] /\ Size (Clear rb) = 0 /\ IsEmpty (Clear rb) = true /\
  Available (Clear rb) = Capacity rb /\ wf (Clear rb).
Proof.
  intros Hwf.
  assert (Hsz : Size (Clear rb) = 0) by done.
  assert (Hwf' : wf (Clear rb)).
  { destruct Hwf as (k & Hk & Hcapk & Hmask & Hlen & Hs).
    exists k. rewrite Hsz. cbn [Clear m_capacity m_mask m_buffer].
    repeat split; try done; try lia. }
  split; [apply nil_length_inv; by rewrite length_contents, Hsz |].
  split; [done |].
  split; [unfold IsEmpty; by rewrite Hsz |].
  split; [| done].
  destruct (wf_bounded _ Hwf') as [Hb _].
  rewrite (Available_eq _ Hb), Hsz. unfold Capacity. cbn [Clear m_capacity]. lia.
Qed.

(** X5.  [Write] accepts the longest prefix of the data that fits: it returns
    min(length, Available()), appends exactly that many elements behind the
    queued ones, and a full buffer is left as it was. *)
Theorem Write_accepts_prefix (rb : t T) (data : list T) :
  wf rb ->
  snd (Write rb data) = Z.min (Z.of_nat (length data)) (Available rb) /\
  contents (fst (Write rb data)) =
    contents rb ++ take (Z.to_nat (snd (Write rb data))) data /\
  (IsFull rb = true -> Write rb data = (rb, 0)) /\
  wf (fst (Write rb data)).
Proof.
  intros Hwf.
  destruct (Write_contents_take rb data Hwf) as [Hwf' Hc].
  assert (Hn : snd (Write rb data) = Z.min (Z.of_nat (length data)) (Available rb)).
  { unfold Write. fold (Available rb).
    destruct (Z.eqb_spec (Z.of_nat (length data) `min` Available rb) 0) as [H0 | Hne];
      cbn [snd]; congruence. }
  repeat split; try done.
  - rewrite Hc, Hn. f_equal.
    destruct (Z_le_gt_dec (Z.of_nat (length data)) (Available rb)).
    + rewrite Z.min_l by done. rewrite !take_ge by lia. done.
    + rewrite Z.min_r by lia. done.
  - unfold IsFull. intros Hfull%Z.eqb_eq.
    unfold Write. fold (Available rb). rewrite Hfull.
    by destruct (Z.eqb_spec (Z.of_nat (length data) `min` 0) 0); [| lia].
Qed.

(** X6.  A buffer constructed for a request of 1 to 2^63 elements can hold
    one element less than the least power of two that is at least the
    request: never fewer than the request minus one, never as many as twice
    the request. *)
Theorem Capacity_create (capacity : Z) :
  1 <= capacity <= 2 ^ 63 ->
  Capacity (create (T:=T) capacity) = round_up_pow2 capacity - 1 /\
  capacity - 1 <= Capacity (create (T:=T) capacity) <= 2 * capacity - 2 /\
  Available (create (T:=T) capacity) = Capacity (create (T:=T) capacity).
Proof.
  intros Hcap.
  assert (Hwf : wf (create (T:=T) capacity)) by (apply wf_create; lia).
  destruct (wf_bounded _ Hwf) as [Hb HC].
  assert (Hm : m_capacity (create (T:=T) capacity) = round_up_pow2 capacity).
  { cbn [create m_capacity]. rewrite NextPowerOfTwo_spec by (unfold is_size_t; lia).
    apply size_t_small. unfold is_size_t, round_up_pow2.
    assert (Z.log2_up capacity <= 63).
    { apply Z.log2_up_le_pow2; lia. }
    pose proof (Z.log2_up_nonneg capacity).
    split; [lia |].
    apply Z.le_lt_trans with (2 ^ 63); [apply Z.pow_le_mono_r; lia | lia]. }
  rewrite HC, Hm.
  split; [done |]. split.
  - destruct (round_up_pow2_least capacity) as [Hle _]; [lia |].
    split; [lia |].
    destruct (Z.eq_dec capacity 1) as [-> | Hne]; [by vm_compute |].
    unfold round_up_pow2.
    destruct (Z.log2_up_spec capacity) as [Hlo _]; [lia |].
    assert (0 < Z.log2_up capacity) by (apply Z.log2_up_pos; lia).
    replace (Z.log2_up capacity) with (Z.succ (Z.pred (Z.log2_up capacity))) by lia.
    rewrite Z.pow_succ_r by lia. lia.
  - rewrite (Available_eq _ Hb), HC, Hm.
    assert (Size (create (T:=T) capacity) = 0) by done. lia.
Qed.

(** X7.  A request above 2^63 elements overflows the rounding: the capacity
    wraps to zero, no storage is allocated, and [Capacity()] still reports
    2^64 - 1 usable elements. *)
Theorem create_overflow (capacity : Z) :
  2 ^ 63 < capacity < 2 ^ 64 ->
  m_capacity (create (T:=T) capacity) = 0 /\
  m_buffer (create (T:=T) capacity) = [] /\
  Capacity (create (T:=T) capacity) = 2 ^ 64 - 1.
Proof.
  intros Hcap.
  assert (Hn : NextPowerOfTwo capacity = 0).
  { rewrite NextPowerOfTwo_spec by (unfold is_size_t; lia).
    unfold round_up_pow2.
    assert (Z.log2_up capacity = 64) as Heq.
    { apply Z.log2_up_unique; [lia |].
      replace (Z.pred 64) with 63 by done. lia. }
    rewrite Heq. by vm_compute. }
  unfold Capacity. cbn [create m_capacity m_buffer]. rewrite Hn.
  repeat split; try done.
Qed.

End Queue.

Lemma Peek_oldest_witness :
  let rb := fst (Write (create (T:=Z) 4) [1; 2; 3]) in
  Peek rb 2 = take (Z.to_nat 2) (contents rb) /\
  Peek rb 2 = snd (Read rb 2).
Proof.
  apply Peek_oldest.
  - exists 2. vm_compute. repeat split; discriminate.
  - unfold is_size_t. lia.
Defined.

Lemma Read_oldest_witness :
  let rb := fst (Write (create (T:=Z) 4) [1; 2; 3]) in
  snd (Read rb 2) = take (Z.to_nat 2) (contents rb) /\
  contents (fst (Read rb 2)) = drop (Z.to_nat 2) (contents rb) /\
  Z.of_nat (length (snd (Read rb 2))) = Z.min 2 (Size rb) /\
  wf (fst (Read rb 2)).
Proof.
  apply Read_oldest.
  - exists 2. vm_compute. repeat split; discriminate.
  - unfold is_size_t. lia.
Defined.

Lemma Skip_drops_witness :
  let rb := fst (Write (create (T:=Z) 4) [1; 2; 3]) in
  contents (fst (Skip rb 2)) = drop (Z.to_nat 2) (contents rb) /\
  snd (Skip rb 2) = Z.min 2 (Size rb) /\
  wf (fst (Skip rb 2)).
Proof.
  apply Skip_drops.
  - exists 2. vm_compute. repeat split; discriminate.
  - unfold is_size_t. lia.
Defined.

Lemma Clear_empties_witness :
  let rb := fst (Write (create (T:=Z) 4) [1; 2; 3]) in
  contents (Clear rb) = [] /\ Size (Clear rb) = 0 /\ IsEmpty (Clear rb) = true /\
  Available (Clear rb) = Capacity rb /\ wf (Clear rb).
Proof.
  apply Clear_empties.
  exists 2. vm_compute. repeat split; discriminate.
Defined.

Lemma Write_accepts_prefix_witness :
  let rb := fst (Write (create (T:=Z) 4) [1; 2]) in
  snd (Write rb [3; 4; 5]) = Z.min (Z.of_nat (length [3; 4; 5])) (Available rb) /\
  contents (fst (Write rb [3; 4; 5])) =
    contents rb ++ take (Z.to_nat (snd (Write rb [3; 4; 5]))) [3; 4; 5] /\
  (IsFull rb = true -> Write rb [3; 4; 5] = (rb, 0)) /\
  wf (fst (Write rb [3; 4; 5])).
Proof.
  apply Write_accepts_prefix.
  exists 2. vm_compute. repeat split; discriminate.
Defined.

Lemma Capacity_create_witness :
  Capacity (create (T:=Z) 65536) = round_up_pow2 65536 - 1 /\
  65536 - 1 <= Capacity (create (T:=Z) 65536) <= 2 * 65536 - 2 /\
  Available (create (T:=Z) 65536) = Capacity (create (T:=Z) 65536).
Proof.
  apply (Capacity_create 65536). lia.
Defined.

Lemma create_overflow_witness :
  m_capacity (create (T:=Z) (2 ^ 63 + 1)) = 0 /\
  m_buffer (create (T:=Z) (2 ^ 63 + 1)) = [] /\
  Capacity (create (T:=Z) (2 ^ 63 + 1)) = 2 ^ 64 - 1.
Proof.
  apply (create_overflow (2 ^ 63 + 1)). lia.
Defined.

End RingBufferFacts.

(** ** Terminal buffer: resize, out-of-range access, region text *)

Module TerminalBufferFacts.
Import Cxx TerminalBuffer.

(** *** The loops of [Resize] *)

Lemma length_CreateEmptyRow tb : length (CreateEmptyRow tb) = Z.to_nat (m_cols tb).
Proof. unfold CreateEmptyRow. by rewrite length_fmap, length_replicate. Qed.

Lemma iter_push_empty_row n tb :
  Nat.iter n push_empty_row tb =
  set_screen tb (m_screen tb ++ replicate n (CreateEmptyRow tb)).
Proof.
  induction n as [| n IH]; simpl.
  - rewrite app_nil_r. by destruct tb.
  - rewrite IH. unfold push_empty_row, set_screen; simpl.
    f_equal. rewrite <- app_assoc. f_equal.
    symmetry. apply replicate_S_end.
Qed.

Lemma evict_top_fields tb :
  m_screen (evict_top tb) = drop 1 (m_screen tb) /\
  m_rows (evict_top tb) = m_rows tb /\ m_cols (evict_top tb) = m_cols tb /\
  m_maxScrollback (evict_top tb) = m_maxScrollback tb /\
  m_dirty (evict_top tb) = m_dirty tb.
Proof. unfold evict_top. by destruct (m_screen tb) eqn:Hscr; rewrite ?Hscr. Qed.

Lemma iter_evict_top n tb :
  let tb' := Nat.iter n evict_top tb in
  m_screen tb' = drop n (m_screen tb) /\
  m_rows tb' = m_rows tb /\ m_cols tb' = m_cols tb /\
  m_maxScrollback tb' = m_maxScrollback tb /\ m_dirty tb' = m_dirty tb.
Proof.
  induction n as [| n IH]; [done |].
  cbn zeta in *. rewrite Nat.iter_succ.
  destruct IH as (Hs & Hr & Hc & Hm & Hd).
  destruct (evict_top_fields (Nat.iter n evict_top tb)) as (Hs' & -> & -> & -> & ->).
  repeat split; try done.
  rewrite Hs', Hs, drop_drop. f_equal. lia.
Qed.

Lemma MarkAllDirty_dirty tb dirty :
  m_dirty (MarkAllDirty (set_dirty tb dirty)) = replicate (length dirty) true.
Proof. done. Qed.

Lemma MarkAllDirty_screen tb dirty :
  m_screen (MarkAllDirty (set_dirty tb dirty)) = m_screen tb /\
  m_rows (MarkAllDirty (set_dirty tb dirty)) = m_rows tb /\
  m_cols (MarkAllDirty (set_dirty tb dirty)) = m_cols tb.
Proof. done. Qed.

(** The row phase of [Resize] leaves [rows] rows of the old width. *)
Lemma Resize_rows_phase tb rows :
  wf tb -> 0 < rows ->
  let tb' :=
    if m_rows tb <? rows
    then Nat.iter (Z.to_nat (rows - m_rows tb)) push_empty_row tb
    else TrimScrollback (Nat.iter (Z.to_nat (m_rows tb - rows)) evict_top tb) in
  Z.of_nat (length (m_screen tb')) = rows /\
  Forall (fun row : Row => Z.of_nat (length row) = m_cols tb) (m_screen tb') /\
  m_cols tb' = m_cols tb /\ m_dirty tb' = m_dirty tb.
Proof.
  intros (Hr & Hc & Hlen & Hall & Hd) Hrows.
  destruct (Z.ltb_spec (m_rows tb) rows) as [Hlt | Hge]; cbn zeta.
  - rewrite iter_push_empty_row. cbn [set_screen m_screen m_cols m_dirty].
    rewrite length_app, length_replicate. repeat split; try done; [lia |].
    apply Forall_app. split; [done |].
    apply Forall_replicate. rewrite length_CreateEmptyRow. lia.
  - destruct (iter_evict_top (Z.to_nat (m_rows tb - rows)) tb)
      as (Hs & _ & Hc' & _ & Hd').
    cbn [TrimScrollback m_screen m_cols m_dirty]. rewrite Hs, length_drop.
    repeat split; try done; [lia |].
    by apply Forall_drop.
Qed.

(** [Resize] is a row phase and a column phase followed by the refresh of
    the dirty bits; after the two phases the screen has its new shape. *)
Lemma Resize_phases tb rows cols :
  wf tb -> 0 < rows -> 0 < cols ->
  exists tb2,
    Resize tb rows cols =
      MarkAllDirty (set_dirty tb2 (resize (Z.to_nat (m_rows tb2)) true (m_dirty tb2))) /\
    m_rows tb2 = rows /\ m_cols tb2 = cols /\
    Z.of_nat (length (m_screen tb2)) = rows /\
    Forall (fun row : Row => Z.of_nat (length row) = cols) (m_screen tb2).
Proof.
  intros Hwf Hrows Hcols. unfold Resize.
  destruct (Z.leb_spec rows 0); [lia |]. destruct (Z.leb_spec cols 0); [lia |].
  cbn [orb].
  set (tb1 := if rows =? m_rows tb then tb else _).
  assert (H1 : m_rows tb1 = rows /\
               Z.of_nat (length (m_screen tb1)) = rows /\
               Forall (fun row : Row => Z.of_nat (length row) = m_cols tb1)
                      (m_screen tb1)).
  { unfold tb1. destruct (Z.eqb_spec rows (m_rows tb)) as [-> | Hne].
    - by destruct Hwf as (_ & _ & ? & ? & _).
    - destruct (Resize_rows_phase tb rows Hwf Hrows) as (Hl & Hall & Hc & _).
      cbn [m_rows m_screen m_cols]. rewrite Hc. done. }
  destruct H1 as (Hr1 & Hl1 & Hall1). clearbody tb1.
  eexists. split; [reflexivity |].
  destruct (Z.eqb_spec cols (m_cols tb1)) as [-> | Hne]; [done |].
  cbn [m_rows m_cols m_screen]. rewrite length_fmap. repeat split; try done.
  apply Forall_fmap, Forall_true. intros row; simpl.
  rewrite length_resize. lia.
Qed.

(** On a grid of [m_rows] rows of [m_cols] cells, [Resize(r, c)] with r > 0
    and c > 0 leaves exactly [r] rows of exactly [c] cells and a dirty bitmap
    of length [r] with every bit set. *)
Lemma Resize_shape (tb : t) (rows cols : Z) :
  wf tb -> 0 < rows -> 0 < cols ->
  let tb' := Resize tb rows cols in
  Z.of_nat (length (m_screen tb')) = rows /\
  Forall (fun row : Row => Z.of_nat (length row) = cols) (m_screen tb') /\
  Z.of_nat (length (m_dirty tb')) = rows /\
  Forall (fun bit : bool => bit = true) (m_dirty tb').
Proof.
  intros Hwf Hrows Hcols tb'.
  destruct (Resize_phases tb rows cols Hwf Hrows Hcols)
    as (tb2 & Heq & Hr & _ & Hlen & Hall).
  unfold tb'. rewrite Heq, MarkAllDirty_dirty.
  destruct (MarkAllDirty_screen tb2 (resize (Z.to_nat (m_rows tb2)) true (m_dirty tb2)))
    as (-> & _ & _).
  rewrite length_replicate, length_resize, Hr.
  repeat split; try done; [lia |].
  by apply Forall_replicate.
Qed.

(** The constructor establishes the invariant, and [Resize] keeps it. *)
Lemma create_wf config tb : create config = Ok tb -> wf tb.
Proof.
  unfold create.
  destruct (Z.leb_spec (cfg_rows config) 0); [done |].
  destruct (Z.leb_spec (cfg_cols config) 0); [done |].
  cbn [orb]. intros [= <-]. unfold wf; cbn [m_rows m_cols m_screen m_dirty].
  rewrite length_replicate, length_resize. repeat split; try lia.
  apply Forall_replicate. rewrite length_CreateEmptyRow. cbn [m_cols]. lia.
Qed.

Lemma Resize_wf tb rows cols : wf tb -> wf (Resize tb rows cols).
Proof.
  intros Hwf.
  destruct (Z_le_gt_dec rows 0) as [Hr | Hr].
  { unfold Resize. by destruct (Z.leb_spec rows 0); [| lia]. }
  destruct (Z_le_gt_dec cols 0) as [Hc | Hc].
  { unfold Resize. destruct (Z.leb_spec cols 0); [| lia]. by rewrite orb_true_r. }
  destruct (Resize_phases tb rows cols Hwf) as (tb2 & -> & Hr2 & Hc2 & Hlen & Hall);
    [lia | lia |].
  unfold wf.
  destruct (MarkAllDirty_screen tb2 (resize (Z.to_nat (m_rows tb2)) true (m_dirty tb2)))
    as (-> & -> & ->).
  rewrite MarkAllDirty_dirty, length_replicate, length_resize, Hr2, Hc2.
  repeat split; try done; lia.
Qed.

(** C6 at its failing input.  A 3x2 buffer scrolls its top row into the
    scrollback, is resized to four columns, which leaves the scrollback row
    at two cells, and scrolls the row back: the grid then has a row of two
    cells.  [Resize(5, 4)], which re-sizes the rows only when the number of
    columns changes, leaves that row at two cells. *)
Theorem Resize_keeps_short_row :
  exists tb0,
    create {| cfg_rows := 3; cfg_cols := 2; cfg_scrollbackLines := 5 |} = Ok tb0 /\
    let tb := Resize (ScrollDown (Resize (ScrollUp tb0) 3 4)) 5 4 in
    m_rows tb = 5 /\ m_cols tb = 4 /\
    length <$> m_screen tb = [2; 4; 4; 4; 4]%nat /\
    m_dirty tb = replicate 5 true.
Proof. eexists. split; [reflexivity |]. by vm_compute. Qed.

(** *** Out-of-range access *)

Lemma out_of_range_in_grid tb row col :
  out_of_range tb row col -> in_grid tb row col = false.
Proof.
  unfold out_of_range, in_grid. intros H.
  destruct (Z.leb_spec 0 row); destruct (Z.ltb_spec row (m_rows tb));
    destruct (Z.leb_spec 0 col); destruct (Z.ltb_spec col (m_cols tb));
    simpl; try done; lia.
Qed.

(** C7, as the code has it.  At a position outside the grid the const read
    returns the sentinel cell; [SetCell], [SetChar] and [ClearCell] leave the
    buffer as it is; [ClearRange] leaves it as it is when the row is outside,
    and only marks the row dirty when the row is inside and the column range
    holds no column of the grid; asking for a mutable cell reference throws
    [std::out_of_range]. *)
Theorem out_of_range_access (tb : t) (row col : Z) :
  out_of_range tb row col ->
  GetCell_const tb row col = s_emptyCell /\
  (forall cell, SetCell tb row col cell = tb) /\
  (forall code w, SetChar tb row col code w = tb) /\
  ClearCell tb row col = tb /\
  (row < 0 \/ m_rows tb <= row ->
   forall startCol endCol, ClearRange tb row startCol endCol = tb) /\
  (0 <= row < m_rows tb ->
   forall startCol endCol,
     Z.min (m_cols tb) endCol <= Z.max 0 startCol ->
     ClearRange tb row startCol endCol = MarkDirty tb row) /\
  (GetCell tb row col = Throw (out_of_range_row row) \/
   GetCell tb row col = Throw (out_of_range_col col)).
Proof.
  intros Hout. pose proof (out_of_range_in_grid tb row col Hout) as Hgrid.
  unfold SetCell, SetChar, ClearCell. rewrite Hgrid.
  repeat split; try done.
  - unfold GetCell_const, out_of_range in *.
    destruct (Z.ltb_spec row 0); destruct (Z.leb_spec (m_rows tb) row);
      destruct (Z.ltb_spec col 0); destruct (Z.leb_spec (m_cols tb) col);
      simpl; try done; lia.
  - intros Hrow startCol endCol. unfold ClearRange.
    destruct (Z.ltb_spec row 0); destruct (Z.leb_spec (m_rows tb) row);
      simpl; try done; lia.
  - intros Hrow startCol endCol Hempty. unfold ClearRange.
    destruct (Z.ltb_spec row 0); [lia |].
    destruct (Z.leb_spec (m_rows tb) row); [lia |]. cbn [orb].
    by rewrite seqZ_nil by lia.
  - unfold GetCell, ValidateRow, ValidateCol, out_of_range in *.
    destruct (Z.ltb_spec row 0); destruct (Z.leb_spec (m_rows tb) row);
      destruct (Z.ltb_spec col 0); destruct (Z.leb_spec (m_cols tb) col);
      simpl; auto; lia.
Qed.

Lemma out_of_range_access_witness :
  let tb := {| m_rows := 2; m_cols := 3; m_maxScrollback := 10;
               m_screen := replicate 2 (replicate 3 Cell_default);
               m_scrollback := []; m_dirty := [false; false] |} in
  GetCell_const tb 2 0 = s_emptyCell /\
  (forall cell, SetCell tb 2 0 cell = tb) /\
  (forall code w, SetChar tb 2 0 code w = tb) /\
  ClearCell tb 2 0 = tb /\
  (2 < 0 \/ m_rows tb <= 2 ->
   forall startCol endCol, ClearRange tb 2 startCol endCol = tb) /\
  (0 <= 2 < m_rows tb ->
   forall startCol endCol,
     Z.min (m_cols tb) endCol <= Z.max 0 startCol ->
     ClearRange tb 2 startCol endCol = MarkDirty tb 2) /\
  (GetCell tb 2 0 = Throw (out_of_range_row 2) \/
   GetCell tb 2 0 = Throw (out_of_range_col 0)).
Proof.
  apply out_of_range_access. unfold out_of_range; simpl. lia.
Defined.

(** C7 fails as stated: on a 2x3 buffer the mutable [GetCell(2, 0)] throws
    instead of doing nothing, and [ClearRange(0, 5, 9)], whose columns all lie
    outside the grid, sets the dirty bit of row 0. *)
Lemma mutable_access_not_silent :
  let tb := {| m_rows := 2; m_cols := 3; m_maxScrollback := 10;
               m_screen := replicate 2 (replicate 3 Cell_default);
               m_scrollback := []; m_dirty := [false; false] |} in
  out_of_range tb 2 0 /\
  GetCell tb 2 0 = Throw (out_of_range_row 2) /\
  out_of_range tb 0 5 /\ out_of_range tb 0 9 /\
  ClearRange tb 0 5 9 <> tb.
Proof.
  cbn zeta. unfold out_of_range; cbn [m_rows m_cols].
  repeat split; try lia; try done.
Qed.

(** *** Region text *)

Lemma join_lines_cons l rest :
  rest <> [] -> join_lines (l :: rest) = l ++ [10] ++ join_lines rest.
Proof. by destruct rest. Qed.

(** The row loop appends the texts of [count] consecutive rows, separated by
    newlines, when it stops at [endRow]. *)
Lemma region_loop_join tb startRow startCol endRow endCol count :
  forall row result,
    row + Z.of_nat count = endRow + 1 ->
    region_loop tb startRow startCol endRow endCol count row result =
    result ++ join_lines (GetRowText tb <$> seqZ row (Z.of_nat count)).
Proof.
  induction count as [| count IH]; intros row result Hend.
  - by rewrite app_nil_r.
  - cbn [region_loop].
    rewrite seqZ_cons by lia. rewrite fmap_cons.
    replace (Z.pred (Z.of_nat (S count))) with (Z.of_nat count) by lia.
    assert (Htext : (if negb (length (GetRowText tb row) =? 0)%nat
                     then result ++ GetRowText tb row else result) =
                    result ++ GetRowText tb row).
    { destruct (GetRowText tb row); [by rewrite app_nil_r | done]. }
    rewrite Htext. rewrite IH by lia.
    destruct count as [| count'].
    + destruct (Z.ltb_spec row endRow); [lia |]. simpl. by rewrite app_nil_r.
    + destruct (Z.ltb_spec row endRow); [| lia].
      rewrite join_lines_cons.
      * unfold Z.succ. by rewrite <- !app_assoc.
      * rewrite seqZ_cons by lia. done.
Qed.

(** C10.  [GetRegionText] does not depend on [startCol] and [endCol]: its
    result is the row texts of the rows from [startRow] to [endRow], each
    clamped to the screen, joined by newlines. *)
Theorem GetRegionText_whole_rows (tb : t) (startRow startCol endRow endCol : Z) :
  let first := clamp startRow 0 (m_rows tb - 1) in
  let last := clamp endRow 0 (m_rows tb - 1) in
  GetRegionText tb startRow startCol endRow endCol =
    join_lines (GetRowText tb <$> seqZ first (last - first + 1)) /\
  forall startCol' endCol',
    GetRegionText tb startRow startCol' endRow endCol' =
    GetRegionText tb startRow startCol endRow endCol.
Proof.
  intros first last.
  assert (Hjoin : forall sc ec,
    GetRegionText tb startRow sc endRow ec =
    join_lines (GetRowText tb <$> seqZ first (last - first + 1))).
  { intros sc ec. unfold GetRegionText. fold first last.
    destruct (Z_le_gt_dec first last) as [Hle | Hgt].
    - rewrite region_loop_join by lia.
      rewrite Z2Nat.id by lia. done.
    - replace (Z.to_nat (last - first + 1)) with 0%nat by lia.
      rewrite seqZ_nil by lia. done. }
  split; [apply Hjoin |].
  intros sc ec. by rewrite !Hjoin.
Qed.

(** A 2x3 screen holding "ab " and "c  ": the column arguments change nothing,
    trailing spaces are trimmed per row. *)
Example region_text_columns :
  let line (s : list Z) : Row :=
    (fun c => {| charCode := c; combining := [0; 0; 0];
                 fg := CellColor_Default; bg := CellColor_Default;
                 attrs := CellAttributes_default; width := 1 |}) <$> s in
  let tb := {| m_rows := 2; m_cols := 3; m_maxScrollback := 10;
               m_screen := [line [97; 98; 32]; line [99; 32; 32]];
               m_scrollback := []; m_dirty := [false; false] |} in
  GetRegionText tb 0 1 1 2 = [97; 98; 10; 99] /\
  GetRegionText tb 0 0 1 3 = [97; 98; 10; 99] /\
  GetRegionText tb (-4) 0 0 0 = [97; 98].
Proof. by vm_compute. Qed.

(** U+3042 is three bytes; its width-0 companion cell contributes nothing. *)
Example row_text_wide :
  let tb := {| m_rows := 1; m_cols := 2; m_maxScrollback := 0;
               m_screen := [[ {| charCode := 12354; combining := [0; 0; 0];
                                 fg := CellColor_Default; bg := CellColor_Default;
                                 attrs := CellAttributes_default; width := 2 |};
                              {| charCode := 32; combining := [0; 0; 0];
                                 fg := CellColor_Default; bg := CellColor_Default;
                                 attrs := CellAttributes_default; width := 0 |} ]];
               m_scrollback := []; m_dirty := [false] |} in
  GetRowText tb 0 = [227; 129; 130].
Proof. by vm_compute. Qed.

(** *** Dirty tracking *)

Lemma foldl_push_filter (f : Z -> bool) (l : list Z) (acc : list Z) :
  foldl (fun result row => if f row then result ++ [row] else result) acc l =
  acc ++ filter (fun row => f row = true) l.
Proof.
  revert acc. induction l as [| x l IH]; intros acc; cbn [foldl].
  - by rewrite app_nil_r.
  - rewrite IH, filter_cons. destruct (f x) eqn:Hx.
    + rewrite decide_True by done. by rewrite <- app_assoc.
    + by rewrite decide_False by done.
Qed.

Lemma filter_ext_Forall {A} (P1 P2 : A -> Prop)
    `{!forall x, Decision (P1 x), !forall x, Decision (P2 x)} (l : list A) :
  Forall (fun x => P1 x <-> P2 x) l -> filter P1 l = filter P2 l.
Proof.
  induction 1 as [| x l Hx _ IH]; [done |].
  rewrite !filter_cons, IH. destruct (decide (P1 x)), (decide (P2 x)); tauto.
Qed.

Lemma IsDirty_lookup tb row :
  0 <= row < m_rows tb -> IsDirty tb row = default false (m_dirty tb !! Z.to_nat row).
Proof.
  intros Hr. unfold IsDirty.
  destruct (Z.leb_spec 0 row); [| lia]. by destruct (Z.ltb_spec row (m_rows tb)); [| lia].
Qed.

Lemma IsDirty_range tb row : IsDirty tb row = true -> 0 <= row < m_rows tb.
Proof.
  unfold IsDirty.
  destruct (Z.leb_spec 0 row); [| done]. by destruct (Z.ltb_spec row (m_rows tb)).
Qed.

Lemma GetDirtyRows_filter tb :
  GetDirtyRows tb = filter (fun row => IsDirty tb row = true) (seqZ 0 (m_rows tb)).
Proof.
  unfold GetDirtyRows. rewrite foldl_push_filter. cbn [app].
  apply filter_ext_Forall. apply Forall_seqZ. intros row Hr.
  by rewrite IsDirty_lookup by lia.
Qed.

(** The dirty bits after the loop of [MarkDirtyRange]. *)
Lemma foldl_mark_dirty (l : list Z) tb :
  foldl (fun acc row => set_dirty acc (<[Z.to_nat row := true]> (m_dirty acc))) tb l =
  set_dirty tb (foldl (fun d row => <[Z.to_nat row := true]> d) (m_dirty tb) l).
Proof.
  revert tb. induction l as [| x l IH]; intros tb; cbn [foldl].
  - by destruct tb.
  - by rewrite IH.
Qed.

Lemma lookup_foldl_mark (l : list Z) (d : list bool) (i : nat) :
  foldl (fun d row => <[Z.to_nat row := true]> d) d l !! i =
  if bool_decide (i ∈ Z.to_nat <$> l) then (fun _ => true) <$> d !! i else d !! i.
Proof.
  revert d. induction l as [| x l IH]; intros d; cbn [foldl fmap list_fmap].
  - rewrite bool_decide_eq_false_2; [done |]. apply not_elem_of_nil.
  - rewrite IH. destruct (decide (i = Z.to_nat x)) as [-> | Hne].
    + rewrite (bool_decide_eq_true_2 (_ ∈ _ :: _)) by left.
      destruct (decide (Z.to_nat x < length d)%nat) as [Hlt | Hge].
      * rewrite list_lookup_insert_eq by done.
        destruct (lookup_lt_is_Some_2 d _ Hlt) as [b ->]. by case_bool_decide.
      * rewrite list_insert_ge by lia. rewrite (lookup_ge_None_2 d) by lia.
        by case_bool_decide.
    + rewrite list_lookup_insert_ne by done.
      apply (f_equal (fun b : bool => if b then _ else _)).
      apply bool_decide_ext. rewrite elem_of_cons. tauto.
Qed.

Lemma length_foldl_mark (l : list Z) (d : list bool) :
  length (foldl (fun d row => <[Z.to_nat row := true]> d) d l) = length d.
Proof.
  revert d. induction l as [| x l IH]; intros d; cbn [foldl]; [done |].
  by rewrite IH, length_insert.
Qed.

Lemma MarkDirtyRange_fields tb a b :
  m_rows (MarkDirtyRange tb a b) = m_rows tb /\
  m_cols (MarkDirtyRange tb a b) = m_cols tb /\
  m_maxScrollback (MarkDirtyRange tb a b) = m_maxScrollback tb /\
  m_screen (MarkDirtyRange tb a b) = m_screen tb /\
  m_scrollback (MarkDirtyRange tb a b) = m_scrollback tb /\
  length (m_dirty (MarkDirtyRange tb a b)) = length (m_dirty tb).
Proof.
  unfold MarkDirtyRange. rewrite foldl_mark_dirty. cbn [set_dirty m_rows m_cols
    m_maxScrollback m_screen m_scrollback m_dirty].
  by rewrite length_foldl_mark.
Qed.

Lemma IsDirty_MarkDirtyRange tb a b row :
  Z.of_nat (length (m_dirty tb)) = m_rows tb ->
  IsDirty (MarkDirtyRange tb a b) row =
  (0 <=? row) && (row <? m_rows tb) && (a <=? row) && (row <? b) || IsDirty tb row.
Proof.
  intros Hlen.
  destruct (MarkDirtyRange_fields tb a b) as (Hr & _).
  destruct (decide (0 <= row < m_rows tb)) as [Hin | Hout].
  - rewrite !IsDirty_lookup by lia.
    unfold MarkDirtyRange. rewrite foldl_mark_dirty. cbn [set_dirty m_dirty].
    rewrite lookup_foldl_mark.
    destruct (Z.leb_spec 0 row); [| lia].
    destruct (Z.ltb_spec row (m_rows tb)); [| lia]. cbn [andb].
    destruct (lookup_lt_is_Some_2 (m_dirty tb) (Z.to_nat row)) as [bit Hbit]; [lia |].
    rewrite Hbit. cbn [fmap option_fmap option_map default].
    case_bool_decide as Hel.
    + apply list_elem_of_fmap in Hel as (x & Hx & Hel). apply elem_of_seqZ in Hel.
      assert (x = row) as -> by lia.
      destruct (Z.leb_spec a row); [| lia]. by destruct (Z.ltb_spec row b); [| lia].
    + destruct (Z.leb_spec a row); [| done]. destruct (Z.ltb_spec row b); [| done].
      exfalso. apply Hel. apply list_elem_of_fmap. exists row. split; [done |].
      apply elem_of_seqZ. lia.
  - unfold IsDirty. rewrite Hr.
    destruct (Z.leb_spec 0 row); [| done].
    by destruct (Z.ltb_spec row (m_rows tb)); [lia |].
Qed.

Lemma filter_none {A} (P : A -> Prop) `{!forall x, Decision (P x)} (l : list A) :
  Forall (fun x => ~ P x) l -> filter P l = [].
Proof.
  induction 1 as [| x l Hx _ IH]; [done |]. by rewrite filter_cons_False.
Qed.

Lemma filter_all {A} (P : A -> Prop) `{!forall x, Decision (P x)} (l : list A) :
  Forall P l -> filter P l = l.
Proof.
  induction 1 as [| x l Hx _ IH]; [done |]. by rewrite filter_cons_True, IH.
Qed.

Lemma existsb_replicate_false n : existsb (fun d : bool => d) (replicate n false) = false.
Proof. by induction n. Qed.

(** X8.  [GetDirtyRows] lists, in increasing order, exactly the rows for
    which [IsDirty] answers true; [HasDirty] tells whether there is one;
    after [ClearDirty] there is none and after [MarkAllDirty] every row is
    listed. *)
Theorem GetDirtyRows_IsDirty (tb : t) :
  Z.of_nat (length (m_dirty tb)) = m_rows tb ->
  GetDirtyRows tb = filter (fun row => IsDirty tb row = true) (seqZ 0 (m_rows tb)) /\
  (HasDirty tb = true <-> exists row, IsDirty tb row = true) /\
  GetDirtyRows (ClearDirty tb) = [] /\ HasDirty (ClearDirty tb) = false /\
  GetDirtyRows (MarkAllDirty tb) = seqZ 0 (m_rows tb).
Proof.
  intros Hlen. split; [apply GetDirtyRows_filter |]. split; [| split; [| split]].
  - unfold HasDirty. rewrite existsb_exists. split.
    + intros (bit & Hin & ->).
      apply list_elem_of_In, list_elem_of_lookup in Hin as [i Hi].
      pose proof (lookup_lt_Some _ _ _ Hi) as Hlt.
      exists (Z.of_nat i). rewrite IsDirty_lookup by lia. by rewrite Nat2Z.id, Hi.
    + intros [row Hrow]. pose proof (IsDirty_range _ _ Hrow) as Hr.
      rewrite IsDirty_lookup in Hrow by done. exists true. split; [| done].
      apply list_elem_of_In, list_elem_of_lookup. exists (Z.to_nat row).
      by destruct (m_dirty tb !! Z.to_nat row) as [[] |].
  - rewrite GetDirtyRows_filter. apply filter_none, Forall_seqZ. intros row Hr.
    cbn [ClearDirty set_dirty m_rows] in *. rewrite IsDirty_lookup by done.
    cbn [ClearDirty set_dirty m_dirty].
    destruct (replicate (length (m_dirty tb)) false !! Z.to_nat row) as [bit |] eqn:Hb;
      [| done].
    apply lookup_replicate in Hb as [-> _]. done.
  - unfold HasDirty. cbn [ClearDirty set_dirty m_dirty]. apply existsb_replicate_false.
  - rewrite GetDirtyRows_filter. apply filter_all, Forall_seqZ. intros row Hr.
    cbn [MarkAllDirty set_dirty m_rows] in *. rewrite IsDirty_lookup by done.
    cbn [MarkAllDirty set_dirty m_dirty].
    rewrite lookup_replicate_2 by lia. done.
Qed.

Lemma IsDirty_MarkDirty tb r row :
  Z.of_nat (length (m_dirty tb)) = m_rows tb ->
  IsDirty (MarkDirty tb r) row =
  (0 <=? row) && (row <? m_rows tb) && (row =? r) || IsDirty tb row.
Proof.
  intros Hlen. unfold MarkDirty.
  destruct (Z.leb_spec 0 r); cbn [andb].
  2:{ unfold IsDirty. destruct (Z.leb_spec 0 row); [| done].
      destruct (Z.ltb_spec row (m_rows tb)); [| done].
      by destruct (Z.eqb_spec row r); [lia |]. }
  destruct (Z.ltb_spec r (m_rows tb)).
  2:{ unfold IsDirty. destruct (Z.leb_spec 0 row); [| done].
      destruct (Z.ltb_spec row (m_rows tb)); [| done].
      by destruct (Z.eqb_spec row r); [lia |]. }
  unfold IsDirty. cbn [set_dirty m_rows m_dirty].
  destruct (Z.leb_spec 0 row); [| done].
  destruct (Z.ltb_spec row (m_rows tb)); [| done]. cbn [andb].
  destruct (Z.eqb_spec row r) as [-> | Hne]; cbn [orb].
  - by rewrite list_lookup_insert_eq by lia.
  - rewrite list_lookup_insert_ne by lia. done.
Qed.

(** X9.  [MarkDirty] and [MarkDirtyRange] set the dirty bit of the rows they
    name that lie inside the grid, and leave every other bit as it was. *)
Theorem marking_is_monotone (tb : t) :
  Z.of_nat (length (m_dirty tb)) = m_rows tb ->
  (forall r row,
     IsDirty (MarkDirty tb r) row =
     (0 <=? row) && (row <? m_rows tb) && (row =? r) || IsDirty tb row) /\
  (forall startRow endRow row,
     IsDirty (MarkDirtyRange tb startRow endRow) row =
     (0 <=? row) && (row <? m_rows tb) && (startRow <=? row) && (row <? endRow)
     || IsDirty tb row).
Proof.
  intros Hlen. split.
  - intros r row. by apply IsDirty_MarkDirty.
  - intros a b row. by apply IsDirty_MarkDirtyRange.
Qed.

(** *** Writing and reading cells *)

Lemma update_cell_fields tb row col f :
  m_rows (update_cell tb row col f) = m_rows tb /\
  m_cols (update_cell tb row col f) = m_cols tb /\
  m_maxScrollback (update_cell tb row col f) = m_maxScrollback tb /\
  m_scrollback (update_cell tb row col f) = m_scrollback tb /\
  m_dirty (update_cell tb row col f) = m_dirty tb.
Proof. done. Qed.

Lemma wf_update_cell tb row col f : wf tb -> wf (update_cell tb row col f).
Proof.
  intros (Hr & Hc & Hlen & Hall & Hd). unfold wf.
  cbn [update_cell set_screen m_rows m_cols m_screen m_dirty].
  rewrite length_alter. repeat split; try done.
  apply Forall_alter; [done |]. intros cells _ Hcells. cbn beta.
  unfold Row in *. by rewrite length_alter.
Qed.

Lemma wf_MarkDirty tb row : wf tb -> wf (MarkDirty tb row).
Proof.
  intros (Hr & Hc & Hlen & Hall & Hd). unfold MarkDirty.
  destruct ((0 <=? row) && (row <? m_rows tb)); [| done].
  unfold wf. cbn [set_dirty m_rows m_cols m_screen m_dirty].
  by rewrite length_insert.
Qed.

Lemma wf_in_bounds tb : wf tb -> in_bounds tb.
Proof.
  intros (Hr & Hc & Hlen & Hall & Hd). split; [done |]. split; [| done].
  revert Hall. apply Forall_impl. intros row Hrow. cbn beta in *. lia.
Qed.

Lemma fmap_length_alter (F : list Cell -> list Cell) (i : nat) (l : list (list Cell)) :
  (forall cells, length (F cells) = length cells) ->
  length <$> alter F i l = length <$> l.
Proof.
  intros HF. apply list_eq. intros j. rewrite !list_lookup_fmap.
  destruct (decide (j = i)) as [-> | Hne].
  - rewrite list_lookup_alter_eq.
    destruct (l !! i) as [cells |]; simpl; [| done]. by rewrite HF.
  - by rewrite list_lookup_alter_ne.
Qed.

(** A buffer with the dimensions and the row lengths of another has its
    shape. *)
Lemma in_bounds_same_shape tb tb' :
  in_bounds tb -> m_rows tb' = m_rows tb -> m_cols tb' = m_cols tb ->
  length <$> m_screen tb' = length <$> m_screen tb ->
  length (m_dirty tb') = length (m_dirty tb) ->
  in_bounds tb'.
Proof.
  intros (Hlen & Hall & Hd) Hr Hc Hshape Hdl. unfold in_bounds.
  rewrite Hr, Hc, Hdl.
  split; [| split; [| done]].
  - pose proof (f_equal length Hshape) as Hl. rewrite !length_fmap in Hl.
    unfold Row in *. by rewrite Hl.
  - apply Forall_lookup_2. intros i row Hrow.
    assert (Hi : (length <$> m_screen tb') !! i = Some (length row))
      by (rewrite list_lookup_fmap; unfold Row in *; by rewrite Hrow).
    rewrite Hshape, list_lookup_fmap in Hi.
    apply fmap_Some in Hi as (row0 & Hrow0 & Hi).
    pose proof (Forall_lookup_1 _ _ _ _ Hall Hrow0) as H0. cbn beta in *. lia.
Qed.

Lemma length_dirty_MarkDirty tb row :
  length (m_dirty (MarkDirty tb row)) = length (m_dirty tb).
Proof.
  unfold MarkDirty. destruct ((0 <=? row) && (row <? m_rows tb)); [| done].
  cbn [set_dirty m_dirty]. by rewrite length_insert.
Qed.

Lemma cell_at_update_cell_in_bounds tb row col f r c :
  in_bounds tb -> in_grid tb row col = true -> 0 <= r -> 0 <= c ->
  cell_at (update_cell tb row col f) r c =
  if (r =? row) && (c =? col) then f (cell_at tb row col) else cell_at tb r c.
Proof.
  intros (Hlen & Hall & Hd) Hin Hr0 Hc0.
  unfold in_grid in Hin. apply andb_prop in Hin as [Hin Hin4].
  apply andb_prop in Hin as [Hin Hin3]. apply andb_prop in Hin as [Hin1 Hin2].
  apply Z.leb_le in Hin1, Hin3. apply Z.ltb_lt in Hin2, Hin4.
  unfold cell_at. cbn [update_cell set_screen m_screen].
  destruct (lookup_lt_is_Some_2 (m_screen tb) (Z.to_nat row)) as [cells Hcells]; [lia |].
  pose proof (Forall_lookup_1 _ _ _ _ Hall Hcells) as Hlc. cbn beta in Hlc.
  destruct (lookup_lt_is_Some_2 cells (Z.to_nat col)) as [cell Hcell]; [lia |].
  unfold Row in *.
  destruct (Z.eqb_spec r row) as [-> | Hne]; cbn [andb].
  - rewrite list_lookup_alter_eq, Hcells.
    cbn [fmap option_fmap option_map base.mbind option_bind].
    destruct (Z.eqb_spec c col) as [-> | Hnc].
    + by rewrite list_lookup_alter_eq, Hcell.
    + rewrite list_lookup_alter_ne by lia. done.
  - rewrite list_lookup_alter_ne by lia. done.
Qed.

Lemma cell_at_update_cell tb row col f r c :
  wf tb -> in_grid tb row col = true -> 0 <= r -> 0 <= c ->
  cell_at (update_cell tb row col f) r c =
  if (r =? row) && (c =? col) then f (cell_at tb row col) else cell_at tb r c.
Proof. intros Hwf. by apply cell_at_update_cell_in_bounds, wf_in_bounds. Qed.

Lemma GetCell_const_in_grid tb r c :
  GetCell_const tb r c = if in_grid tb r c then cell_at tb r c else s_emptyCell.
Proof.
  unfold GetCell_const, in_grid.
  destruct (Z.ltb_spec r 0), (Z.leb_spec 0 r); try lia; cbn [orb andb]; [done |].
  destruct (Z.leb_spec (m_rows tb) r), (Z.ltb_spec r (m_rows tb)); try lia;
    cbn [orb andb]; [done |].
  destruct (Z.ltb_spec c 0), (Z.leb_spec 0 c); try lia; cbn [orb andb]; [done |].
  by destruct (Z.leb_spec (m_cols tb) c), (Z.ltb_spec c (m_cols tb)); try lia.
Qed.

Lemma in_grid_range tb r c :
  in_grid tb r c = true <-> 0 <= r < m_rows tb /\ 0 <= c < m_cols tb.
Proof.
  unfold in_grid. rewrite !andb_true_iff, !Z.leb_le, !Z.ltb_lt. lia.
Qed.

Lemma MarkDirty_fields tb row :
  m_rows (MarkDirty tb row) = m_rows tb /\
  m_cols (MarkDirty tb row) = m_cols tb /\
  m_maxScrollback (MarkDirty tb row) = m_maxScrollback tb /\
  m_screen (MarkDirty tb row) = m_screen tb /\
  m_scrollback (MarkDirty tb row) = m_scrollback tb.
Proof. unfold MarkDirty. by destruct ((0 <=? row) && (row <? m_rows tb)). Qed.

Lemma GetCell_const_MarkDirty tb row r c :
  GetCell_const (MarkDirty tb row) r c = GetCell_const tb r c.
Proof.
  unfold GetCell_const, cell_at.
  by destruct (MarkDirty_fields tb row) as (-> & -> & _ & -> & _).
Qed.

Lemma GetCell_const_update_cell_in_bounds tb row col f r c :
  in_bounds tb -> in_grid tb row col = true ->
  GetCell_const (update_cell tb row col f) r c =
  if (r =? row) && (c =? col) then f (cell_at tb row col) else GetCell_const tb r c.
Proof.
  intros Hib Hin. rewrite !GetCell_const_in_grid.
  assert (Hg : in_grid (update_cell tb row col f) r c = in_grid tb r c) by done.
  rewrite Hg. destruct (in_grid tb r c) eqn:Hrc.
  - apply in_grid_range in Hrc.
    by rewrite cell_at_update_cell_in_bounds by (done || lia).
  - destruct (Z.eqb_spec r row) as [-> | ?]; [| done].
    destruct (Z.eqb_spec c col) as [-> | ?]; [| done]. congruence.
Qed.

Lemma GetCell_const_update_cell tb row col f r c :
  wf tb -> in_grid tb row col = true ->
  GetCell_const (update_cell tb row col f) r c =
  if (r =? row) && (c =? col) then f (cell_at tb row col) else GetCell_const tb r c.
Proof. intros Hwf. by apply GetCell_const_update_cell_in_bounds, wf_in_bounds. Qed.

(** X10.  On a grid in which every position exists (rows of at least
    [m_cols] cells, one dirty bit per row), a cell written with [SetCell]
    inside the grid is the cell read back at that position; every other
    position reads as before, the row written becomes dirty and no other
    dirty bit changes.  No row changes its length, so the grid keeps the
    shape it had. *)
Theorem SetCell_GetCell (tb : t) (row col : Z) (cell : Cell) :
  in_bounds tb -> in_grid tb row col = true ->
  let tb' := SetCell tb row col cell in
  (forall r c,
     GetCell_const tb' r c =
     if (r =? row) && (c =? col) then cell else GetCell_const tb r c) /\
  (forall r, IsDirty tb' r = (r =? row) || IsDirty tb r) /\
  m_scrollback tb' = m_scrollback tb /\
  length <$> m_screen tb' = length <$> m_screen tb /\
  in_bounds tb' /\ (wf tb -> wf tb').
Proof.
  intros Hib Hin tb'. unfold tb', SetCell. rewrite Hin.
  pose proof Hin as Hrange. apply in_grid_range in Hrange.
  pose proof Hib as (Hlen & Hall & Hd).
  set (tb1 := update_cell tb row col (fun _ => cell)).
  assert (Hshape : length <$> m_screen (MarkDirty tb1 row) = length <$> m_screen tb).
  { destruct (MarkDirty_fields tb1 row) as (_ & _ & _ & -> & _).
    unfold tb1. cbn [update_cell set_screen m_screen].
    apply fmap_length_alter. intros cells. apply length_alter. }
  split; [| split; [| split; [| split; [done | split]]]].
  - intros r c. rewrite GetCell_const_MarkDirty. unfold tb1.
    by rewrite GetCell_const_update_cell_in_bounds.
  - intros r. rewrite IsDirty_MarkDirty by done.
    unfold tb1. cbn [update_cell set_screen m_rows].
    destruct (Z.eqb_spec r row) as [-> | Hne]; [| by rewrite andb_false_r].
    destruct (Z.leb_spec 0 row); [| lia].
    by destruct (Z.ltb_spec row (m_rows tb)); [| lia].
  - by destruct (MarkDirty_fields tb1 row) as (_ & _ & _ & _ & ->).
  - destruct (MarkDirty_fields tb1 row) as (Hr1 & Hc1 & _).
    apply (in_bounds_same_shape tb); [done | done | done | done |].
    by rewrite length_dirty_MarkDirty.
  - intros Hwf. by apply wf_MarkDirty, wf_update_cell.
Qed.

(** *** The loops of [Scroll] *)

Lemma length_shift (g : Z -> Z) (l : list Z) (s : list Row) :
  length (foldl (fun scr row => <[Z.to_nat row := row_at scr (g row)]> scr) s l)
  = length s.
Proof.
  revert s. induction l as [| x l IH]; intros s; cbn [foldl]; [done |].
  by rewrite IH, length_insert.
Qed.

(** The inner loop of a scroll up: rows [top, top + k) take the row below. *)
Lemma lookup_shift_up (top : Z) (k : nat) (s : list Row) (i : nat) :
  0 <= top -> (Z.to_nat top + k < length s)%nat ->
  foldl (fun scr row => <[Z.to_nat row := row_at scr (row + 1)]> scr) s
        (seqZ top (Z.of_nat k)) !! i =
  if bool_decide (Z.to_nat top <= i < Z.to_nat top + k)%nat then s !! S i else s !! i.
Proof.
  intros Htop. revert i. induction k as [| k IH]; intros i Hlen.
  - cbn. by rewrite bool_decide_eq_false_2 by lia.
  - rewrite seqZ_S, foldl_app. cbn [foldl].
    set (r := foldl _ s (seqZ top (Z.of_nat k))) in *.
    assert (Hr : length r = length s) by apply length_shift.
    assert (Hrow : r !! S (Z.to_nat top + k) = s !! S (Z.to_nat top + k)).
    { rewrite IH by lia. by rewrite bool_decide_eq_false_2 by lia. }
    destruct (lookup_lt_is_Some_2 s (S (Z.to_nat top + k))) as [x Hx]; [lia |].
    unfold row_at.
    replace (Z.to_nat (top + Z.of_nat k + 1)) with (S (Z.to_nat top + k)) by lia.
    replace (Z.to_nat (top + Z.of_nat k)) with (Z.to_nat top + k)%nat by lia.
    unfold Row in *. rewrite Hrow, Hx. cbn [default from_option id].
    destruct (decide (i = Z.to_nat top + k)%nat) as [-> | Hne].
    + rewrite list_lookup_insert_eq by lia.
      by rewrite bool_decide_eq_true_2 by lia.
    + rewrite list_lookup_insert_ne by lia. rewrite IH by lia.
      repeat case_bool_decide; done || lia.
Qed.

(** The inner loop of a scroll down: rows (top, top + k] take the row above. *)
Lemma lookup_shift_down (top : Z) (k : nat) (s : list Row) (i : nat) :
  0 <= top -> (Z.to_nat top + k < length s)%nat ->
  foldl (fun scr row => <[Z.to_nat row := row_at scr (row - 1)]> scr) s
        (rev (seqZ (top + 1) (Z.of_nat k))) !! i =
  if bool_decide (Z.to_nat top < i <= Z.to_nat top + k)%nat then s !! pred i else s !! i.
Proof.
  intros Htop. revert s i. induction k as [| k IH]; intros s i Hlen.
  - cbn. by rewrite bool_decide_eq_false_2 by lia.
  - rewrite seqZ_S, rev_unit. cbn [foldl].
    destruct (lookup_lt_is_Some_2 s (Z.to_nat top + k)) as [x Hx]; [lia |].
    unfold row_at at 2.
    replace (Z.to_nat (top + 1 + Z.of_nat k - 1)) with (Z.to_nat top + k)%nat by lia.
    replace (Z.to_nat (top + 1 + Z.of_nat k)) with (S (Z.to_nat top + k)) by lia.
    unfold Row in *. rewrite Hx. cbn [default from_option id].
    rewrite IH by (rewrite length_insert; lia).
    case_bool_decide as Hin.
    + rewrite list_lookup_insert_ne by lia.
      by rewrite bool_decide_eq_true_2 by lia.
    + destruct (decide (i = S (Z.to_nat top + k))) as [-> | Hne].
      * rewrite list_lookup_insert_eq by lia.
        rewrite bool_decide_eq_true_2 by lia. done.
      * rewrite list_lookup_insert_ne by lia.
        by rewrite bool_decide_eq_false_2 by lia.
Qed.

Lemma scroll_up_once_spec tb top bottom :
  scrollable tb top bottom ->
  let tb' := scroll_up_once top bottom tb in
  m_rows tb' = m_rows tb /\ m_cols tb' = m_cols tb /\
  m_maxScrollback tb' = m_maxScrollback tb /\ m_dirty tb' = m_dirty tb /\
  length (m_screen tb') = length (m_screen tb) /\
  (forall i : nat,
     m_screen tb' !! i =
     if bool_decide (Z.to_nat top <= i < Z.to_nat bottom)%nat
     then if bool_decide (S i < Z.to_nat bottom)%nat
          then m_screen tb !! S i else Some (CreateEmptyRow tb)
     else m_screen tb !! i) /\
  m_scrollback tb' =
    (if top =? 0 then [row_at (m_screen tb) 0] else []) ++ m_scrollback tb.
Proof.
  intros (Ht & Hb & Hlen) tb'. unfold tb', scroll_up_once.
  cbn [m_rows m_cols m_maxScrollback m_dirty m_screen m_scrollback].
  repeat split.
  - by rewrite length_insert, length_shift.
  - intros i.
    replace (bottom - 1 - top) with (Z.of_nat (Z.to_nat (bottom - 1 - top))) by lia.
    destruct (decide (i = Z.to_nat (bottom - 1))) as [-> | Hne].
    + rewrite list_lookup_insert_eq by (rewrite length_shift; lia).
      rewrite bool_decide_eq_true_2 by lia.
      by rewrite bool_decide_eq_false_2 by lia.
    + rewrite list_lookup_insert_ne by done.
      rewrite lookup_shift_up by lia.
      repeat case_bool_decide; done || lia.
  - destruct (Z.eqb_spec top 0) as [-> | ?]; done.
Qed.

Lemma scroll_down_once_spec tb top bottom :
  scrollable tb top bottom ->
  let tb' := scroll_down_once top bottom tb in
  let fresh := if top =? 0 then default (CreateEmptyRow tb) (head (m_scrollback tb))
               else CreateEmptyRow tb in
  m_rows tb' = m_rows tb /\ m_cols tb' = m_cols tb /\
  m_maxScrollback tb' = m_maxScrollback tb /\ m_dirty tb' = m_dirty tb /\
  length (m_screen tb') = length (m_screen tb) /\
  (forall i : nat,
     m_screen tb' !! i =
     if bool_decide (Z.to_nat top <= i < Z.to_nat bottom)%nat
     then if bool_decide (Z.to_nat top < i)%nat
          then m_screen tb !! pred i else Some fresh
     else m_screen tb !! i) /\
  m_scrollback tb' = if top =? 0 then drop 1 (m_scrollback tb) else m_scrollback tb.
Proof.
  intros (Ht & Hb & Hlen) tb' fresh.
  assert (Hshift : forall i x,
    <[Z.to_nat top := x]>
      (foldl (fun scr row => <[Z.to_nat row := row_at scr (row - 1)]> scr) (m_screen tb)
         (rev (seqZ (top + 1) (bottom - 1 - top)))) !! i =
    if bool_decide (Z.to_nat top <= i < Z.to_nat bottom)%nat
    then if bool_decide (Z.to_nat top < i)%nat
         then m_screen tb !! pred i else Some x
    else m_screen tb !! i).
  { intros i x.
    replace (bottom - 1 - top) with (Z.of_nat (Z.to_nat (bottom - 1 - top))) by lia.
    destruct (decide (i = Z.to_nat top)) as [-> | Hne].
    + rewrite list_lookup_insert_eq by (rewrite length_shift; lia).
      rewrite bool_decide_eq_true_2 by lia.
      by rewrite bool_decide_eq_false_2 by lia.
    + rewrite list_lookup_insert_ne by done.
      rewrite lookup_shift_down by lia.
      repeat case_bool_decide; done || lia. }
  unfold tb', fresh, scroll_down_once.
  destruct (Z.eqb_spec top 0) as [-> | Hne].
  - destruct (m_scrollback tb) as [| front rest];
      cbn [m_rows m_cols m_maxScrollback m_dirty m_screen m_scrollback head default
           from_option id drop];
      repeat split; try done; try (by rewrite length_insert, length_shift).
  - cbn [m_rows m_cols m_maxScrollback m_dirty m_screen m_scrollback];
      repeat split; try done; try (by rewrite length_insert, length_shift).
Qed.

Lemma CreateEmptyRow_blank tb : CreateEmptyRow tb = blank_row (m_cols tb).
Proof. unfold CreateEmptyRow, blank_row. by rewrite fmap_replicate. Qed.

Lemma take_S_pad {A} (l : list A) (x : A) (k : nat) :
  take (S k) (l ++ replicate (S k) x) =
  take k (l ++ replicate k x) ++ [default x (l !! k)].
Proof.
  destruct (decide (k < length l)%nat) as [Hlt | Hge].
  - destruct (lookup_lt_is_Some_2 l k Hlt) as [y Hy].
    rewrite !take_app_le by lia. rewrite Hy. by apply take_S_r.
  - rewrite !take_app_ge by lia. rewrite !take_replicate.
    rewrite (lookup_ge_None_2 l k) by lia. cbn [default from_option id].
    replace ((S k - length l) `min` S k)%nat with (S (k - length l)) by lia.
    replace ((k - length l) `min` k)%nat with (k - length l)%nat by lia.
    by rewrite replicate_S_end, app_assoc.
Qed.

Lemma iter_scroll_up tb top bottom (k : nat) :
  scrollable tb top bottom ->
  let tbk := Nat.iter k (scroll_up_once top bottom) tb in
  m_rows tbk = m_rows tb /\ m_cols tbk = m_cols tb /\
  m_maxScrollback tbk = m_maxScrollback tb /\ m_dirty tbk = m_dirty tb /\
  length (m_screen tbk) = length (m_screen tb) /\
  (forall i : nat,
     m_screen tbk !! i =
     if bool_decide (Z.to_nat top <= i < Z.to_nat bottom)%nat
     then if bool_decide (i + k < Z.to_nat bottom)%nat
          then m_screen tb !! (i + k)%nat else Some (CreateEmptyRow tb)
     else m_screen tb !! i) /\
  m_scrollback tbk =
    (if top =? 0
     then rev (take k (take (Z.to_nat bottom) (m_screen tb)
                       ++ replicate k (CreateEmptyRow tb)))
     else []) ++ m_scrollback tb.
Proof.
  intros Hs. induction k as [| k IH]; intros tbk.
  - unfold tbk. cbn [Nat.iter]. repeat split; try done.
    + intros i. rewrite Nat.add_0_r.
      case_bool_decide; [| done]. by rewrite bool_decide_eq_true_2 by lia.
    + by destruct (top =? 0).
  - destruct IH as (Hr & Hc & Hm & Hd & Hlen & Hscr & Hsb).
    set (tb0 := Nat.iter k (scroll_up_once top bottom) tb) in *.
    assert (Hs0 : scrollable tb0 top bottom).
    { destruct Hs as (? & ? & ?). unfold scrollable. rewrite Hlen. done. }
    assert (He : CreateEmptyRow tb0 = CreateEmptyRow tb).
    { unfold CreateEmptyRow. by rewrite Hc. }
    destruct (scroll_up_once_spec tb0 top bottom Hs0)
      as (Hr' & Hc' & Hm' & Hd' & Hlen' & Hscr' & Hsb').
    unfold tbk. rewrite Nat.iter_succ. fold tb0.
    destruct Hs as (Ht & Hb & Hl).
    split; [exact (eq_trans Hr' Hr) |]. split; [exact (eq_trans Hc' Hc) |].
    split; [exact (eq_trans Hm' Hm) |]. split; [exact (eq_trans Hd' Hd) |].
    split; [exact (eq_trans Hlen' Hlen) |]. split.
    + intros i. rewrite Hscr', He.
      case_bool_decide as Hin; [| by rewrite Hscr, bool_decide_eq_false_2].
      case_bool_decide as Hlast.
      * rewrite Hscr. rewrite bool_decide_eq_true_2 by lia.
        replace (S i + k)%nat with (i + S k)%nat by lia. done.
      * by rewrite bool_decide_eq_false_2 by lia.
    + rewrite Hsb', Hsb. destruct (Z.eqb_spec top 0) as [-> | Hne]; [| done].
      rewrite take_S_pad, rev_unit. cbn [app]. f_equal.
      unfold row_at. change (Z.to_nat 0) with 0%nat. rewrite Hscr.
      rewrite bool_decide_eq_true_2 by lia.
      case_bool_decide as Hk.
      * destruct (lookup_lt_is_Some_2 (m_screen tb) k) as [y Hy]; [lia |].
        cbn [Nat.add]. rewrite lookup_take_lt by lia. by rewrite Hy.
      * rewrite lookup_take_ge by lia. done.
Qed.

Lemma iter_scroll_down tb top bottom (k : nat) :
  scrollable tb top bottom ->
  let tbk := Nat.iter k (scroll_down_once top bottom) tb in
  let fresh (j : nat) :=
    if top =? 0 then default (CreateEmptyRow tb) (m_scrollback tb !! j)
    else CreateEmptyRow tb in
  m_rows tbk = m_rows tb /\ m_cols tbk = m_cols tb /\
  m_maxScrollback tbk = m_maxScrollback tb /\ m_dirty tbk = m_dirty tb /\
  length (m_screen tbk) = length (m_screen tb) /\
  (forall i : nat,
     m_screen tbk !! i =
     if bool_decide (Z.to_nat top <= i < Z.to_nat bottom)%nat
     then if bool_decide (Z.to_nat top + k <= i)%nat
          then m_screen tb !! (i - k)%nat
          else Some (fresh (k - 1 - (i - Z.to_nat top))%nat)
     else m_screen tb !! i) /\
  m_scrollback tbk = if top =? 0 then drop k (m_scrollback tb) else m_scrollback tb.
Proof.
  intros Hs. induction k as [| k IH]; intros tbk fresh.
  - unfold tbk. cbn [Nat.iter]. repeat split; try done.
    + intros i. rewrite Nat.sub_0_r.
      case_bool_decide; [| done]. by rewrite bool_decide_eq_true_2 by lia.
    + by destruct (top =? 0).
  - destruct IH as (Hr & Hc & Hm & Hd & Hlen & Hscr & Hsb).
    set (tb0 := Nat.iter k (scroll_down_once top bottom) tb) in *.
    assert (Hs0 : scrollable tb0 top bottom).
    { destruct Hs as (? & ? & ?). unfold scrollable. rewrite Hlen. done. }
    assert (He : CreateEmptyRow tb0 = CreateEmptyRow tb).
    { unfold CreateEmptyRow. by rewrite Hc. }
    destruct (scroll_down_once_spec tb0 top bottom Hs0)
      as (Hr' & Hc' & Hm' & Hd' & Hlen' & Hscr' & Hsb').
    unfold tbk. rewrite Nat.iter_succ. fold tb0.
    destruct Hs as (Ht & Hb & Hl).
    split; [exact (eq_trans Hr' Hr) |]. split; [exact (eq_trans Hc' Hc) |].
    split; [exact (eq_trans Hm' Hm) |]. split; [exact (eq_trans Hd' Hd) |].
    split; [exact (eq_trans Hlen' Hlen) |]. split.
    + intros i. rewrite Hscr', He.
      case_bool_decide as Hin; [| by rewrite Hscr, bool_decide_eq_false_2].
      case_bool_decide as Hfirst.
      * rewrite Hscr. rewrite bool_decide_eq_true_2 by lia.
        case_bool_decide as Hold.
        -- rewrite bool_decide_eq_true_2 by lia. f_equal. lia.
        -- rewrite bool_decide_eq_false_2 by lia. unfold fresh.
           replace (S k - 1 - (i - Z.to_nat top))%nat
             with (k - 1 - (Init.Nat.pred i - Z.to_nat top))%nat by lia.
           done.
      * rewrite bool_decide_eq_false_2 by lia. f_equal. unfold fresh.
        destruct (Z.eqb_spec top 0) as [-> | Hne]; [| done].
        rewrite Hsb. rewrite head_lookup, lookup_drop.
        do 2 f_equal. lia.
    + rewrite Hsb', Hsb. destruct (Z.eqb_spec top 0) as [-> | Hne]; [| done].
      rewrite drop_drop. f_equal. lia.
Qed.

Lemma Scroll_region tb lines top bottom :
  lines <> 0 -> 0 <= top -> top + 1 < bottom <= m_rows tb ->
  Scroll tb lines top bottom = scroll_region tb lines top bottom.
Proof.
  intros Hl Ht Hb. unfold Scroll, clamp.
  destruct (Z.ltb_spec bottom 0); [lia |].
  destruct (Z.ltb_spec top 0); [lia |].
  destruct (Z.ltb_spec (m_rows tb - 1) top); [lia |].
  destruct (Z.ltb_spec bottom (top + 1)); [lia |].
  destruct (Z.ltb_spec (m_rows tb) bottom); [lia |].
  destruct (Z.eqb_spec lines 0); [lia |].
  by destruct (Z.leb_spec (bottom - 1) top); [lia |].
Qed.

Lemma wf_scrollable tb top bottom :
  wf tb -> 0 <= top -> top + 1 < bottom <= m_rows tb -> scrollable tb top bottom.
Proof. intros (_ & _ & Hlen & _) ? ?. unfold scrollable. lia. Qed.

Lemma row_at_lookup (s : list Row) (row : Z) : row_at s row = default [] (s !! Z.to_nat row).
Proof. done. Qed.

Lemma length_blank_row cols : length (blank_row cols) = Z.to_nat cols.
Proof. apply length_replicate. Qed.

(** The shape of a screen whose rows are, one by one, rows of a well-formed
    screen or rows of the grid's width. *)
Lemma wf_rows tb tb' :
  wf tb ->
  m_rows tb' = m_rows tb -> m_cols tb' = m_cols tb ->
  length (m_screen tb') = length (m_screen tb) ->
  length (m_dirty tb') = length (m_dirty tb) ->
  (forall i row, m_screen tb' !! i = Some row ->
     Z.of_nat (length row) = m_cols tb) ->
  wf tb'.
Proof.
  intros (Hr & Hc & Hlen & Hall & Hd) Hr' Hc' Hlen' Hd' Hrows.
  unfold wf. rewrite Hr', Hc', Hlen', Hd'. repeat split; try done.
  apply Forall_lookup_2. exact Hrows.
Qed.

(** X11.  [Scroll] by a positive number of lines moves the rows of the region
    up by that many rows and fills the bottom of the region with blank rows;
    rows outside the region stay.  When the region starts at the top of the
    screen the rows scrolled out, blank ones included once the region is
    exhausted, go to the front of the scrollback, newest first, and the
    scrollback is cut to its cap.  The rows of the region become dirty. *)
Theorem Scroll_up_region (tb : t) (lines top bottom : Z) :
  wf tb -> 0 < lines -> 0 <= top -> top + 1 < bottom <= m_rows tb ->
  let tb' := Scroll tb lines top bottom in
  let blank := blank_row (m_cols tb) in
  (forall row, 0 <= row < m_rows tb ->
     row_at (m_screen tb') row =
     if (top <=? row) && (row <? bottom)
     then if row + lines <? bottom then row_at (m_screen tb) (row + lines) else blank
     else row_at (m_screen tb) row) /\
  m_scrollback tb' =
    take (Z.to_nat (m_maxScrollback tb))
      ((if top =? 0
        then rev (take (Z.to_nat lines)
                    (take (Z.to_nat bottom) (m_screen tb)
                     ++ replicate (Z.to_nat lines) blank))
        else []) ++ m_scrollback tb) /\
  (forall row, IsDirty tb' row = (top <=? row) && (row <? bottom) || IsDirty tb row) /\
  wf tb'.
Proof.
  intros Hwf Hl Ht Hb tb' blank.
  pose proof (wf_scrollable tb top bottom Hwf Ht Hb) as Hs.
  destruct (iter_scroll_up tb top bottom (Z.to_nat lines) Hs)
    as (Hr & Hc & Hm & Hd & Hlen & Hscr & Hsb).
  set (tbk := Nat.iter (Z.to_nat lines) (scroll_up_once top bottom) tb) in *.
  assert (Htb' : tb' = MarkDirtyRange (TrimScrollback tbk) top bottom).
  { unfold tb'. rewrite Scroll_region by lia. unfold scroll_region.
    by destruct (Z.ltb_spec 0 lines); [| lia]. }
  destruct (MarkDirtyRange_fields (TrimScrollback tbk) top bottom)
    as (Hr' & Hc' & Hm' & Hscr' & Hsb' & Hd').
  rewrite <- Htb' in Hr', Hc', Hm', Hscr', Hsb', Hd'.
  cbn [TrimScrollback m_rows m_cols m_maxScrollback m_screen m_scrollback m_dirty]
    in Hr', Hc', Hm', Hscr', Hsb', Hd'.
  pose proof Hwf as (Hrows & Hcols & Hlens & Hall & Hdl).
  rewrite CreateEmptyRow_blank in Hscr, Hsb. fold blank in Hscr, Hsb.
  split; [| split; [| split]].
  - intros row Hrow. rewrite !row_at_lookup, Hscr', Hscr.
    destruct (Z.leb_spec top row), (Z.ltb_spec row bottom); cbn [andb];
      try (by rewrite bool_decide_eq_false_2 by lia).
    rewrite bool_decide_eq_true_2 by lia.
    destruct (Z.ltb_spec (row + lines) bottom).
    + rewrite bool_decide_eq_true_2 by lia.
      by replace (Z.to_nat (row + lines)) with (Z.to_nat row + Z.to_nat lines)%nat by lia.
    + by rewrite bool_decide_eq_false_2 by lia.
  - by rewrite Hsb', Hm, Hsb.
  - intros row. rewrite Htb', IsDirty_MarkDirtyRange
      by (cbn [TrimScrollback m_rows m_dirty]; rewrite Hd, Hr; done).
    cbn [TrimScrollback m_rows].
    assert (IsDirty (TrimScrollback tbk) row = IsDirty tb row) as ->.
    { unfold IsDirty. cbn [TrimScrollback m_rows m_dirty]. by rewrite Hr, Hd. }
    rewrite Hr.
    destruct (Z.leb_spec top row), (Z.ltb_spec row bottom),
      (Z.leb_spec 0 row), (Z.ltb_spec row (m_rows tb)); cbn [andb orb]; done || lia.
  - apply (wf_rows tb tb' Hwf).
    + by rewrite Hr'.
    + by rewrite Hc'.
    + rewrite Hscr'. exact Hlen.
    + by rewrite Hd', Hd.
    + intros i row. rewrite Hscr', Hscr. repeat case_bool_decide.
      * intros Hi. exact (Forall_lookup_1 _ _ _ _ Hall Hi).
      * intros [= <-]. unfold blank. rewrite length_blank_row. lia.
      * intros Hi. exact (Forall_lookup_1 _ _ _ _ Hall Hi).
Qed.

(** X12.  [Scroll] by a negative number of lines above [INT_MIN], whose
    negation is an [int], moves the rows of the region down and fills its
    top: when the region starts at the top of the screen the rows come back
    from the front of the scrollback, most recent lowest, and blank rows
    follow once the scrollback is used up; otherwise the new rows are blank.
    [restored j] is the row that entered [j] rounds before the last one. *)
Theorem Scroll_down_region (tb : t) (lines top bottom : Z) :
  wf tb -> INT_MIN < lines < 0 -> 0 <= top -> top + 1 < bottom <= m_rows tb ->
  let tb' := Scroll tb lines top bottom in
  let blank := blank_row (m_cols tb) in
  let restored (j : Z) :=
    if top =? 0 then default blank (m_scrollback tb !! Z.to_nat j) else blank in
  (forall row, 0 <= row < m_rows tb ->
     row_at (m_screen tb') row =
     if (top <=? row) && (row <? bottom)
     then if top - lines <=? row then row_at (m_screen tb) (row + lines)
          else restored (- lines - 1 - (row - top))
     else row_at (m_screen tb) row) /\
  m_scrollback tb' =
    (if top =? 0 then drop (Z.to_nat (- lines)) (m_scrollback tb)
     else m_scrollback tb) /\
  (forall row, IsDirty tb' row = (top <=? row) && (row <? bottom) || IsDirty tb row).
Proof.
  intros Hwf Hl Ht Hb tb' blank restored.
  pose proof (wf_scrollable tb top bottom Hwf Ht Hb) as Hs.
  assert (Hneg : neg_int lines = - lines).
  { unfold neg_int. by destruct (Z.eqb_spec lines INT_MIN); [lia |]. }
  destruct (iter_scroll_down tb top bottom (Z.to_nat (- lines)) Hs)
    as (Hr & Hc & Hm & Hd & Hlen & Hscr & Hsb).
  set (tbk := Nat.iter (Z.to_nat (- lines)) (scroll_down_once top bottom) tb) in *.
  assert (Htb' : tb' = MarkDirtyRange tbk top bottom).
  { unfold tb'. rewrite Scroll_region by lia. unfold scroll_region. rewrite Hneg.
    by destruct (Z.ltb_spec 0 lines); [lia |]. }
  destruct (MarkDirtyRange_fields tbk top bottom)
    as (Hr' & Hc' & Hm' & Hscr' & Hsb' & Hd').
  rewrite <- Htb' in Hr', Hc', Hm', Hscr', Hsb', Hd'.
  pose proof Hwf as (Hrows & Hcols & Hlens & Hall & Hdl).
  rewrite CreateEmptyRow_blank in Hscr. fold blank in Hscr.
  split; [| split].
  - intros row Hrow. rewrite !row_at_lookup, Hscr', Hscr.
    destruct (Z.leb_spec top row), (Z.ltb_spec row bottom); cbn [andb];
      try (by rewrite bool_decide_eq_false_2 by lia).
    rewrite bool_decide_eq_true_2 by lia.
    destruct (Z.leb_spec (top - lines) row).
    + rewrite bool_decide_eq_true_2 by lia.
      by replace (Z.to_nat (row + lines))
        with (Z.to_nat row - Z.to_nat (- lines))%nat by lia.
    + rewrite bool_decide_eq_false_2 by lia. cbn [default from_option id].
      unfold restored.
      by replace (Z.to_nat (- lines - 1 - (row - top)))
        with (Z.to_nat (- lines) - 1 - (Z.to_nat row - Z.to_nat top))%nat by lia.
  - by rewrite Hsb', Hsb.
  - intros row. rewrite Htb', IsDirty_MarkDirtyRange by (rewrite Hd, Hr; done).
    assert (IsDirty tbk row = IsDirty tb row) as ->.
    { unfold IsDirty. by rewrite Hr, Hd. }
    rewrite Hr.
    destruct (Z.leb_spec top row), (Z.ltb_spec row bottom),
      (Z.leb_spec 0 row), (Z.ltb_spec row (m_rows tb)); cbn [andb orb]; done || lia.
Qed.

(** *** What [Resize] keeps *)

Lemma iter_evict_top_scrollback n tb :
  m_scrollback (Nat.iter n evict_top tb) = rev (take n (m_screen tb)) ++ m_scrollback tb.
Proof.
  induction n as [| n IH]; [done |].
  rewrite Nat.iter_succ.
  destruct (iter_evict_top n tb) as (Hs & _). cbn zeta in Hs.
  set (X := Nat.iter n evict_top tb) in *.
  unfold evict_top. rewrite Hs.
  destruct (drop n (m_screen tb)) as [| top rest] eqn:Hdrop.
  - apply (f_equal length) in Hdrop. rewrite length_drop in Hdrop.
    cbn [length] in Hdrop.
    rewrite IH. by rewrite (take_ge _ (S n)), (take_ge _ n) by lia.
  - cbn [m_scrollback]. rewrite IH.
    assert (Hn : m_screen tb !! n = Some top).
    { rewrite <- (Nat.add_0_r n), <- lookup_drop, Hdrop. done. }
    rewrite (take_S_r _ _ _ Hn), rev_unit. done.
Qed.

Lemma fmap_resize_id {A} (n : nat) (x : A) (l : list (list A)) :
  Forall (fun row => length row = n) l -> resize n x <$> l = l.
Proof.
  induction 1 as [| row l Hrow _ IH]; [done |].
  cbn [fmap list_fmap]. rewrite resize_all_alt by done. f_equal. exact IH.
Qed.

Lemma Resize_state tb rows cols :
  wf tb -> 0 < rows -> 0 < cols ->
  let tb' := Resize tb rows cols in
  m_rows tb' = rows /\ m_cols tb' = cols /\
  m_maxScrollback tb' = m_maxScrollback tb /\
  m_screen tb' =
    resize (Z.to_nat cols) Cell_default <$>
      (drop (Z.to_nat (m_rows tb - rows)) (m_screen tb)
       ++ replicate (Z.to_nat (rows - m_rows tb)) (blank_row (m_cols tb))) /\
  m_scrollback tb' =
    if rows <? m_rows tb
    then take (Z.to_nat (m_maxScrollback tb))
           (rev (take (Z.to_nat (m_rows tb - rows)) (m_screen tb)) ++ m_scrollback tb)
    else m_scrollback tb.
Proof.
  intros Hwf Hrows Hcols. cbn zeta. unfold Resize.
  destruct (Z.leb_spec rows 0); [lia |]. destruct (Z.leb_spec cols 0); [lia |].
  cbn [orb].
  set (tb1 := if rows =? m_rows tb then tb else _).
  pose proof Hwf as (Hr & Hc & Hlen & Hall & Hd).
  assert (H1 : m_rows tb1 = rows /\ m_cols tb1 = m_cols tb /\
               m_maxScrollback tb1 = m_maxScrollback tb /\
               m_screen tb1 =
                 drop (Z.to_nat (m_rows tb - rows)) (m_screen tb)
                 ++ replicate (Z.to_nat (rows - m_rows tb)) (blank_row (m_cols tb)) /\
               m_scrollback tb1 =
                 if rows <? m_rows tb
                 then take (Z.to_nat (m_maxScrollback tb))
                        (rev (take (Z.to_nat (m_rows tb - rows)) (m_screen tb))
                         ++ m_scrollback tb)
                 else m_scrollback tb).
  { unfold tb1. destruct (Z.eqb_spec rows (m_rows tb)) as [-> | Hne].
    - rewrite Z.sub_diag, Z.ltb_irrefl. cbn [Z.to_nat drop replicate].
      by rewrite app_nil_r.
    - destruct (Z.ltb_spec (m_rows tb) rows) as [Hlt | Hge].
      + rewrite iter_push_empty_row.
        cbn [set_screen m_rows m_cols m_maxScrollback m_screen m_scrollback].
        destruct (Z.ltb_spec rows (m_rows tb)); [lia |].
        replace (Z.to_nat (m_rows tb - rows)) with 0%nat by lia.
        by rewrite CreateEmptyRow_blank.
      + destruct (iter_evict_top (Z.to_nat (m_rows tb - rows)) tb)
          as (Hs & _ & Hc' & Hm' & _).
        cbn [TrimScrollback m_rows m_cols m_maxScrollback m_screen m_scrollback].
        rewrite Hs, Hc', Hm', iter_evict_top_scrollback.
        destruct (Z.ltb_spec rows (m_rows tb)); [| lia].
        replace (Z.to_nat (rows - m_rows tb)) with 0%nat by lia.
        cbn [replicate]. by rewrite app_nil_r. }
  destruct H1 as (Hr1 & Hc1 & Hm1 & Hs1 & Hsb1). clearbody tb1.
  destruct (Z.eqb_spec cols (m_cols tb1)) as [Heq | Hne];
    cbn [MarkAllDirty set_dirty m_rows m_cols m_maxScrollback m_screen m_scrollback].
  - repeat split; try done; try congruence.
    rewrite <- Hs1. symmetry. apply fmap_resize_id.
    rewrite Hs1. apply Forall_app. split.
    + apply Forall_drop. eapply Forall_impl; [| exact Hall]. cbn beta. intros. lia.
    + apply Forall_replicate. rewrite length_blank_row. lia.
  - repeat split; try done. by rewrite Hs1.
Qed.

Lemma GetCell_const_cell_at tb r c :
  wf tb -> 0 <= r -> 0 <= c -> GetCell_const tb r c = cell_at tb r c.
Proof.
  intros (Hr & Hc & Hlen & Hall & Hd) Hr0 Hc0.
  rewrite GetCell_const_in_grid. destruct (in_grid tb r c) eqn:Hin; [done |].
  unfold cell_at, s_emptyCell.
  destruct (m_screen tb !! Z.to_nat r) as [row |] eqn:Hrow; [| done].
  cbn [base.mbind option_bind].
  pose proof (Forall_lookup_1 _ _ _ _ Hall Hrow) as Hl. cbn beta in Hl.
  pose proof (lookup_lt_Some _ _ _ Hrow) as Hlt. unfold Row in *.
  rewrite lookup_ge_None_2; [done |].
  destruct (decide (c < m_cols tb)) as [Hc1 | Hc1]; [| lia].
  exfalso. assert (in_grid tb r c = true); [| congruence].
  apply in_grid_range. lia.
Qed.

Lemma lookup_resize_default (row : list Cell) (n c : nat) :
  (c < n)%nat ->
  default Cell_default (resize n Cell_default row !! c) = default Cell_default (row !! c).
Proof.
  intros Hc. destruct (decide (c < length row)%nat).
  - by rewrite lookup_resize by lia.
  - rewrite lookup_resize_new by lia. by rewrite lookup_ge_None_2 by lia.
Qed.

(** X13.  On a grid of [m_rows] rows of [m_cols] cells, [Resize] keeps the
    cells it can: when rows are removed the grid keeps its bottom rows and
    the rows removed from the top go to the front of the scrollback, the last
    one removed first, cut to the cap; when rows are added they are blank
    rows at the bottom.  Every position of the new grid reads as the same
    column of the old row, or as a blank cell where the old grid had none. *)
Theorem Resize_content (tb : t) (rows cols : Z) :
  wf tb -> 0 < rows -> 0 < cols ->
  let tb' := Resize tb rows cols in
  let removed := Z.max 0 (m_rows tb - rows) in
  (forall r c,
     GetCell_const tb' r c =
     if (0 <=? r) && (r <? rows) && (0 <=? c) && (c <? cols)
     then GetCell_const tb (r + removed) c
     else s_emptyCell) /\
  m_scrollback tb' =
    take (Z.to_nat (if rows <? m_rows tb then m_maxScrollback tb
                    else Z.of_nat (length (m_scrollback tb))))
      (rev (take (Z.to_nat removed) (m_screen tb)) ++ m_scrollback tb) /\
  m_maxScrollback tb' = m_maxScrollback tb.
Proof.
  intros Hwf Hrows Hcols tb' removed.
  destruct (Resize_state tb rows cols Hwf Hrows Hcols) as (Hr' & Hc' & Hm' & Hs' & Hsb').
  fold tb' in Hr', Hc', Hm', Hs', Hsb'.
  pose proof Hwf as (Hr & Hc & Hlen & Hall & Hd).
  assert (Hrem : removed = Z.max 0 (m_rows tb - rows)) by done. clearbody removed.
  split; [| split; [| done]].
  - intros r c. rewrite GetCell_const_in_grid. unfold in_grid. rewrite Hr', Hc'.
    destruct ((0 <=? r) && (r <? rows) && (0 <=? c) && (c <? cols)) eqn:Hin; [| done].
    assert (Hrange : 0 <= r < rows /\ 0 <= c < cols).
    { rewrite !andb_true_iff, !Z.leb_le, !Z.ltb_lt in Hin. lia. }
    rewrite GetCell_const_cell_at by (done || lia).
    unfold cell_at. rewrite Hs', list_lookup_fmap.
    destruct (decide (r + removed < m_rows tb)) as [Hold | Hnew].
    + destruct (lookup_lt_is_Some_2 (m_screen tb) (Z.to_nat (r + removed)))
        as [row Hrow]; [lia |].
      unfold Row in *.
      rewrite lookup_app_l by (rewrite length_drop; lia).
      rewrite lookup_drop.
      replace (Z.to_nat (m_rows tb - rows) + Z.to_nat r)%nat
        with (Z.to_nat (r + removed)) by lia.
      rewrite Hrow. cbn [fmap option_fmap option_map base.mbind option_bind].
      apply lookup_resize_default. lia.
    + unfold Row in *.
      rewrite lookup_app_r by (rewrite length_drop; lia).
      rewrite lookup_replicate_2 by (rewrite length_drop; lia).
      cbn [fmap option_fmap option_map base.mbind option_bind].
      rewrite (lookup_ge_None_2 (m_screen tb)) by (unfold Row in *; lia).
      cbn [base.mbind option_bind default from_option id].
      unfold blank_row. rewrite resize_replicate.
      by rewrite lookup_replicate_2 by lia.
  - rewrite Hsb', Hrem.
    destruct (Z.ltb_spec rows (m_rows tb)).
    + by rewrite Z.max_r by lia.
    + rewrite Z.max_l by lia. change (Z.to_nat 0) with 0%nat.
      rewrite take_0. cbn [rev app].
      rewrite Nat2Z.id. by rewrite take_ge by (unfold Row; lia).
Qed.

(** X14.  On a grid of at least two rows with room for at least one
    scrollback row, [ScrollUp] puts the top row at the front of the scrollback
    and [ScrollDown] brings it back: the screen after the two calls is the
    screen before them.  The scrollback is as before, except that its oldest
    row is lost when it was full. *)
Theorem ScrollUp_ScrollDown (tb : t) :
  wf tb -> 2 <= m_rows tb -> 1 <= m_maxScrollback tb ->
  m_screen (ScrollUp tb) = drop 1 (m_screen tb) ++ [blank_row (m_cols tb)] /\
  m_scrollback (ScrollUp tb) =
    take (Z.to_nat (m_maxScrollback tb)) (row_at (m_screen tb) 0 :: m_scrollback tb) /\
  m_screen (ScrollDown (ScrollUp tb)) = m_screen tb /\
  m_scrollback (ScrollDown (ScrollUp tb)) =
    take (Z.to_nat (m_maxScrollback tb - 1)) (m_scrollback tb).
Proof.
  intros Hwf Hrows Hmax.
  pose proof Hwf as (Hr & Hc & Hlen & Hall & Hd).
  assert (Hs : scrollable tb 0 (m_rows tb)) by (apply wf_scrollable; done || lia).
  destruct (scroll_up_once_spec tb 0 (m_rows tb) Hs)
    as (Hr1 & Hc1 & Hm1 & Hd1 & Hlen1 & Hscr1 & Hsb1).
  set (tb1 := scroll_up_once 0 (m_rows tb) tb) in *.
  assert (HU : ScrollUp tb = MarkDirtyRange (TrimScrollback tb1) 0 (m_rows tb)).
  { unfold ScrollUp. by rewrite Scroll_region by lia. }
  destruct (MarkDirtyRange_fields (TrimScrollback tb1) 0 (m_rows tb))
    as (HrU & HcU & HmU & HscrU & HsbU & HdU).
  rewrite <- HU in HrU, HcU, HmU, HscrU, HsbU, HdU.
  cbn [TrimScrollback m_rows m_cols m_maxScrollback m_screen m_scrollback m_dirty]
    in HrU, HcU, HmU, HscrU, HsbU, HdU.
  rewrite CreateEmptyRow_blank in Hscr1.
  change (0 =? 0) with true in Hsb1. cbn [app] in Hsb1.
  assert (HsbU' : m_scrollback (ScrollUp tb) =
            row_at (m_screen tb) 0
            :: take (Z.to_nat (m_maxScrollback tb - 1)) (m_scrollback tb)).
  { rewrite HsbU, Hsb1, Hm1.
    replace (Z.to_nat (m_maxScrollback tb))
      with (S (Z.to_nat (m_maxScrollback tb - 1))) by lia.
    done. }
  assert (HsU : scrollable (ScrollUp tb) 0 (m_rows tb)).
  { unfold scrollable. rewrite HscrU. destruct Hs as (? & ? & ?). lia. }
  destruct (scroll_down_once_spec (ScrollUp tb) 0 (m_rows tb) HsU)
    as (Hr2 & Hc2 & Hm2 & Hd2 & Hlen2 & Hscr2 & Hsb2).
  set (tb2 := scroll_down_once 0 (m_rows tb) (ScrollUp tb)) in *.
  assert (HD : ScrollDown (ScrollUp tb) = MarkDirtyRange tb2 0 (m_rows tb)).
  { unfold ScrollDown. rewrite HrU, Hr1. by rewrite Scroll_region by lia. }
  destruct (MarkDirtyRange_fields tb2 0 (m_rows tb))
    as (HrD & HcD & HmD & HscrD & HsbD & HdD).
  rewrite <- HD in HrD, HcD, HmD, HscrD, HsbD, HdD.
  change (0 =? 0) with true in Hscr2, Hsb2. rewrite HsbU' in Hscr2, Hsb2.
  cbn [head default from_option id drop] in Hscr2, Hsb2.
  split; [| split; [| split]].
  - rewrite HscrU. apply list_eq. intros i. rewrite Hscr1.
    change (Z.to_nat 0) with 0%nat.
    destruct (decide (S i < length (m_screen tb))%nat) as [Hi | Hi].
    + rewrite !bool_decide_eq_true_2 by lia.
      rewrite lookup_app_l by (rewrite length_drop; lia).
      by rewrite lookup_drop.
    + destruct (decide (S i = length (m_screen tb))) as [Hlast | Hout].
      * rewrite bool_decide_eq_true_2 by lia. rewrite bool_decide_eq_false_2 by lia.
        rewrite lookup_app_r by (rewrite length_drop; lia).
        rewrite length_drop.
        by replace (i - (length (m_screen tb) - 1))%nat with 0%nat by lia.
      * rewrite bool_decide_eq_false_2 by lia.
        rewrite (lookup_ge_None_2 (m_screen tb)) by lia.
        rewrite lookup_ge_None_2; [done |].
        rewrite length_app, length_drop. cbn [length]. lia.
  - by rewrite HsbU, Hsb1, Hm1.
  - rewrite HscrD. apply list_eq. intros i. rewrite Hscr2.
    change (Z.to_nat 0) with 0%nat.
    destruct (decide (i < length (m_screen tb))%nat) as [Hi | Hi].
    + rewrite bool_decide_eq_true_2 by lia.
      destruct i as [| i].
      * rewrite bool_decide_eq_false_2 by lia. unfold row_at.
        change (Z.to_nat 0) with 0%nat.
        destruct (lookup_lt_is_Some_2 (m_screen tb) 0 Hi) as [row Hrow].
        unfold Row in *. by rewrite Hrow.
      * rewrite bool_decide_eq_true_2 by lia. cbn [pred].
        rewrite HscrU, Hscr1. by rewrite !bool_decide_eq_true_2 by lia.
    + rewrite bool_decide_eq_false_2 by lia.
      rewrite HscrU, Hscr1. by rewrite bool_decide_eq_false_2 by lia.
  - by rewrite HsbD, Hsb2.
Qed.

(** X15.  A grid of a single row never scrolls: whatever the arguments,
    [Scroll] leaves the buffer as it is, so nothing reaches the scrollback. *)
Theorem Scroll_single_row (tb : t) (lines top bottom : Z) :
  m_rows tb = 1 -> Scroll tb lines top bottom = tb.
Proof.
  intros Hrows. unfold Scroll, clamp. rewrite Hrows.
  change (1 - 1) with 0.
  set (bottom' := if bottom <? 0 then 1 else bottom).
  assert (Htop : (if top <? 0 then 0 else if 0 <? top then 0 else top) = 0).
  { destruct (Z.ltb_spec top 0); [done |]. destruct (Z.ltb_spec 0 top); [done | lia]. }
  rewrite Htop. change (0 + 1) with 1.
  assert (Hb : (if bottom' <? 1 then 1 else if 1 <? bottom' then 1 else bottom') = 1).
  { destruct (Z.ltb_spec bottom' 1); [done |].
    destruct (Z.ltb_spec 1 bottom'); [done | lia]. }
  rewrite Hb. change (1 - 1 <=? 0) with true. by rewrite orb_true_r.
Qed.

(** *** Clearing *)

Lemma foldl_update_cell (g : Cell -> Cell) (row : Z) (l : list Z) tb :
  foldl (fun acc col => update_cell acc row col g) tb l =
  set_screen tb
    (alter (fun cells : list Cell =>
              foldl (fun cs col => alter g (Z.to_nat col) cs) cells l)
           (Z.to_nat row) (m_screen tb)).
Proof.
  revert tb. induction l as [| x l IH]; intros tb; cbn [foldl].
  - rewrite list_alter_id by done. by destruct tb.
  - rewrite IH. unfold update_cell, set_screen.
    cbn [m_rows m_cols m_maxScrollback m_screen m_scrollback m_dirty].
    f_equal. exact (list_alter_alter_eq _ _ _ _).
Qed.

Lemma lookup_foldl_alter {A} (g : A -> A) (l : list Z) (xs : list A) (i : nat) :
  (forall x, g (g x) = g x) ->
  foldl (fun cs col => alter g (Z.to_nat col) cs) xs l !! i =
  if bool_decide (i ∈ Z.to_nat <$> l) then g <$> xs !! i else xs !! i.
Proof.
  intros Hg. revert xs. induction l as [| x l IH]; intros xs; cbn [foldl fmap list_fmap].
  - rewrite bool_decide_eq_false_2; [done |]. apply not_elem_of_nil.
  - rewrite IH. destruct (decide (i = Z.to_nat x)) as [-> | Hne].
    + rewrite (bool_decide_eq_true_2 (_ ∈ _ :: _)) by left.
      rewrite list_lookup_alter_eq.
      destruct (xs !! Z.to_nat x) as [y |]; cbn [fmap option_fmap option_map];
        case_bool_decide; by rewrite ?Hg.
    + rewrite list_lookup_alter_ne by done.
      apply (f_equal (fun b : bool => if b then _ else _)).
      apply bool_decide_ext. rewrite elem_of_cons. tauto.
Qed.

Lemma length_foldl_alter {A} (g : A -> A) (l : list Z) (xs : list A) :
  length (foldl (fun cs col => alter g (Z.to_nat col) cs) xs l) = length xs.
Proof.
  revert xs. induction l as [| x l IH]; intros xs; cbn [foldl]; [done |].
  by rewrite IH, length_alter.
Qed.

Lemma wf_set_screen_alter tb (F : list Cell -> list Cell) (i : nat) :
  (forall cells, length (F cells) = length cells) ->
  wf tb -> wf (set_screen tb (alter F i (m_screen tb))).
Proof.
  intros HF (Hr & Hc & Hlen & Hall & Hd). unfold wf.
  cbn [set_screen m_rows m_cols m_screen m_dirty]. rewrite length_alter.
  repeat split; try done.
  apply Forall_alter; [done |]. intros cells _ Hcells. cbn beta.
  unfold Row in *. by rewrite HF.
Qed.

Lemma ClearRange_state tb row startCol endCol :
  0 <= row < m_rows tb ->
  ClearRange tb row startCol endCol =
  MarkDirty
    (set_screen tb
       (alter (fun cells : list Cell =>
                 foldl (fun cs col => alter Cell_Clear (Z.to_nat col) cs) cells
                   (seqZ (Z.max 0 startCol)
                      (Z.min (m_cols tb) endCol - Z.max 0 startCol)))
              (Z.to_nat row) (m_screen tb))) row.
Proof.
  intros Hrow. unfold ClearRange.
  destruct (Z.ltb_spec row 0); [lia |].
  destruct (Z.leb_spec (m_rows tb) row); [lia |]. cbn [orb].
  by rewrite foldl_update_cell.
Qed.

Lemma wf_ClearRange tb row startCol endCol : wf tb -> wf (ClearRange tb row startCol endCol).
Proof.
  intros Hwf. destruct (decide (0 <= row < m_rows tb)) as [Hrow | Hrow].
  - rewrite ClearRange_state by done. apply wf_MarkDirty, wf_set_screen_alter; [| done].
    intros cells. apply length_foldl_alter.
  - unfold ClearRange.
    destruct (Z.ltb_spec row 0); [done |].
    by destruct (Z.leb_spec (m_rows tb) row); [| lia].
Qed.

Lemma ClearRange_fields tb row startCol endCol :
  m_rows (ClearRange tb row startCol endCol) = m_rows tb /\
  m_cols (ClearRange tb row startCol endCol) = m_cols tb /\
  m_maxScrollback (ClearRange tb row startCol endCol) = m_maxScrollback tb /\
  m_scrollback (ClearRange tb row startCol endCol) = m_scrollback tb.
Proof.
  destruct (decide (0 <= row < m_rows tb)) as [Hrow | Hrow].
  - rewrite ClearRange_state by done.
    by destruct (MarkDirty_fields
      (set_screen tb
         (alter (fun cells : list Cell =>
                   foldl (fun cs col => alter Cell_Clear (Z.to_nat col) cs) cells
                     (seqZ (Z.max 0 startCol)
                        (Z.min (m_cols tb) endCol - Z.max 0 startCol)))
                (Z.to_nat row) (m_screen tb))) row) as (-> & -> & -> & _ & ->).
  - unfold ClearRange.
    destruct (Z.ltb_spec row 0); [done |].
    by destruct (Z.leb_spec (m_rows tb) row); [| lia].
Qed.

Lemma ClearRange_shape tb row startCol endCol :
  length <$> m_screen (ClearRange tb row startCol endCol) = length <$> m_screen tb /\
  length (m_dirty (ClearRange tb row startCol endCol)) = length (m_dirty tb).
Proof.
  destruct (decide (0 <= row < m_rows tb)) as [Hrow | Hrow].
  - rewrite ClearRange_state by done. rewrite length_dirty_MarkDirty.
    split; [| done].
    destruct (MarkDirty_fields
      (set_screen tb
         (alter (fun cells : list Cell =>
                   foldl (fun cs col => alter Cell_Clear (Z.to_nat col) cs) cells
                     (seqZ (Z.max 0 startCol)
                        (Z.min (m_cols tb) endCol - Z.max 0 startCol)))
                (Z.to_nat row) (m_screen tb))) row) as (_ & _ & _ & -> & _).
    cbn [set_screen m_screen]. apply fmap_length_alter.
    intros cells. apply length_foldl_alter.
  - unfold ClearRange.
    destruct (Z.ltb_spec row 0); [done |].
    by destruct (Z.leb_spec (m_rows tb) row); [| lia].
Qed.

Lemma in_bounds_ClearRange tb row startCol endCol :
  in_bounds tb -> in_bounds (ClearRange tb row startCol endCol).
Proof.
  intros Hib.
  destruct (ClearRange_fields tb row startCol endCol) as (Hr & Hc & _).
  destruct (ClearRange_shape tb row startCol endCol) as (Hshape & Hdl).
  by apply (in_bounds_same_shape tb).
Qed.

(** X16.  On a grid in which every position exists (rows of at least
    [m_cols] cells, one dirty bit per row), [ClearRange] on a row of the grid
    blanks the cells of that row whose column lies in [startCol, endCol) and
    inside the grid, and no other cell; the row becomes dirty even when the
    range holds no column of the grid.  No row changes its length, so the
    grid keeps the shape it had. *)
Theorem ClearRange_cells (tb : t) (row startCol endCol : Z) :
  in_bounds tb -> 0 <= row < m_rows tb ->
  let tb' := ClearRange tb row startCol endCol in
  (forall r c,
     GetCell_const tb' r c =
     if (r =? row) && (startCol <=? c) && (c <? endCol) then Cell_default
     else GetCell_const tb r c) /\
  (forall r, IsDirty tb' r = (r =? row) || IsDirty tb r) /\
  m_scrollback tb' = m_scrollback tb /\
  length <$> m_screen tb' = length <$> m_screen tb /\
  in_bounds tb' /\ (wf tb -> wf tb').
Proof.
  intros Hib Hrow tb'.
  pose proof Hib as (Hlen & Hall & Hd).
  destruct (ClearRange_fields tb row startCol endCol) as (Hr' & Hc' & Hm' & Hsb').
  fold tb' in Hr', Hc', Hm', Hsb'.
  split; [| split; [| split; [done | split; [| split]]]].
  - intros r c. rewrite !GetCell_const_in_grid.
    assert (Hg : in_grid tb' r c = in_grid tb r c) by (unfold in_grid; by rewrite Hr', Hc').
    rewrite Hg. destruct (in_grid tb r c) eqn:Hin.
    2:{ by destruct ((r =? row) && (startCol <=? c) && (c <? endCol)). }
    apply in_grid_range in Hin.
    unfold tb'. rewrite ClearRange_state by done.
    unfold cell_at.
    destruct (MarkDirty_fields
      (set_screen tb
         (alter (fun cells : list Cell =>
                   foldl (fun cs col => alter Cell_Clear (Z.to_nat col) cs) cells
                     (seqZ (Z.max 0 startCol)
                        (Z.min (m_cols tb) endCol - Z.max 0 startCol)))
                (Z.to_nat row) (m_screen tb))) row) as (_ & _ & _ & -> & _).
    cbn [set_screen m_screen].
    destruct (Z.eqb_spec r row) as [-> | Hne]; cbn [andb].
    2:{ by rewrite list_lookup_alter_ne by lia. }
    rewrite list_lookup_alter_eq.
    destruct (lookup_lt_is_Some_2 (m_screen tb) (Z.to_nat row)) as [cells Hcells]; [lia |].
    pose proof (Forall_lookup_1 _ _ _ _ Hall Hcells) as Hlc. cbn beta in Hlc.
    destruct (lookup_lt_is_Some_2 cells (Z.to_nat c)) as [cell Hcell]; [lia |].
    unfold Row in *. rewrite Hcells.
    cbn [fmap option_fmap option_map base.mbind option_bind].
    rewrite lookup_foldl_alter by done. rewrite Hcell.
    cbn [fmap option_fmap option_map default from_option id].
    case_bool_decide as Hel.
    + apply list_elem_of_fmap in Hel as (x & Hx & Hel). apply elem_of_seqZ in Hel.
      assert (x = c) as -> by lia.
      destruct (Z.leb_spec startCol c); [| lia].
      by destruct (Z.ltb_spec c endCol); [| lia].
    + destruct (Z.leb_spec startCol c); [| done].
      destruct (Z.ltb_spec c endCol); [| done]. cbn [andb].
      exfalso. apply Hel. apply list_elem_of_fmap. exists c. split; [done |].
      apply elem_of_seqZ. lia.
  - intros r. unfold tb'. rewrite ClearRange_state by done.
    rewrite IsDirty_MarkDirty by done. cbn [set_screen m_rows].
    assert (IsDirty (set_screen tb
      (alter (fun cells : list Cell =>
                foldl (fun cs col => alter Cell_Clear (Z.to_nat col) cs) cells
                  (seqZ (Z.max 0 startCol)
                     (Z.min (m_cols tb) endCol - Z.max 0 startCol)))
             (Z.to_nat row) (m_screen tb))) r = IsDirty tb r) as -> by done.
    destruct (Z.eqb_spec r row) as [-> | Hne]; [| by rewrite andb_false_r].
    destruct (Z.leb_spec 0 row); [| lia].
    by destruct (Z.ltb_spec row (m_rows tb)); [| lia].
  - by destruct (ClearRange_shape tb row startCol endCol).
  - by apply in_bounds_ClearRange.
  - intros Hwf. by apply wf_ClearRange.
Qed.

Lemma ClearRow_screen tb row :
  wf tb -> 0 <= row < m_rows tb ->
  m_screen (ClearRow tb row) = <[Z.to_nat row := blank_row (m_cols tb)]> (m_screen tb).
Proof.
  intros (Hr & Hc & Hlen & Hall & Hd) Hrow.
  unfold ClearRow. rewrite ClearRange_state by done.
  destruct (MarkDirty_fields
    (set_screen tb
       (alter (fun cells : list Cell =>
                 foldl (fun cs col => alter Cell_Clear (Z.to_nat col) cs) cells
                   (seqZ (Z.max 0 0) (Z.min (m_cols tb) (m_cols tb) - Z.max 0 0)))
              (Z.to_nat row) (m_screen tb))) row) as (_ & _ & _ & -> & _).
  cbn [set_screen m_screen]. rewrite list_insert_alter.
  apply list_alter_ext; [| done]. intros cells Hcells.
  pose proof (Forall_lookup_1 _ _ _ _ Hall Hcells) as Hlc. cbn beta in Hlc.
  apply list_eq. intros i. rewrite lookup_foldl_alter by done.
  unfold blank_row.
  destruct (decide (i < Z.to_nat (m_cols tb))%nat) as [Hi | Hi].
  - rewrite lookup_replicate_2 by done.
    destruct (lookup_lt_is_Some_2 cells i) as [cell Hcell]; [lia |].
    unfold Row in *. rewrite Hcell. rewrite bool_decide_eq_true_2; [done |].
    apply list_elem_of_fmap. exists (Z.of_nat i). split; [lia |].
    apply elem_of_seqZ. lia.
  - rewrite (lookup_ge_None_2 (replicate _ _)) by (rewrite length_replicate; lia).
    unfold Row in *. rewrite (lookup_ge_None_2 cells) by lia. by case_bool_decide.
Qed.

Lemma IsDirty_ClearRow_in_bounds tb row r :
  in_bounds tb -> 0 <= row < m_rows tb ->
  IsDirty (ClearRow tb row) r = (r =? row) || IsDirty tb r.
Proof.
  intros Hib Hrow. pose proof Hib as (Hlen & Hall & Hd).
  unfold ClearRow. rewrite ClearRange_state by done.
  rewrite IsDirty_MarkDirty by done. cbn [set_screen m_rows].
  assert (IsDirty (set_screen tb
    (alter (fun cells : list Cell =>
              foldl (fun cs col => alter Cell_Clear (Z.to_nat col) cs) cells
                (seqZ (Z.max 0 0) (Z.min (m_cols tb) (m_cols tb) - Z.max 0 0)))
           (Z.to_nat row) (m_screen tb))) r = IsDirty tb r) as -> by done.
  destruct (Z.eqb_spec r row) as [-> | Hne]; [| by rewrite andb_false_r].
  destruct (Z.leb_spec 0 row); [| lia].
  by destruct (Z.ltb_spec row (m_rows tb)); [| lia].
Qed.

Lemma IsDirty_ClearRow tb row r :
  wf tb -> 0 <= row < m_rows tb ->
  IsDirty (ClearRow tb row) r = (r =? row) || IsDirty tb r.
Proof. intros Hwf. by apply IsDirty_ClearRow_in_bounds, wf_in_bounds. Qed.

(** [ClearRow] on a row of at least [m_cols] cells blanks its first [m_cols]
    cells and keeps the rest. *)
Lemma ClearRow_screen_in_bounds tb row :
  in_bounds tb -> 0 <= row < m_rows tb ->
  m_screen (ClearRow tb row) =
  alter (fun cells : list Cell =>
           blank_row (m_cols tb) ++ drop (Z.to_nat (m_cols tb)) cells)
        (Z.to_nat row) (m_screen tb).
Proof.
  intros (Hlen & Hall & Hd) Hrow.
  unfold ClearRow. rewrite ClearRange_state by done.
  destruct (MarkDirty_fields
    (set_screen tb
       (alter (fun cells : list Cell =>
                 foldl (fun cs col => alter Cell_Clear (Z.to_nat col) cs) cells
                   (seqZ (Z.max 0 0) (Z.min (m_cols tb) (m_cols tb) - Z.max 0 0)))
              (Z.to_nat row) (m_screen tb))) row) as (_ & _ & _ & -> & _).
  cbn [set_screen m_screen].
  apply list_alter_ext; [| done]. intros cells Hcells.
  pose proof (Forall_lookup_1 _ _ _ _ Hall Hcells) as Hlc. cbn beta in Hlc.
  apply list_eq. intros i. rewrite lookup_foldl_alter by done.
  unfold blank_row.
  destruct (decide (i < Z.to_nat (m_cols tb))%nat) as [Hi | Hi].
  - rewrite lookup_app_l by (rewrite length_replicate; lia).
    rewrite lookup_replicate_2 by done.
    destruct (lookup_lt_is_Some_2 cells i) as [cell Hcell]; [lia |].
    unfold Row in *. rewrite Hcell. rewrite bool_decide_eq_true_2; [done |].
    apply list_elem_of_fmap. exists (Z.of_nat i). split; [lia |].
    apply elem_of_seqZ. lia.
  - rewrite lookup_app_r by (rewrite length_replicate; lia).
    rewrite length_replicate, lookup_drop.
    replace (Z.to_nat (m_cols tb) + (i - Z.to_nat (m_cols tb)))%nat with i by lia.
    rewrite bool_decide_eq_false_2; [done |].
    intros Hel. apply list_elem_of_fmap in Hel as (x & Hx & Hel).
    apply elem_of_seqZ in Hel. lia.
Qed.

(** The state after the first [k] rounds of the loop of [ClearScreen], on a
    grid in which every position exists. *)
Lemma ClearScreen_rounds_in_bounds tb (k : nat) :
  in_bounds tb -> Z.of_nat k <= m_rows tb ->
  let tbk := foldl ClearRow tb (seqZ 0 (Z.of_nat k)) in
  let cleared (row : list Cell) :=
    blank_row (m_cols tb) ++ drop (Z.to_nat (m_cols tb)) row in
  in_bounds tbk /\ m_rows tbk = m_rows tb /\ m_cols tbk = m_cols tb /\
  m_scrollback tbk = m_scrollback tb /\
  m_screen tbk = (cleared <$> take k (m_screen tb)) ++ drop k (m_screen tb) /\
  (forall r, IsDirty tbk r = (0 <=? r) && (r <? Z.of_nat k) || IsDirty tb r).
Proof.
  intros Hib. induction k as [| k IH]; intros Hk tbk cleared.
  - unfold tbk. change (seqZ 0 (Z.of_nat 0)) with (@nil Z). cbn [foldl].
    do 4 (split; [done |]). split; [by rewrite take_0, drop_0 |].
    intros r. destruct (Z.leb_spec 0 r); [| done].
    by destruct (Z.ltb_spec r (Z.of_nat 0)); [lia |].
  - destruct IH as (Hib0 & Hr0 & Hc0 & Hsb0 & Hscr0 & Hd0); [lia |].
    unfold tbk. rewrite seqZ_S, foldl_app. cbn [foldl].
    set (tb0 := foldl ClearRow tb (seqZ 0 (Z.of_nat k))) in *.
    change (0 + Z.of_nat k) with (Z.of_nat k).
    destruct (ClearRange_fields tb0 (Z.of_nat k) 0 (m_cols tb0)) as (Hr' & Hc' & Hm' & Hsb').
    fold (ClearRow tb0 (Z.of_nat k)) in Hr', Hc', Hm', Hsb'.
    pose proof Hib as (Hlen & Hall & Hd).
    split; [by apply in_bounds_ClearRange |].
    split; [congruence |]. split; [congruence |]. split; [congruence |]. split.
    + rewrite ClearRow_screen_in_bounds by (done || lia).
      rewrite Hscr0, Hc0, Nat2Z.id. subst cleared.
      set (F := fun cells : list Cell =>
                  blank_row (m_cols tb) ++ drop (Z.to_nat (m_cols tb)) cells) in *.
      destruct (lookup_lt_is_Some_2 (m_screen tb) k) as [row Hrow]; [lia |].
      assert (Hlk : length (F <$> take k (m_screen tb)) = k)
        by (rewrite length_fmap, length_take; unfold Row in *; lia).
      rewrite (alter_app_r_alt _ _ _ k) by (rewrite Hlk; lia).
      rewrite Hlk, Nat.sub_diag, (drop_S _ _ _ Hrow). cbn [alter list_alter].
      rewrite (take_S_r _ _ _ Hrow), fmap_app, <- app_assoc. done.
    + intros r. rewrite IsDirty_ClearRow_in_bounds by (done || lia). rewrite Hd0.
      destruct (Z.eqb_spec r (Z.of_nat k)), (Z.leb_spec 0 r),
        (Z.ltb_spec r (Z.of_nat k)), (Z.ltb_spec r (Z.of_nat (S k)));
        cbn [andb orb]; done || lia.
Qed.

(** The state after the first [k] rounds of the loop of [ClearScreen]. *)
Lemma ClearScreen_rounds tb (k : nat) :
  wf tb -> Z.of_nat k <= m_rows tb ->
  let tbk := foldl ClearRow tb (seqZ 0 (Z.of_nat k)) in
  wf tbk /\ m_rows tbk = m_rows tb /\ m_cols tbk = m_cols tb /\
  m_maxScrollback tbk = m_maxScrollback tb /\
  m_scrollback tbk = m_scrollback tb /\
  m_screen tbk = replicate k (blank_row (m_cols tb)) ++ drop k (m_screen tb) /\
  (forall r, IsDirty tbk r = (0 <=? r) && (r <? Z.of_nat k) || IsDirty tb r).
Proof.
  intros Hwf. induction k as [| k IH]; intros Hk tbk.
  - unfold tbk. change (seqZ 0 (Z.of_nat 0)) with (@nil Z). cbn [foldl].
    do 6 (split; [done |]).
    intros r. destruct (Z.leb_spec 0 r); [| done].
    by destruct (Z.ltb_spec r (Z.of_nat 0)); [lia |].
  - destruct IH as (Hwf0 & Hr0 & Hc0 & Hm0 & Hsb0 & Hscr0 & Hd0); [lia |].
    unfold tbk. rewrite seqZ_S, foldl_app. cbn [foldl].
    set (tb0 := foldl ClearRow tb (seqZ 0 (Z.of_nat k))) in *.
    change (0 + Z.of_nat k) with (Z.of_nat k).
    destruct (ClearRange_fields tb0 (Z.of_nat k) 0 (m_cols tb0)) as (Hr' & Hc' & Hm' & Hsb').
    fold (ClearRow tb0 (Z.of_nat k)) in Hr', Hc', Hm', Hsb'.
    pose proof Hwf as (Hr & Hc & Hlen & Hall & Hd).
    split; [by apply wf_ClearRange |].
    split; [congruence |]. split; [congruence |]. split; [congruence |].
    split; [congruence |]. split.
    + rewrite ClearRow_screen by (done || lia). rewrite Hscr0, Hc0, Nat2Z.id.
      rewrite insert_app_r_alt by (rewrite length_replicate; lia).
      rewrite length_replicate, Nat.sub_diag.
      destruct (lookup_lt_is_Some_2 (m_screen tb) k) as [row Hrow]; [lia |].
      rewrite (drop_S _ _ _ Hrow). cbn [insert list_insert].
      rewrite replicate_S_end, <- app_assoc. done.
    + intros r. rewrite IsDirty_ClearRow by (done || lia). rewrite Hd0.
      destruct (Z.eqb_spec r (Z.of_nat k)), (Z.leb_spec 0 r),
        (Z.ltb_spec r (Z.of_nat k)), (Z.ltb_spec r (Z.of_nat (S k)));
        cbn [andb orb]; done || lia.
Qed.

(** *** Row text *)

Lemma foldl_app_concat {A B} (f : A -> list B) (l : list A) (acc : list B) :
  foldl (fun result x => result ++ f x) acc l = acc ++ concat (f <$> l).
Proof.
  revert acc. induction l as [| x l IH]; intros acc; cbn [foldl fmap list_fmap concat].
  - by rewrite app_nil_r.
  - by rewrite IH, app_assoc.
Qed.

Lemma drop_leading_spaces_spec (s : list Z) :
  exists k, s = replicate k 32 ++ drop_leading_spaces s /\
            head (drop_leading_spaces s) <> Some 32.
Proof.
  induction s as [| c s (k & Hk & Hh)].
  - by exists 0%nat.
  - cbn [drop_leading_spaces]. destruct (Z.eqb_spec c 32) as [-> | Hne].
    + exists (S k). cbn [replicate app]. by rewrite <- Hk.
    + exists 0%nat. split; [done |]. cbn [head]. congruence.
Qed.

Lemma rev_replicate {A} (n : nat) (x : A) : rev (replicate n x) = replicate n x.
Proof.
  induction n as [| n IH]; [done |].
  cbn [replicate rev]. rewrite IH. symmetry. apply replicate_S_end.
Qed.

Lemma trim_trailing_spaces_spec (s : list Z) :
  exists k, s = trim_trailing_spaces s ++ replicate k 32 /\
            forall s', trim_trailing_spaces s <> s' ++ [32].
Proof.
  unfold trim_trailing_spaces.
  destruct (drop_leading_spaces_spec (rev s)) as (k & Hk & Hh).
  exists k. split.
  - rewrite <- (rev_involutive s) at 1. rewrite Hk at 1.
    by rewrite rev_app_distr, rev_replicate.
  - intros s' Hs'. apply Hh.
    rewrite <- (rev_involutive (drop_leading_spaces (rev s))), Hs', rev_unit. done.
Qed.

Lemma GetRowText_blank tb row :
  wf tb -> 0 <= row < m_rows tb ->
  m_screen tb !! Z.to_nat row = Some (blank_row (m_cols tb)) ->
  GetRowText tb row = [].
Proof.
  intros Hwf Hrow Hblank. unfold GetRowText.
  destruct (Z.ltb_spec row 0); [lia |].
  destruct (Z.leb_spec (m_rows tb) row); [lia |]. cbn [orb].
  unfold Row in *. rewrite Hblank. cbn [default from_option id].
  rewrite foldl_app_concat. cbn [app]. unfold blank_row.
  rewrite fmap_replicate.
  change (cell_text Cell_default) with [32].
  assert (Hc : forall n, concat (replicate n [32]) = replicate n 32).
  { induction n as [| n IH]; [done |]. cbn [replicate concat app]. by rewrite IH. }
  rewrite Hc. unfold trim_trailing_spaces. rewrite rev_replicate.
  assert (Hd : forall n, drop_leading_spaces (replicate n 32) = []).
  { induction n as [| n IH]; [done |]. cbn [replicate drop_leading_spaces].
    by rewrite Z.eqb_refl. }
  by rewrite Hd.
Qed.

Lemma join_lines_empty (n : nat) :
  join_lines (replicate n []) = replicate (n - 1) 10.
Proof.
  induction n as [| n IH]; [done |].
  destruct n as [| n]; [done |].
  change (replicate (S (S n)) []) with ([] :: replicate (S n) (@nil Z)).
  rewrite join_lines_cons by done. rewrite IH. cbn [app].
  by replace (S (S n) - 1)%nat with (S (S n - 1)) by lia.
Qed.

(** X17.  On a grid in which every position exists (rows of at least
    [m_cols] cells, one dirty bit per row), [ClearScreen] blanks the first
    [m_cols] cells of every row and changes no row's length: a row longer
    than [m_cols] keeps its tail.  Every position of the grid then reads as
    the blank cell, every row is dirty and the scrollback is not touched.
    When the rows have exactly [m_cols] cells the result is the grid a new
    buffer of the same size starts with, and the text of the screen is one
    empty line per row. *)
Theorem ClearScreen_blank (tb : t) :
  in_bounds tb ->
  let tb' := ClearScreen tb in
  let cleared (row : list Cell) :=
    blank_row (m_cols tb) ++ drop (Z.to_nat (m_cols tb)) row in
  m_screen tb' = cleared <$> m_screen tb /\
  (forall r c, GetCell_const tb' r c = Cell_default) /\
  GetDirtyRows tb' = seqZ 0 (m_rows tb) /\
  m_scrollback tb' = m_scrollback tb /\
  in_bounds tb' /\
  (wf tb ->
   m_screen tb' = replicate (Z.to_nat (m_rows tb)) (blank_row (m_cols tb)) /\
   GetAllText tb' = replicate (Z.to_nat (m_rows tb - 1)) 10 /\
   wf tb').
Proof.
  intros Hib tb' cleared. pose proof Hib as (Hlen & Hall & Hd).
  destruct (ClearScreen_rounds_in_bounds tb (Z.to_nat (m_rows tb)) Hib)
    as (Hib' & Hr' & Hc' & Hsb' & Hscr' & Hd'); [lia |].
  rewrite Z2Nat.id in Hib', Hr', Hc', Hsb', Hscr', Hd' by lia.
  fold (ClearScreen tb) in Hib', Hr', Hc', Hsb', Hscr', Hd'.
  fold tb' in Hib', Hr', Hc', Hsb', Hscr', Hd'.
  rewrite take_ge, drop_ge, app_nil_r in Hscr' by lia.
  split; [done |]. split; [| split; [| split; [done | split; [done |]]]].
  - intros r c. rewrite GetCell_const_in_grid.
    destruct (in_grid tb' r c) eqn:Hin; [| done].
    apply in_grid_range in Hin. unfold cell_at. rewrite Hscr', list_lookup_fmap.
    destruct (lookup_lt_is_Some_2 (m_screen tb) (Z.to_nat r)) as [row Hrow]; [lia |].
    unfold Row in *. rewrite Hrow.
    cbn [fmap option_fmap option_map base.mbind option_bind].
    unfold blank_row.
    rewrite lookup_app_l by (rewrite length_replicate; lia).
    by rewrite lookup_replicate_2 by lia.
  - rewrite GetDirtyRows_filter, Hr'. apply filter_all, Forall_seqZ.
    intros r Hrange. rewrite Hd'.
    destruct (Z.leb_spec 0 r); [| lia]. by destruct (Z.ltb_spec r (m_rows tb)); [| lia].
  - intros Hwf. pose proof Hwf as (Hr & Hc & _ & Hexact & _).
    assert (Hblank : m_screen tb'
                     = replicate (Z.to_nat (m_rows tb)) (blank_row (m_cols tb))).
    { rewrite Hscr'. apply list_eq. intros i. rewrite list_lookup_fmap.
      destruct (decide (i < Z.to_nat (m_rows tb))%nat) as [Hi | Hi].
      - destruct (lookup_lt_is_Some_2 (m_screen tb) i) as [row Hrow];
          [unfold Row in *; lia |].
        pose proof (Forall_lookup_1 _ _ _ _ Hexact Hrow) as Hlr. cbn beta in Hlr.
        unfold Row in *. rewrite Hrow, lookup_replicate_2 by done.
        cbn [fmap option_fmap option_map]. f_equal.
        by rewrite drop_ge, app_nil_r by lia.
      - rewrite (lookup_ge_None_2 (m_screen tb)) by (unfold Row in *; lia).
        by rewrite lookup_ge_None_2 by (rewrite length_replicate; lia). }
    assert (Hwf' : wf tb').
    { destruct (ClearScreen_rounds tb (Z.to_nat (m_rows tb)) Hwf) as (Hw & _); [lia |].
      by rewrite Z2Nat.id in Hw by lia. }
    split; [done |]. split; [| done].
    assert (Hrowtext : forall r, 0 <= r < m_rows tb -> GetRowText tb' r = []).
    { intros r Hrange. apply GetRowText_blank; [done | lia |].
      rewrite Hblank, Hc'. apply lookup_replicate_2. lia. }
    unfold GetAllText, GetRegionText, clamp. rewrite Hr'.
    destruct (Z.ltb_spec 0 0); [lia |]. destruct (Z.ltb_spec (m_rows tb - 1) 0); [lia |].
    destruct (Z.ltb_spec (m_rows tb - 1) 0); [lia |].
    destruct (Z.ltb_spec (m_rows tb - 1) (m_rows tb - 1)); [lia |].
    rewrite region_loop_join by lia. cbn [app].
    replace (Z.of_nat (Z.to_nat (m_rows tb - 1 - 0 + 1))) with (m_rows tb) by lia.
    assert (Hmap : GetRowText tb' <$> seqZ 0 (m_rows tb)
                   = replicate (Z.to_nat (m_rows tb)) []).
    { apply list_eq. intros i. rewrite list_lookup_fmap.
      destruct (decide (Z.of_nat i < m_rows tb)) as [Hi | Hi].
      - rewrite lookup_seqZ_lt by done. cbn [fmap option_fmap option_map].
        rewrite Hrowtext by lia. by rewrite lookup_replicate_2 by lia.
      - rewrite lookup_seqZ_ge by lia.
        by rewrite lookup_ge_None_2 by (rewrite length_replicate; lia). }
    rewrite Hmap, join_lines_empty. f_equal. lia.
Qed.

(** X18.  The text of a row never ends in a space: [GetRowText] is the
    concatenated text of the row's cells with the spaces at its end, and
    nothing else, removed; a row outside the grid has no text. *)
Theorem GetRowText_trimmed (tb : t) (row : Z) :
  (row < 0 \/ m_rows tb <= row -> GetRowText tb row = []) /\
  (forall s, GetRowText tb row <> s ++ [32]) /\
  (0 <= row < m_rows tb ->
   exists k : nat,
     concat (cell_text <$> default [] (m_screen tb !! Z.to_nat row))
     = GetRowText tb row ++ replicate k 32).
Proof.
  unfold GetRowText.
  destruct (Z.ltb_spec row 0).
  { split; [done |]. split; [| lia]. intros s Hs. by destruct s. }
  destruct (Z.leb_spec (m_rows tb) row).
  { split; [done |]. split; [| lia]. intros s Hs. by destruct s. }
  cbn [orb].
  rewrite foldl_app_concat. cbn [app].
  destruct (trim_trailing_spaces_spec
              (concat (cell_text <$> default [] (m_screen tb !! Z.to_nat row))))
    as (k & Hk & Hlast).
  split; [lia |]. split; [done |]. intros _. by exists k.
Qed.

(** *** The class invariant under the mutating calls *)

Lemma Scroll_cases tb lines top bottom :
  wf tb ->
  Scroll tb lines top bottom = tb \/
  exists top' bottom',
    0 <= top' /\ top' + 1 < bottom' <= m_rows tb /\ lines <> 0 /\
    Scroll tb lines top bottom = scroll_region tb lines top' bottom'.
Proof.
  intros (Hr & _). unfold Scroll.
  set (top' := clamp top 0 (m_rows tb - 1)).
  set (bottom' := clamp (if bottom <? 0 then m_rows tb else bottom) (top' + 1) (m_rows tb)).
  assert (Ht : 0 <= top' <= m_rows tb - 1).
  { unfold top', clamp. destruct (Z.ltb_spec top 0); [lia |].
    destruct (Z.ltb_spec (m_rows tb - 1) top); lia. }
  assert (Hb : top' + 1 <= bottom' <= m_rows tb).
  { unfold bottom', clamp.
    destruct (Z.ltb_spec (if bottom <? 0 then m_rows tb else bottom) (top' + 1)); [lia |].
    destruct (Z.ltb_spec (m_rows tb) (if bottom <? 0 then m_rows tb else bottom)); lia. }
  destruct (Z.eqb_spec lines 0); [by left |].
  destruct (Z.leb_spec (bottom' - 1) top'); [by left |]. cbn [orb].
  right. exists top', bottom'. repeat split; try done; lia.
Qed.

Lemma capped_take (max : Z) (l : list Row) :
  0 <= max -> Z.of_nat (length (take (Z.to_nat max) l)) <= max.
Proof. intros Hmax. rewrite length_take. lia. Qed.

Lemma capped_nonneg tb : capped tb -> 0 <= m_maxScrollback tb.
Proof. unfold capped. lia. Qed.

Lemma scroll_region_wf tb lines top bottom :
  wf tb -> 0 <= top -> top + 1 < bottom <= m_rows tb ->
  (lines < 0 -> uniform tb) ->
  wf (scroll_region tb lines top bottom).
Proof.
  intros Hwf Ht Hb Hun.
  pose proof (wf_scrollable tb top bottom Hwf Ht Hb) as Hs.
  pose proof Hwf as (Hrows & Hcols & Hlens & Hall & Hdl).
  assert (Hn : (0 < Z.to_nat (neg_int lines))%nat -> lines < 0).
  { unfold neg_int, INT_MIN. destruct (Z.eqb_spec lines (-2147483648)); lia. }
  unfold scroll_region. destruct (Z.ltb_spec 0 lines) as [Hpos | Hneg].
  - destruct (iter_scroll_up tb top bottom (Z.to_nat lines) Hs)
      as (Hr & Hc & Hm & Hd & Hlen & Hscr & Hsb).
    set (tbk := Nat.iter (Z.to_nat lines) (scroll_up_once top bottom) tb) in *.
    destruct (MarkDirtyRange_fields (TrimScrollback tbk) top bottom)
      as (Hr' & Hc' & Hm' & Hscr' & Hsb' & Hd').
    set (tb' := MarkDirtyRange (TrimScrollback tbk) top bottom) in *.
    cbn [TrimScrollback m_rows m_cols m_maxScrollback m_screen m_scrollback m_dirty]
      in Hr', Hc', Hm', Hscr', Hsb', Hd'.
    rewrite CreateEmptyRow_blank in Hscr.
    apply (wf_rows tb tb' Hwf).
    + by rewrite Hr'.
    + by rewrite Hc'.
    + rewrite Hscr'. exact Hlen.
    + by rewrite Hd', Hd.
    + intros i row. rewrite Hscr', Hscr. repeat case_bool_decide.
      * intros Hi. exact (Forall_lookup_1 _ _ _ _ Hall Hi).
      * intros [= <-]. rewrite length_blank_row. lia.
      * intros Hi. exact (Forall_lookup_1 _ _ _ _ Hall Hi).
  - destruct (iter_scroll_down tb top bottom (Z.to_nat (neg_int lines)) Hs)
      as (Hr & Hc & Hm & Hd & Hlen & Hscr & Hsb).
    set (tbk := Nat.iter (Z.to_nat (neg_int lines)) (scroll_down_once top bottom) tb) in *.
    destruct (MarkDirtyRange_fields tbk top bottom)
      as (Hr' & Hc' & Hm' & Hscr' & Hsb' & Hd').
    set (tb' := MarkDirtyRange tbk top bottom) in *.
    rewrite CreateEmptyRow_blank in Hscr.
    apply (wf_rows tb tb' Hwf).
    + by rewrite Hr'.
    + by rewrite Hc'.
    + rewrite Hscr'. exact Hlen.
    + by rewrite Hd', Hd.
    + intros i row. rewrite Hscr', Hscr. repeat case_bool_decide.
      * intros Hi. exact (Forall_lookup_1 _ _ _ _ Hall Hi).
      * intros [= <-].
        destruct (top =? 0); [| rewrite length_blank_row; lia].
        destruct (m_scrollback tb !! _) as [old |] eqn:Hold;
          cbn [default from_option id]; [| rewrite length_blank_row; lia].
        assert (Hu : uniform tb) by (apply Hun; lia).
        exact (Forall_lookup_1 _ _ _ _ Hu Hold).
      * intros Hi. exact (Forall_lookup_1 _ _ _ _ Hall Hi).
Qed.

Lemma Scroll_wf tb lines top bottom :
  wf tb -> (lines < 0 -> uniform tb) -> wf (Scroll tb lines top bottom).
Proof.
  intros Hwf Hun.
  destruct (Scroll_cases tb lines top bottom Hwf)
    as [-> | (top' & bottom' & Ht & Hb & _ & ->)]; [done |].
  by apply scroll_region_wf.
Qed.

Lemma scroll_region_inv tb lines top bottom :
  wf tb -> capped tb -> 0 <= top -> top + 1 < bottom <= m_rows tb ->
  (lines < 0 -> uniform tb) ->
  wf (scroll_region tb lines top bottom) /\ capped (scroll_region tb lines top bottom) /\
  (uniform tb -> uniform (scroll_region tb lines top bottom)).
Proof.
  intros Hwf Hcap Ht Hb Hun. split; [by apply scroll_region_wf |].
  pose proof (wf_scrollable tb top bottom Hwf Ht Hb) as Hs.
  pose proof Hwf as (Hrows & Hcols & Hlens & Hall & Hdl).
  pose proof (capped_nonneg tb Hcap) as Hmax.
  unfold scroll_region. destruct (Z.ltb_spec 0 lines) as [Hpos | Hneg].
  - destruct (iter_scroll_up tb top bottom (Z.to_nat lines) Hs)
      as (Hr & Hc & Hm & Hd & Hlen & Hscr & Hsb).
    set (tbk := Nat.iter (Z.to_nat lines) (scroll_up_once top bottom) tb) in *.
    destruct (MarkDirtyRange_fields (TrimScrollback tbk) top bottom)
      as (Hr' & Hc' & Hm' & Hscr' & Hsb' & Hd').
    set (tb' := MarkDirtyRange (TrimScrollback tbk) top bottom) in *.
    cbn [TrimScrollback m_rows m_cols m_maxScrollback m_screen m_scrollback m_dirty]
      in Hr', Hc', Hm', Hscr', Hsb', Hd'.
    rewrite CreateEmptyRow_blank in Hscr, Hsb.
    split.
    + unfold capped. rewrite Hsb', Hm', Hm. apply capped_take. lia.
    + intros Hu. unfold uniform. rewrite Hsb', Hc', Hc, Hsb.
      apply Forall_take, Forall_app. split; [| exact Hu].
      destruct (top =? 0); [| by apply Forall_nil].
      apply Forall_rev, Forall_take, Forall_app. split.
      * by apply Forall_take.
      * apply Forall_replicate. rewrite length_blank_row. lia.
  - destruct (iter_scroll_down tb top bottom (Z.to_nat (neg_int lines)) Hs)
      as (Hr & Hc & Hm & Hd & Hlen & Hscr & Hsb).
    set (tbk := Nat.iter (Z.to_nat (neg_int lines)) (scroll_down_once top bottom) tb) in *.
    destruct (MarkDirtyRange_fields tbk top bottom)
      as (Hr' & Hc' & Hm' & Hscr' & Hsb' & Hd').
    set (tb' := MarkDirtyRange tbk top bottom) in *.
    assert (Hsbl : Z.of_nat (length (m_scrollback tbk))
                   <= Z.of_nat (length (m_scrollback tb))).
    { rewrite Hsb. destruct (top =? 0); [| lia]. rewrite length_drop. lia. }
    split.
    + unfold capped in *. rewrite Hsb', Hm', Hm. lia.
    + intros Hu. unfold uniform. rewrite Hsb', Hc', Hc, Hsb.
      destruct (top =? 0); [| done]. by apply Forall_drop.
Qed.

Lemma Scroll_inv tb lines top bottom :
  wf tb -> capped tb -> (lines < 0 -> uniform tb) ->
  wf (Scroll tb lines top bottom) /\ capped (Scroll tb lines top bottom) /\
  (uniform tb -> uniform (Scroll tb lines top bottom)).
Proof.
  intros Hwf Hcap Hun.
  destruct (Scroll_cases tb lines top bottom Hwf)
    as [-> | (top' & bottom' & Ht & Hb & _ & ->)]; [done |].
  by apply scroll_region_inv.
Qed.

(** A call that leaves the scrollback, its cap and the width alone. *)
Lemma frame_inv (P : Prop) tb tb' :
  wf tb' -> m_cols tb' = m_cols tb ->
  m_maxScrollback tb' = m_maxScrollback tb -> m_scrollback tb' = m_scrollback tb ->
  capped tb ->
  wf tb' /\ capped tb' /\ (P -> uniform tb -> uniform tb').
Proof.
  intros Hwf Hc Hm Hsb Hcap. unfold capped, uniform in *.
  by rewrite Hc, Hm, Hsb.
Qed.

Lemma wf_dirty tb dirty :
  wf tb -> length dirty = length (m_dirty tb) -> wf (set_dirty tb dirty).
Proof.
  intros (Hr & Hc & Hlen & Hall & Hd) Hl. unfold wf.
  cbn [set_dirty m_rows m_cols m_screen m_dirty]. by rewrite Hl.
Qed.

Lemma wf_ClearScreen tb : wf tb -> wf (ClearScreen tb).
Proof.
  intros Hwf. pose proof Hwf as (Hr & _).
  destruct (ClearScreen_rounds tb (Z.to_nat (m_rows tb)) Hwf) as (Hwf' & _); [lia |].
  by rewrite Z2Nat.id in Hwf' by lia.
Qed.

Lemma ClearScreen_fields tb :
  wf tb ->
  m_cols (ClearScreen tb) = m_cols tb /\
  m_maxScrollback (ClearScreen tb) = m_maxScrollback tb /\
  m_scrollback (ClearScreen tb) = m_scrollback tb.
Proof.
  intros Hwf. pose proof Hwf as (Hr & _).
  destruct (ClearScreen_rounds tb (Z.to_nat (m_rows tb)) Hwf)
    as (_ & _ & Hc & Hm & Hsb & _); [lia |].
  by rewrite Z2Nat.id in Hc, Hm, Hsb by lia.
Qed.

Lemma Resize_inv tb rows cols :
  wf tb -> capped tb ->
  wf (Resize tb rows cols) /\ capped (Resize tb rows cols) /\
  (rows <= 0 \/ cols <= 0 \/ cols = m_cols tb ->
   uniform tb -> uniform (Resize tb rows cols)).
Proof.
  intros Hwf Hcap. split; [by apply Resize_wf |].
  destruct (decide (0 < rows /\ 0 < cols)) as [[Hr Hc] | Hno].
  - destruct (Resize_state tb rows cols Hwf Hr Hc) as (Hr' & Hc' & Hm' & Hs' & Hsb').
    pose proof (capped_nonneg tb Hcap) as Hmax.
    pose proof Hwf as (_ & _ & _ & Hall & _).
    split.
    + unfold capped in *. rewrite Hsb', Hm'.
      destruct (rows <? m_rows tb); [by apply capped_take | done].
    + intros Hsame Hu. unfold uniform. rewrite Hsb', Hc'.
      assert (cols = m_cols tb) as -> by lia.
      destruct (rows <? m_rows tb); [| done].
      apply Forall_take, Forall_app. split; [| done].
      by apply Forall_rev, Forall_take.
  - assert (Resize tb rows cols = tb) as ->; [| done].
    unfold Resize. destruct (Z.leb_spec rows 0); [done |].
    by destruct (Z.leb_spec cols 0); [| lia].
Qed.

(** X19.  Every mutating call keeps the shape of the grid, so that the
    screen has [m_rows] rows of [m_cols] cells and one dirty bit per row, and
    keeps the scrollback within its cap.  The calls that bring scrollback rows
    back to the screen need those rows to have the width of the grid, which
    every call keeps as long as the number of columns is not changed. *)
Theorem invariant_exec (tb : t) (c : call) :
  wf tb -> capped tb -> call_args_ok c ->
  (restores c = true -> uniform tb) ->
  wf (exec tb c) /\ capped (exec tb c) /\
  (keeps_width tb c -> uniform tb -> uniform (exec tb c)).
Proof.
  intros Hwf Hcap Hargs Hres.
  pose proof Hwf as (Hr & Hc & Hlen & Hall & Hd).
  destruct c; cbn [exec restores keeps_width call_args_ok] in *.
  - by apply Resize_inv.
  - destruct (frame_inv True tb (SetCell tb row col cell)) as (? & ? & ?); try done.
    + unfold SetCell. destruct (in_grid tb row col); [| done].
      by apply wf_MarkDirty, wf_update_cell.
    + unfold SetCell. destruct (in_grid tb row col); [| done].
      by destruct (MarkDirty_fields (update_cell tb row col (fun _ => cell)) row)
        as (_ & -> & _).
    + unfold SetCell. destruct (in_grid tb row col); [| done].
      by destruct (MarkDirty_fields (update_cell tb row col (fun _ => cell)) row)
        as (_ & _ & -> & _).
    + unfold SetCell. destruct (in_grid tb row col); [| done].
      by destruct (MarkDirty_fields (update_cell tb row col (fun _ => cell)) row)
        as (_ & _ & _ & _ & ->).
  - destruct (frame_inv True tb (SetChar tb row col code w)) as (? & ? & ?); try done;
      unfold SetChar; (destruct (in_grid tb row col); [| done]).
    + by apply wf_MarkDirty, wf_update_cell.
    + match goal with |- context [MarkDirty ?x row] =>
        by destruct (MarkDirty_fields x row) as (_ & -> & _) end.
    + match goal with |- context [MarkDirty ?x row] =>
        by destruct (MarkDirty_fields x row) as (_ & _ & -> & _) end.
    + match goal with |- context [MarkDirty ?x row] =>
        by destruct (MarkDirty_fields x row) as (_ & _ & _ & _ & ->) end.
  - destruct (frame_inv True tb (ClearCell tb row col)) as (? & ? & ?); try done;
      unfold ClearCell; (destruct (in_grid tb row col); [| done]).
    + by apply wf_MarkDirty, wf_update_cell.
    + match goal with |- context [MarkDirty ?x row] =>
        by destruct (MarkDirty_fields x row) as (_ & -> & _) end.
    + match goal with |- context [MarkDirty ?x row] =>
        by destruct (MarkDirty_fields x row) as (_ & _ & -> & _) end.
    + match goal with |- context [MarkDirty ?x row] =>
        by destruct (MarkDirty_fields x row) as (_ & _ & _ & _ & ->) end.
  - destruct (ClearRange_fields tb row startCol endCol) as (_ & ? & ? & ?).
    by apply frame_inv; [apply wf_ClearRange | ..].
  - destruct (ClearRange_fields tb row 0 (m_cols tb)) as (_ & ? & ? & ?).
    by apply frame_inv; [apply wf_ClearRange | ..].
  - destruct (ClearScreen_fields tb Hwf) as (? & ? & ?).
    by apply frame_inv; [apply wf_ClearScreen | ..].
  - destruct (Scroll_inv tb lines top bottom Hwf Hcap) as (? & ? & ?); [| by auto].
    intros Hl. apply Hres. by apply Z.ltb_lt.
  - destruct (Scroll_inv tb 1 0 (m_rows tb) Hwf Hcap) as (? & ? & ?); [lia | by auto].
  - destruct (Scroll_inv tb (-1) 0 (m_rows tb) Hwf Hcap) as (? & ? & ?); [| by auto].
    intros _. by apply Hres.
  - split; [done |]. split.
    + unfold capped in *. cbn [ClearScrollback m_scrollback m_maxScrollback length]. lia.
    + intros _ _. apply Forall_nil.
  - split; [done |]. split.
    + unfold capped. cbn [SetMaxScrollback TrimScrollback m_scrollback m_maxScrollback].
      by apply capped_take.
    + intros _ Hu. unfold uniform.
      cbn [SetMaxScrollback TrimScrollback m_scrollback m_cols]. by apply Forall_take.
  - destruct (MarkDirty_fields tb row) as (_ & ? & ? & _ & ?).
    by apply frame_inv; [apply wf_MarkDirty | ..].
  - destruct (MarkDirtyRange_fields tb startRow endRow)
      as (Hr' & Hc' & Hm' & Hs' & Hsb' & Hd').
    apply frame_inv; try done.
    unfold wf. by rewrite Hr', Hc', Hs', Hd'.
  - apply frame_inv; try done. apply wf_dirty; [done |]. by rewrite length_replicate.
  - apply frame_inv; try done. apply wf_dirty; [done |]. by rewrite length_replicate.
Qed.

(** X20.  Scrollback rows keep the width they had when they left the screen:
    after [ScrollUp], a [Resize] to another number of columns and
    [ScrollDown], the top row of the screen is the old top row, with the old
    number of cells, and the grid no longer has [m_cols] cells in every row. *)
Theorem ScrollDown_restores_old_width (tb : t) (cols : Z) :
  wf tb -> 2 <= m_rows tb -> 1 <= m_maxScrollback tb ->
  0 < cols -> cols <> m_cols tb ->
  let tb' := ScrollDown (Resize (ScrollUp tb) (m_rows tb) cols) in
  m_cols tb' = cols /\
  row_at (m_screen tb') 0 = row_at (m_screen tb) 0 /\
  Z.of_nat (length (row_at (m_screen tb') 0)) = m_cols tb /\
  ~ wf tb'.
Proof.
  intros Hwf Hrows Hmax Hcols Hne tb'.
  pose proof Hwf as (Hr & Hc & Hlen & Hall & Hd).
  assert (Hs : scrollable tb 0 (m_rows tb)) by (apply wf_scrollable; done || lia).
  (* ScrollUp *)
  destruct (scroll_up_once_spec tb 0 (m_rows tb) Hs)
    as (Hr1 & Hc1 & Hm1 & Hd1 & Hlen1 & Hscr1 & Hsb1).
  set (tb1 := scroll_up_once 0 (m_rows tb) tb) in *.
  assert (HU : ScrollUp tb = MarkDirtyRange (TrimScrollback tb1) 0 (m_rows tb)).
  { unfold ScrollUp. by rewrite Scroll_region by lia. }
  destruct (MarkDirtyRange_fields (TrimScrollback tb1) 0 (m_rows tb))
    as (HrU & HcU & HmU & HscrU & HsbU & HdU).
  rewrite <- HU in HrU, HcU, HmU, HscrU, HsbU, HdU.
  cbn [TrimScrollback m_rows m_cols m_maxScrollback m_screen m_scrollback m_dirty]
    in HrU, HcU, HmU, HscrU, HsbU, HdU.
  change (0 =? 0) with true in Hsb1. cbn [app] in Hsb1.
  assert (HsbU' : m_scrollback (ScrollUp tb) =
            row_at (m_screen tb) 0
            :: take (Z.to_nat (m_maxScrollback tb - 1)) (m_scrollback tb)).
  { rewrite HsbU, Hsb1, Hm1.
    replace (Z.to_nat (m_maxScrollback tb))
      with (S (Z.to_nat (m_maxScrollback tb - 1))) by lia.
    done. }
  assert (HwfU : wf (ScrollUp tb)) by (apply Scroll_wf; [done | lia]).
  (* Resize *)
  assert (HrowsU : m_rows (ScrollUp tb) = m_rows tb) by congruence.
  destruct (Resize_state (ScrollUp tb) (m_rows tb) cols HwfU) as (Hr2 & Hc2 & Hm2 & Hs2 & Hsb2);
    [lia | lia |].
  set (tb2 := Resize (ScrollUp tb) (m_rows tb) cols) in *.
  rewrite HrowsU, Z.ltb_irrefl, HsbU' in Hsb2.
  assert (Hwf2 : wf tb2) by (by apply Resize_wf).
  (* ScrollDown *)
  assert (Hs2' : scrollable tb2 0 (m_rows tb)).
  { destruct Hwf2 as (_ & _ & Hl2 & _). unfold scrollable. lia. }
  destruct (scroll_down_once_spec tb2 0 (m_rows tb) Hs2')
    as (Hr3 & Hc3 & Hm3 & Hd3 & Hlen3 & Hscr3 & Hsb3).
  set (tb3 := scroll_down_once 0 (m_rows tb) tb2) in *.
  assert (HD : tb' = MarkDirtyRange tb3 0 (m_rows tb)).
  { unfold tb', ScrollDown. fold tb2. rewrite Hr2. by rewrite Scroll_region by lia. }
  destruct (MarkDirtyRange_fields tb3 0 (m_rows tb))
    as (HrD & HcD & HmD & HscrD & HsbD & HdD).
  rewrite <- HD in HrD, HcD, HmD, HscrD, HsbD, HdD.
  change (0 =? 0) with true in Hscr3. rewrite Hsb2 in Hscr3.
  cbn [head default from_option id] in Hscr3.
  assert (Htop : m_screen tb' !! 0%nat = Some (row_at (m_screen tb) 0)).
  { rewrite HscrD, Hscr3. change (Z.to_nat 0) with 0%nat.
    rewrite bool_decide_eq_true_2 by lia. by rewrite bool_decide_eq_false_2 by lia. }
  assert (Hold : m_screen tb !! 0%nat = Some (row_at (m_screen tb) 0)).
  { unfold row_at. change (Z.to_nat 0) with 0%nat.
    destruct (lookup_lt_is_Some_2 (m_screen tb) 0) as [row Hrow]; [lia |].
    unfold Row in *. by rewrite Hrow. }
  pose proof (Forall_lookup_1 _ _ _ _ Hall Hold) as Hwidth. cbn beta in Hwidth.
  assert (Hrow0 : row_at (m_screen tb') 0 = row_at (m_screen tb) 0).
  { unfold row_at at 1. change (Z.to_nat 0) with 0%nat.
    unfold Row in *. by rewrite Htop. }
  split; [congruence |]. split; [done |]. split; [by rewrite Hrow0 |].
  intros (_ & _ & _ & Hall' & _).
  pose proof (Forall_lookup_1 _ _ _ _ Hall' Htop) as Hwidth'. cbn beta in Hwidth'.
  assert (m_cols tb' = cols) by congruence. lia.
Qed.

(** *** UTF-8 *)

Lemma lor_disjoint (a x k : Z) :
  0 <= k -> 0 <= x < 2 ^ k -> a mod 2 ^ k = 0 -> Z.lor a x = a + x.
Proof.
  intros Hk Hx Ha.
  assert (Hland : Z.land a x = 0).
  { apply Z.bits_inj'. intros n Hn. rewrite Z.land_spec, Z.bits_0.
    destruct (Z_lt_ge_dec n k) as [Hlt | Hge].
    - rewrite <- (Z.mod_pow2_bits_low a k n) by lia. by rewrite Ha, Z.bits_0.
    - rewrite <- (Z.mod_small x (2 ^ k)) by lia.
      rewrite Z.mod_pow2_bits_high by lia. apply andb_false_r. }
  rewrite <- Z.lxor_lor by done. symmetry. by apply Z.add_nocarry_lxor.
Qed.

Lemma utf8_lead (lead x k : Z) :
  0 <= k -> 0 <= x < 2 ^ k -> lead mod 2 ^ k = 0 -> 0 <= lead -> lead + 2 ^ k <= 256 ->
  to_uint8 (Z.lor lead x) = lead + x.
Proof.
  intros Hk Hx Hl H0 H256. rewrite (lor_disjoint lead x k) by done.
  unfold to_uint8. apply Z.mod_small. lia.
Qed.

Lemma utf8_cont (x : Z) : 0 <= x -> to_uint8 (Z.lor 128 (Z.land x 63)) = 128 + x mod 64.
Proof.
  intros Hx. change 63 with (Z.ones 6). rewrite Z.land_ones by lia.
  change (2 ^ 6) with 64.
  pose proof (Z.mod_pos_bound x 64 ltac:(lia)).
  apply (utf8_lead 128 (x mod 64) 6); try done; lia.
Qed.

(** X21.  A code point below 2^21 is encoded in one to four bytes from which
    it can be read back: the lead byte tells the length, every other byte is
    a continuation byte 10xxxxxx, and the payload bits give the code point. *)
Theorem utf8_encode_decodable (cp : Z) :
  0 <= cp < 2 ^ 21 ->
  match utf8_encode cp with
  | [b0] => cp < 128 /\ b0 = cp
  | [b0; b1] =>
      128 <= cp < 2048 /\ 192 <= b0 < 224 /\ 128 <= b1 < 192 /\
      cp = (b0 - 192) * 64 + (b1 - 128)
  | [b0; b1; b2] =>
      2048 <= cp < 65536 /\ 224 <= b0 < 240 /\ 128 <= b1 < 192 /\ 128 <= b2 < 192 /\
      cp = (b0 - 224) * 4096 + (b1 - 128) * 64 + (b2 - 128)
  | [b0; b1; b2; b3] =>
      65536 <= cp /\ 240 <= b0 < 248 /\ 128 <= b1 < 192 /\ 128 <= b2 < 192 /\
      128 <= b3 < 192 /\
      cp = (b0 - 240) * 262144 + (b1 - 128) * 4096 + (b2 - 128) * 64 + (b3 - 128)
  | _ => False
  end.
Proof.
  intros Hcp. change (2 ^ 21) with 2097152 in Hcp. unfold utf8_encode.
  pose proof (Z.div_mod cp 64 ltac:(lia)) as H0.
  pose proof (Z.mod_pos_bound cp 64 ltac:(lia)) as M0.
  pose proof (Z.div_mod (cp / 64) 64 ltac:(lia)) as H1.
  pose proof (Z.mod_pos_bound (cp / 64) 64 ltac:(lia)) as M1.
  pose proof (Z.div_mod (cp / 64 / 64) 64 ltac:(lia)) as H2.
  pose proof (Z.mod_pos_bound (cp / 64 / 64) 64 ltac:(lia)) as M2.
  assert (D1 : Z.shiftr cp 6 = cp / 64) by (by rewrite Z.shiftr_div_pow2 by lia).
  assert (D2 : Z.shiftr cp 12 = cp / 64 / 64).
  { rewrite Z.shiftr_div_pow2 by lia. rewrite Z.div_div by lia. done. }
  assert (D3 : Z.shiftr cp 18 = cp / 64 / 64 / 64).
  { rewrite Z.shiftr_div_pow2 by lia. rewrite !Z.div_div by lia. done. }
  assert (P1 : 0 <= cp / 64) by (apply Z.div_pos; lia).
  assert (P2 : 0 <= cp / 64 / 64) by (apply Z.div_pos; lia).
  assert (P3 : 0 <= cp / 64 / 64 / 64) by (apply Z.div_pos; lia).
  destruct (Z.ltb_spec cp 128).
  { split; [done |]. unfold to_uint8. apply Z.mod_small. lia. }
  destruct (Z.ltb_spec cp 2048).
  { rewrite D1, (utf8_cont cp) by lia.
    rewrite (utf8_lead 192 (cp / 64) 5) by (done || lia). lia. }
  destruct (Z.ltb_spec cp 65536).
  { rewrite D1, D2, (utf8_cont cp), (utf8_cont (cp / 64)) by lia.
    rewrite (utf8_lead 224 (cp / 64 / 64) 4) by (done || lia). lia. }
  rewrite D1, D2, D3, (utf8_cont cp), (utf8_cont (cp / 64)),
    (utf8_cont (cp / 64 / 64)) by lia.
  rewrite (utf8_lead 240 (cp / 64 / 64 / 64) 3) by (done || lia). lia.
Qed.

(** *** The theorems above at a small buffer *)

Lemma GetDirtyRows_IsDirty_witness :
  let tb := {| m_rows := 3; m_cols := 2; m_maxScrollback := 5;
               m_screen := replicate 3 (replicate 2 Cell_default);
               m_scrollback := []; m_dirty := [false; true; true] |} in
  GetDirtyRows tb = filter (fun row => IsDirty tb row = true) (seqZ 0 (m_rows tb)) /\
  (HasDirty tb = true <-> exists row, IsDirty tb row = true) /\
  GetDirtyRows (ClearDirty tb) = [] /\ HasDirty (ClearDirty tb) = false /\
  GetDirtyRows (MarkAllDirty tb) = seqZ 0 (m_rows tb).
Proof.
  intros tb. apply (GetDirtyRows_IsDirty tb). reflexivity.
Defined.

Lemma marking_is_monotone_witness :
  let tb := {| m_rows := 3; m_cols := 2; m_maxScrollback := 5;
               m_screen := replicate 3 (replicate 2 Cell_default);
               m_scrollback := []; m_dirty := [false; true; false] |} in
  (forall r row,
     IsDirty (MarkDirty tb r) row =
     (0 <=? row) && (row <? m_rows tb) && (row =? r) || IsDirty tb row) /\
  (forall startRow endRow row,
     IsDirty (MarkDirtyRange tb startRow endRow) row =
     (0 <=? row) && (row <? m_rows tb) && (startRow <=? row) && (row <? endRow)
     || IsDirty tb row).
Proof.
  intros tb. apply (marking_is_monotone tb). reflexivity.
Defined.

Lemma SetCell_GetCell_witness :
  let tb := {| m_rows := 3; m_cols := 2; m_maxScrollback := 5;
               m_screen := [replicate 2 Cell_default; replicate 3 Cell_default;
                            replicate 2 Cell_default];
               m_scrollback := []; m_dirty := [false; false; false] |} in
  let cell := {| charCode := 97; combining := [0; 0; 0];
                 fg := CellColor_Rgb 1 2 3; bg := CellColor_Default;
                 attrs := CellAttributes_default; width := 1 |} in
  let tb' := SetCell tb 1 1 cell in
  (forall r c,
     GetCell_const tb' r c =
     if (r =? 1) && (c =? 1) then cell else GetCell_const tb r c) /\
  (forall r, IsDirty tb' r = (r =? 1) || IsDirty tb r) /\
  m_scrollback tb' = m_scrollback tb /\
  length <$> m_screen tb' = length <$> m_screen tb /\
  in_bounds tb' /\ (wf tb -> wf tb').
Proof.
  intros tb cell. apply (SetCell_GetCell tb 1 1 cell).
  - repeat split; simpl; try lia. repeat constructor; simpl; lia.
  - reflexivity.
Defined.

Lemma Scroll_up_region_witness :
  let line (s : list Z) : Row :=
    (fun c => {| charCode := c; combining := [0; 0; 0];
                 fg := CellColor_Default; bg := CellColor_Default;
                 attrs := CellAttributes_default; width := 1 |}) <$> s in
  let tb := {| m_rows := 3; m_cols := 2; m_maxScrollback := 5;
               m_screen := [line [97; 98]; line [99; 100]; line [101; 102]];
               m_scrollback := [line [120; 121]]; m_dirty := [false; false; false] |} in
  let tb' := Scroll tb 2 0 3 in
  let blank := blank_row (m_cols tb) in
  (forall row, 0 <= row < m_rows tb ->
     row_at (m_screen tb') row =
     if (0 <=? row) && (row <? 3)
     then if row + 2 <? 3 then row_at (m_screen tb) (row + 2) else blank
     else row_at (m_screen tb) row) /\
  m_scrollback tb' =
    take (Z.to_nat (m_maxScrollback tb))
      ((if 0 =? 0
        then rev (take (Z.to_nat 2)
                    (take (Z.to_nat 3) (m_screen tb)
                     ++ replicate (Z.to_nat 2) blank))
        else []) ++ m_scrollback tb) /\
  (forall row, IsDirty tb' row = (0 <=? row) && (row <? 3) || IsDirty tb row) /\
  wf tb'.
Proof.
  intros line tb. apply (Scroll_up_region tb 2 0 3); simpl; try lia.
  repeat split; simpl; try lia. repeat constructor.
Defined.

Lemma Scroll_down_region_witness :
  let line (s : list Z) : Row :=
    (fun c => {| charCode := c; combining := [0; 0; 0];
                 fg := CellColor_Default; bg := CellColor_Default;
                 attrs := CellAttributes_default; width := 1 |}) <$> s in
  let tb := {| m_rows := 3; m_cols := 2; m_maxScrollback := 5;
               m_screen := [line [97; 98]; line [99; 100]; line [101; 102]];
               m_scrollback := [line [120; 121]]; m_dirty := [false; false; false] |} in
  let tb' := Scroll tb (-2) 0 3 in
  let blank := blank_row (m_cols tb) in
  let restored (j : Z) :=
    if 0 =? 0 then default blank (m_scrollback tb !! Z.to_nat j) else blank in
  (forall row, 0 <= row < m_rows tb ->
     row_at (m_screen tb') row =
     if (0 <=? row) && (row <? 3)
     then if 0 - -2 <=? row then row_at (m_screen tb) (row + -2)
          else restored (- -2 - 1 - (row - 0))
     else row_at (m_screen tb) row) /\
  m_scrollback tb' =
    (if 0 =? 0 then drop (Z.to_nat (- -2)) (m_scrollback tb)
     else m_scrollback tb) /\
  (forall row, IsDirty tb' row = (0 <=? row) && (row <? 3) || IsDirty tb row).
Proof.
  intros line tb. apply (Scroll_down_region tb (-2) 0 3).
  - repeat split; simpl; try lia. repeat constructor.
  - unfold INT_MIN. lia.
  - lia.
  - simpl. lia.
Defined.

Lemma Resize_content_witness :
  let line (s : list Z) : Row :=
    (fun c => {| charCode := c; combining := [0; 0; 0];
                 fg := CellColor_Default; bg := CellColor_Default;
                 attrs := CellAttributes_default; width := 1 |}) <$> s in
  let tb := {| m_rows := 3; m_cols := 2; m_maxScrollback := 5;
               m_screen := [line [97; 98]; line [99; 100]; line [101; 102]];
               m_scrollback := [line [120; 121]]; m_dirty := [false; false; false] |} in
  let tb' := Resize tb 2 4 in
  let removed := Z.max 0 (m_rows tb - 2) in
  (forall r c,
     GetCell_const tb' r c =
     if (0 <=? r) && (r <? 2) && (0 <=? c) && (c <? 4)
     then GetCell_const tb (r + removed) c
     else s_emptyCell) /\
  m_scrollback tb' =
    take (Z.to_nat (if 2 <? m_rows tb then m_maxScrollback tb
                    else Z.of_nat (length (m_scrollback tb))))
      (rev (take (Z.to_nat removed) (m_screen tb)) ++ m_scrollback tb) /\
  m_maxScrollback tb' = m_maxScrollback tb.
Proof.
  intros line tb. apply (Resize_content tb 2 4); try lia.
  repeat split; simpl; try lia. repeat constructor.
Defined.

Lemma ScrollUp_ScrollDown_witness :
  let line (s : list Z) : Row :=
    (fun c => {| charCode := c; combining := [0; 0; 0];
                 fg := CellColor_Default; bg := CellColor_Default;
                 attrs := CellAttributes_default; width := 1 |}) <$> s in
  let tb := {| m_rows := 3; m_cols := 2; m_maxScrollback := 5;
               m_screen := [line [97; 98]; line [99; 100]; line [101; 102]];
               m_scrollback := [line [120; 121]]; m_dirty := [false; false; false] |} in
  m_screen (ScrollUp tb) = drop 1 (m_screen tb) ++ [blank_row (m_cols tb)] /\
  m_scrollback (ScrollUp tb) =
    take (Z.to_nat (m_maxScrollback tb)) (row_at (m_screen tb) 0 :: m_scrollback tb) /\
  m_screen (ScrollDown (ScrollUp tb)) = m_screen tb /\
  m_scrollback (ScrollDown (ScrollUp tb)) =
    take (Z.to_nat (m_maxScrollback tb - 1)) (m_scrollback tb).
Proof.
  intros line tb. apply (ScrollUp_ScrollDown tb); simpl; try lia.
  repeat split; simpl; try lia. repeat constructor.
Defined.

Lemma Scroll_single_row_witness :
  let tb := {| m_rows := 1; m_cols := 2; m_maxScrollback := 5;
               m_screen := [replicate 2 Cell_default];
               m_scrollback := []; m_dirty := [false] |} in
  Scroll tb 1 0 (-1) = tb.
Proof.
  intros tb. apply (Scroll_single_row tb 1 0 (-1)). reflexivity.
Defined.

Lemma ClearRange_cells_witness :
  let line (s : list Z) : Row :=
    (fun c => {| charCode := c; combining := [0; 0; 0];
                 fg := CellColor_Default; bg := CellColor_Default;
                 attrs := CellAttributes_default; width := 1 |}) <$> s in
  let tb := {| m_rows := 2; m_cols := 3; m_maxScrollback := 5;
               m_screen := [line [97; 98; 99]; line [100; 101; 102; 103]];
               m_scrollback := []; m_dirty := [false; false] |} in
  let tb' := ClearRange tb 1 1 7 in
  (forall r c,
     GetCell_const tb' r c =
     if (r =? 1) && (1 <=? c) && (c <? 7) then Cell_default
     else GetCell_const tb r c) /\
  (forall r, IsDirty tb' r = (r =? 1) || IsDirty tb r) /\
  m_scrollback tb' = m_scrollback tb /\
  length <$> m_screen tb' = length <$> m_screen tb /\
  in_bounds tb' /\ (wf tb -> wf tb').
Proof.
  intros line tb. apply (ClearRange_cells tb 1 1 7).
  - repeat split; simpl; try lia. repeat constructor; simpl; lia.
  - simpl. lia.
Defined.

Lemma ClearScreen_blank_witness :
  let line (s : list Z) : Row :=
    (fun c => {| charCode := c; combining := [0; 0; 0];
                 fg := CellColor_Default; bg := CellColor_Default;
                 attrs := CellAttributes_default; width := 1 |}) <$> s in
  let tb := {| m_rows := 2; m_cols := 3; m_maxScrollback := 5;
               m_screen := [line [97; 98; 99; 100]; line [101; 102; 103]];
               m_scrollback := [line [120; 121; 122]];
               m_dirty := [false; false] |} in
  let tb' := ClearScreen tb in
  let cleared (row : list Cell) :=
    blank_row (m_cols tb) ++ drop (Z.to_nat (m_cols tb)) row in
  m_screen tb' = cleared <$> m_screen tb /\
  (forall r c, GetCell_const tb' r c = Cell_default) /\
  GetDirtyRows tb' = seqZ 0 (m_rows tb) /\
  m_scrollback tb' = m_scrollback tb /\
  in_bounds tb' /\
  (wf tb ->
   m_screen tb' = replicate (Z.to_nat (m_rows tb)) (blank_row (m_cols tb)) /\
   GetAllText tb' = replicate (Z.to_nat (m_rows tb - 1)) 10 /\
   wf tb').
Proof.
  intros line tb. apply (ClearScreen_blank tb).
  repeat split; simpl; try lia. repeat constructor; simpl; lia.
Defined.

Lemma invariant_exec_witness :
  let line (s : list Z) : Row :=
    (fun c => {| charCode := c; combining := [0; 0; 0];
                 fg := CellColor_Default; bg := CellColor_Default;
                 attrs := CellAttributes_default; width := 1 |}) <$> s in
  let tb := {| m_rows := 3; m_cols := 2; m_maxScrollback := 5;
               m_screen := [line [97; 98]; line [99; 100]; line [101; 102]];
               m_scrollback := [line [120; 121]]; m_dirty := [false; false; false] |} in
  wf (exec tb CallScrollDown) /\ capped (exec tb CallScrollDown) /\
  (keeps_width tb CallScrollDown -> uniform tb -> uniform (exec tb CallScrollDown)).
Proof.
  intros line tb. apply (invariant_exec tb CallScrollDown).
  - repeat split; simpl; try lia. repeat constructor.
  - unfold capped. simpl. lia.
  - exact I.
  - intros _. repeat constructor.
Defined.

Lemma ScrollDown_restores_old_width_witness :
  let line (s : list Z) : Row :=
    (fun c => {| charCode := c; combining := [0; 0; 0];
                 fg := CellColor_Default; bg := CellColor_Default;
                 attrs := CellAttributes_default; width := 1 |}) <$> s in
  let tb := {| m_rows := 3; m_cols := 2; m_maxScrollback := 5;
               m_screen := [line [97; 98]; line [99; 100]; line [101; 102]];
               m_scrollback := []; m_dirty := [false; false; false] |} in
  let tb' := ScrollDown (Resize (ScrollUp tb) (m_rows tb) 4) in
  m_cols tb' = 4 /\
  row_at (m_screen tb') 0 = row_at (m_screen tb) 0 /\
  Z.of_nat (length (row_at (m_screen tb') 0)) = m_cols tb /\
  ~ wf tb'.
Proof.
  intros line tb. apply (ScrollDown_restores_old_width tb 4); simpl; try lia.
  repeat split; simpl; try lia. repeat constructor.
Defined.

Lemma utf8_encode_decodable_witness :
  match utf8_encode 8364 with
  | [b0] => 8364 < 128 /\ b0 = 8364
  | [b0; b1] =>
      128 <= 8364 < 2048 /\ 192 <= b0 < 224 /\ 128 <= b1 < 192 /\
      8364 = (b0 - 192) * 64 + (b1 - 128)
  | [b0; b1; b2] =>
      2048 <= 8364 < 65536 /\ 224 <= b0 < 240 /\ 128 <= b1 < 192 /\ 128 <= b2 < 192 /\
      8364 = (b0 - 224) * 4096 + (b1 - 128) * 64 + (b2 - 128)
  | [b0; b1; b2; b3] =>
      65536 <= 8364 /\ 240 <= b0 < 248 /\ 128 <= b1 < 192 /\ 128 <= b2 < 192 /\
      128 <= b3 < 192 /\
      8364 = (b0 - 240) * 262144 + (b1 - 128) * 4096 + (b2 - 128) * 64 + (b3 - 128)
  | _ => False
  end.
Proof.
  apply (utf8_encode_decodable 8364). lia.
Defined.

End TerminalBufferFacts.

(** ** Key translation *)

Module TerminalViewFacts.
Import Cxx TerminalView.

(** C9.  A press of an arrow key sends ESC [ A/B/C/D when no modifier is
    held, and ESC [ 1 ; M A/B/C/D with
    M = 1 + (shift ? 1 : 0) + (alt ? 2 : 0) + (ctrl ? 4 : 0) otherwise; Up with
    shift and ctrl sends ESC [ 1 ; 6 A. *)
Theorem arrow_key_sequences (a : Arrow) (keys : KeyState) (nRepCnt nFlags : Z) :
  let M := 1 + (if shift keys then 1 else 0) + (if alt keys then 2 else 0)
             + (if ctrl keys then 4 else 0) in
  OnKeyDown true keys (arrow_vkey a) nRepCnt nFlags =
    (if shift keys || alt keys || ctrl keys
     then [[27; 91; 49; 59; 48 + M; arrow_final a]]
     else [[27; 91; arrow_final a]]) /\
  OnKeyDown true {| ctrl := true; alt := false; shift := true |} VK_UP nRepCnt nFlags =
    [[27; 91; 49; 59; 54; 65]].
Proof.
  unfold OnKeyDown. generalize (Z.land nFlags 255) as scanCode. intros scanCode.
  split; [| reflexivity].
  destruct a, keys as [[] [] []]; reflexivity.
Qed.

(** Nothing is sent on a key release or while no callback is registered. *)
Lemma SendKeyToTerminal_silent has_callback keys vkey scanCode keyDown :
  keyDown = false \/ has_callback = false ->
  SendKeyToTerminal has_callback keys vkey scanCode keyDown = [].
Proof. intros [-> | ->]; unfold SendKeyToTerminal; by rewrite ?orb_true_r. Qed.

(** *** Letter keys and the shape of what is sent *)

Lemma key_sequence_letter vkey keys modParam :
  65 <= vkey <= 90 -> key_sequence vkey keys modParam = None.
Proof.
  intros Hv. unfold key_sequence, VK_UP, VK_DOWN, VK_RIGHT, VK_LEFT, VK_HOME, VK_END,
    VK_INSERT, VK_DELETE, VK_PRIOR, VK_NEXT, VK_F1, VK_F2, VK_F3, VK_F4, VK_F5, VK_F6,
    VK_F7, VK_F8, VK_F9, VK_F10, VK_F11, VK_F12, VK_ESCAPE, VK_TAB.
  repeat match goal with
         | |- context [vkey =? ?k] => destruct (Z.eqb_spec vkey k); [lia |]
         end.
  done.
Qed.

(** X22.  A letter key with Ctrl alone sends the control character of the
    letter, with Alt alone it sends ESC and the letter (lower case unless
    Shift is down), and with Ctrl and Alt together, or with neither, the key
    handler sends nothing. *)
Theorem letter_keys (keys : KeyState) (vkey scanCode : Z) :
  65 <= vkey <= 90 ->
  SendKeyToTerminal true keys vkey scanCode true =
    if ctrl keys && negb (alt keys) then [[vkey - 64]]
    else if alt keys && negb (ctrl keys)
         then [[27; if shift keys then vkey else vkey + 32]]
         else [].
Proof.
  intros Hv. unfold SendKeyToTerminal. cbn [negb orb].
  destruct (Z.leb_spec 65 vkey); [| lia]. destruct (Z.leb_spec vkey 90); [| lia].
  unfold VK_OEM_4. destruct (Z.eqb_spec vkey 219); [lia |].
  rewrite !andb_true_r, !andb_false_r.
  destruct (ctrl keys), (alt keys); cbn [andb negb].
  - by rewrite key_sequence_letter.
  - unfold to_uint8. f_equal. f_equal. rewrite Z.mod_small; lia.
  - unfold to_uint8. f_equal. f_equal. f_equal.
    destruct (shift keys); rewrite Z.mod_small; lia.
  - by rewrite key_sequence_letter.
Qed.

(** X23.  Whatever the key and the modifiers, the key handler calls the
    callback at most once, with one to six bytes, each of them a 7-bit
    character other than NUL. *)
Theorem SendKeyToTerminal_shape (has_callback : bool) (keys : KeyState)
    (vkey scanCode : Z) (keyDown : bool) :
  (length (SendKeyToTerminal has_callback keys vkey scanCode keyDown) <= 1)%nat /\
  Forall (fun seq : list Z =>
            (1 <= length seq <= 6)%nat /\ Forall (fun b => 1 <= b <= 127) seq)
         (SendKeyToTerminal has_callback keys vkey scanCode keyDown).
Proof.
  unfold SendKeyToTerminal.
  destruct (negb keyDown || negb has_callback); [by split; [cbn; lia | constructor] |].
  destruct (ctrl keys && negb (alt keys) && (65 <=? vkey) && (vkey <=? 90)) eqn:Hc.
  { rewrite !andb_true_iff, Z.leb_le, Z.leb_le in Hc.
    split; [cbn; lia |]. repeat constructor; cbn; try lia;
      unfold to_uint8; rewrite Z.mod_small; lia. }
  destruct (ctrl keys && negb (alt keys) && (vkey =? VK_OEM_4)).
  { split; [cbn; lia |]. repeat constructor; cbn; lia. }
  destruct (alt keys && negb (ctrl keys) && (65 <=? vkey) && (vkey <=? 90)) eqn:Ha.
  { rewrite !andb_true_iff, Z.leb_le, Z.leb_le in Ha.
    split; [cbn; lia |]. repeat constructor; cbn; try lia;
      unfold to_uint8; destruct (shift keys); rewrite Z.mod_small; lia. }
  clear Hc Ha. unfold key_sequence.
  destruct keys as [[] [] []]; cbn [ctrl alt shift];
    repeat match goal with
           | |- context [vkey =? ?k] =>
               destruct (Z.eqb_spec vkey k);
               [split; [cbn; lia | vm_compute; repeat constructor; discriminate] |]
           end;
    (split; [cbn; lia | constructor]).
Qed.

(** *** Typed characters *)


(** *** The selection *)

Lemma reversed_swap a b c d : reversed a b c d = true -> reversed c d a b = false.
Proof.
  unfold reversed. rewrite orb_true_iff, andb_true_iff, !Z.ltb_lt, Z.eqb_eq.
  intros H. apply orb_false_iff. rewrite andb_false_iff, !Z.ltb_ge, Z.eqb_neq. lia.
Qed.

Lemma reversed_neither a b c d :
  reversed a b c d = false -> reversed c d a b = false -> a = c /\ b = d.
Proof.
  unfold reversed. rewrite !orb_false_iff, !andb_false_iff, !Z.ltb_ge, !Z.eqb_neq. lia.
Qed.

(** X25.  An active selection contains the positions from its first end
    point, in reading order, up to but not including its second one; which
    end point was set first makes no difference to what is contained or to
    the selected text, and neither does [Normalize]. *)
Theorem Contains_reading_order (s : Selection) (row col : Z) :
  active s = true ->
  let first_is_start :=
    negb (reversed (startRow s) (startCol s) (endRow s) (endCol s)) in
  let r1 := if first_is_start then startRow s else endRow s in
  let c1 := if first_is_start then startCol s else endCol s in
  let r2 := if first_is_start then endRow s else startRow s in
  let c2 := if first_is_start then endCol s else startCol s in
  let swapped := {| startRow := endRow s; startCol := endCol s;
                    endRow := startRow s; endCol := startCol s; active := true |} in
  (Contains s row col = true <->
   ~ before row col r1 c1 /\ before row col r2 c2) /\
  Contains (Normalize s) row col = Contains s row col /\
  Contains swapped row col = Contains s row col /\
  (forall buffer, GetText (Normalize s) buffer = GetText s buffer) /\
  (forall buffer, GetText swapped buffer = GetText s buffer).
Proof.
  intros Hact. destruct s as [sr sc er ec act]. cbn [active] in Hact. subst act.
  cbn [startRow startCol endRow endCol]. cbv zeta.
  split; [| split; [| split; [| split]]].
  - unfold Contains, before. cbn [startRow startCol endRow endCol active negb].
    destruct (reversed sr sc er ec) eqn:Hrv; cbn [negb]; unfold reversed in Hrv;
      [apply orb_true_iff in Hrv;
       rewrite andb_true_iff, Z.ltb_lt, Z.eqb_eq, Z.ltb_lt in Hrv
      | apply orb_false_iff in Hrv;
        rewrite andb_false_iff, Z.ltb_ge, Z.eqb_neq, Z.ltb_ge in Hrv];
      repeat (match goal with
              | |- context [?a <? ?b] => destruct (Z.ltb_spec a b)
              | |- context [?a <=? ?b] => destruct (Z.leb_spec a b)
              | |- context [?a =? ?b] => destruct (Z.eqb_spec a b)
              end; cbn [orb andb]);
      split; intros; try done; try lia.
  - unfold Contains, Normalize. cbn [startRow startCol endRow endCol active negb].
    destruct (reversed sr sc er ec) eqn:Hrv;
      cbn [startRow startCol endRow endCol active negb].
    + by rewrite (reversed_swap _ _ _ _ Hrv).
    + by rewrite Hrv.
  - unfold Contains. cbn [startRow startCol endRow endCol active negb].
    destruct (reversed sr sc er ec) eqn:Hrv.
    + by rewrite (reversed_swap _ _ _ _ Hrv).
    + destruct (reversed er ec sr sc) eqn:Hrv'; [done |].
      by destruct (reversed_neither _ _ _ _ Hrv Hrv') as [-> ->].
  - intros buffer. unfold GetText, Normalize.
    cbn [startRow startCol endRow endCol active negb].
    destruct (reversed sr sc er ec) eqn:Hrv;
      cbn [startRow startCol endRow endCol active negb].
    + by rewrite (reversed_swap _ _ _ _ Hrv).
    + by rewrite Hrv.
  - intros buffer. unfold GetText. cbn [startRow startCol endRow endCol active negb].
    destruct (reversed sr sc er ec) eqn:Hrv.
    + by rewrite (reversed_swap _ _ _ _ Hrv).
    + destruct (reversed er ec sr sc) eqn:Hrv'; [done |].
      by destruct (reversed_neither _ _ _ _ Hrv Hrv') as [-> ->].
Qed.

(** X26.  The selected text is UTF-16: a code point of the basic plane is one
    code unit, and a code point above it, up to U+10FFFF, is a high surrogate
    followed by a low surrogate from which the code point can be read back. *)
Theorem utf16_encode_decodable (cp : Z) :
  0 <= cp < 1114112 ->
  match utf16_encode cp with
  | [u] => cp <= 65535 /\ u = cp
  | [hi; lo] =>
      65536 <= cp /\ 55296 <= hi < 56320 /\ 56320 <= lo < 57344 /\
      cp = 65536 + (hi - 55296) * 1024 + (lo - 56320)
  | _ => False
  end.
Proof.
  intros Hcp. unfold utf16_encode, to_wchar_t.
  destruct (Z.leb_spec cp 65535).
  { split; [done |]. apply Z.mod_small. lia. }
  pose proof (Z.div_mod (cp - 65536) 1024 ltac:(lia)) as Hdm.
  pose proof (Z.mod_pos_bound (cp - 65536) 1024 ltac:(lia)) as Hm.
  assert (Hd : 0 <= (cp - 65536) / 1024 < 1024).
  { split; [apply Z.div_pos; lia | apply Z.div_lt_upper_bound; lia]. }
  rewrite Z.shiftr_div_pow2 by lia. change (2 ^ 10) with 1024.
  change 1023 with (Z.ones 10). rewrite Z.land_ones by lia. change (2 ^ 10) with 1024.
  rewrite (TerminalBufferFacts.lor_disjoint 55296 _ 10) by (done || lia).
  rewrite (TerminalBufferFacts.lor_disjoint 56320 _ 10) by (done || lia).
  rewrite !Z.mod_small by lia. lia.
Qed.

Lemma letter_keys_witness :
  SendKeyToTerminal true {| ctrl := true; alt := false; shift := false |} 67 46 true =
    if ctrl {| ctrl := true; alt := false; shift := false |}
       && negb (alt {| ctrl := true; alt := false; shift := false |})
    then [[67 - 64]]
    else if alt {| ctrl := true; alt := false; shift := false |}
            && negb (ctrl {| ctrl := true; alt := false; shift := false |})
         then [[27; if shift {| ctrl := true; alt := false; shift := false |}
                    then 67 else 67 + 32]]
         else [].
Proof.
  apply (letter_keys {| ctrl := true; alt := false; shift := false |} 67 46). lia.
Defined.


Lemma Contains_reading_order_witness :
  let s := {| startRow := 4; startCol := 7; endRow := 2; endCol := 3; active := true |} in
  let first_is_start :=
    negb (reversed (startRow s) (startCol s) (endRow s) (endCol s)) in
  let r1 := if first_is_start then startRow s else endRow s in
  let c1 := if first_is_start then startCol s else endCol s in
  let r2 := if first_is_start then endRow s else startRow s in
  let c2 := if first_is_start then endCol s else startCol s in
  let swapped := {| startRow := endRow s; startCol := endCol s;
                    endRow := startRow s; endCol := startCol s; active := true |} in
  (Contains s 3 0 = true <->
   ~ before 3 0 r1 c1 /\ before 3 0 r2 c2) /\
  Contains (Normalize s) 3 0 = Contains s 3 0 /\
  Contains swapped 3 0 = Contains s 3 0 /\
  (forall buffer, GetText (Normalize s) buffer = GetText s buffer) /\
  (forall buffer, GetText swapped buffer = GetText s buffer).
Proof.
  intros s. apply (Contains_reading_order s 3 0). reflexivity.
Defined.

Lemma utf16_encode_decodable_witness :
  match utf16_encode 128512 with
  | [u] => 128512 <= 65535 /\ u = 128512
  | [hi; lo] =>
      65536 <= 128512 /\ 55296 <= hi < 56320 /\ 56320 <= lo < 57344 /\
      128512 = 65536 + (hi - 55296) * 1024 + (lo - 56320)
  | _ => False
  end.
Proof.
  apply (utf16_encode_decodable 128512). lia.
Defined.

End TerminalViewFacts.

(** ** Session: parser reports, PTY output, reader failures *)

Module SessionFacts.
Import Cxx Session.

(** *** Handlers and the grid's scrollback *)

Lemma for_each_preserves {S A} (P : S -> Prop) (xs : list A) (body : A -> M S unit) :
  (forall x s, P s -> P (snd (body x s))) ->
  forall s, P s -> P (snd (for_each xs body s)).
Proof.
  intros Hbody. induction xs as [| x xs IH]; intros s Hs; [done |].
  cbn [for_each]. unfold mbind.
  specialize (Hbody x s Hs).
  destruct (body x s) as [[[] | e] s']; cbn [snd] in *; auto.
Qed.

Lemma MarkDirty_scrollback tb row :
  TerminalBuffer.m_scrollback (TerminalBuffer.MarkDirty tb row) =
  TerminalBuffer.m_scrollback tb.
Proof. unfold TerminalBuffer.MarkDirty. by destruct (_ && _). Qed.

Lemma damage_buffer_scrollback view sr er sc ec tb :
  TerminalBuffer.m_scrollback (snd (damage_buffer view sr er sc ec tb)) =
  TerminalBuffer.m_scrollback tb.
Proof.
  unfold damage_buffer.
  apply (for_each_preserves
           (fun tb' => TerminalBuffer.m_scrollback tb' = TerminalBuffer.m_scrollback tb));
    [| done].
  intros row tb1 H1. unfold mbind.
  assert (Hinner : TerminalBuffer.m_scrollback
            (snd (for_each (seqZ sc (ec - sc)) (fun col tb0 =>
               match TerminalBuffer.GetCell tb0 row col with
               | Ok ref => (Ok tt, TerminalBuffer.store tb0 ref (copy_cell (view row col)))
               | Throw e => (Throw e, tb0)
               end) tb1)) = TerminalBuffer.m_scrollback tb).
  { apply (for_each_preserves
             (fun tb' => TerminalBuffer.m_scrollback tb' = TerminalBuffer.m_scrollback tb));
      [| done].
    intros col tb2 H2. by destruct (TerminalBuffer.GetCell tb2 row col). }
  destruct (for_each _ _ tb1) as [[[] | e] tb3]; cbn [snd] in *; [| done].
  unfold modify; cbn [snd]. by rewrite MarkDirty_scrollback.
Qed.

Lemma OnVTermDamage_scrollback view sr er sc ec c :
  scrollback_of (snd (OnVTermDamage view sr er sc ec c)) = scrollback_of c.
Proof.
  unfold OnVTermDamage, scrollback_of.
  destruct (m_buffer c) as [tb |] eqn:Hb; cbn [snd]; [| by rewrite Hb].
  pose proof (damage_buffer_scrollback view sr er sc ec tb) as Hd.
  by destruct (damage_buffer view sr er sc ec tb).
Qed.

Lemma OnVTermPropChange_scrollback props c :
  scrollback_of (snd (OnVTermPropChange props c)) = scrollback_of c.
Proof. unfold OnVTermPropChange, modify; cbn [snd]. by destruct (_ && _). Qed.

Section Reports.
Context (MB : list Z -> list Z).

Lemma dispatch_wired vt rep :
  wired vt ->
  wired (fst (VTermWrapper.dispatch MB vt rep)) /\
  forall c, scrollback_of (snd (snd (VTermWrapper.dispatch MB vt rep) c)) = scrollback_of c.
Proof.
  intros (Hd & Hp & Hm & Hb & Hr & Ho & Hs).
  destruct rep; cbn [VTermWrapper.dispatch fst snd].
  - split; [done |]. intros c. unfold VTermWrapper.OnDamage. rewrite Hd.
    apply OnVTermDamage_scrollback.
  - split; [done |]. intros c. unfold VTermWrapper.OnMoveRect. rewrite Hd.
    cbn [VTermWrapper.call_if_set]. unfold mbind.
    pose proof (OnVTermDamage_scrollback (VTermWrapper.GetCell screen)
                  (VTermWrapper.start_row src) (VTermWrapper.end_row src)
                  (VTermWrapper.start_col src) (VTermWrapper.end_col src) c) as H1.
    destruct (OnVTermDamage _ _ _ _ _ c) as [[[] | e] c1]; cbn [snd] in *; [| done].
    by rewrite OnVTermDamage_scrollback.
  - unfold VTermWrapper.OnMoveCursor; cbn [fst snd]. split; [done |].
    intros c. by rewrite Hm.
  - unfold VTermWrapper.OnSetTermProp.
    destruct (VTermWrapper.apply_prop MB (VTermWrapper.m_props vt) change)
      as [props changed]. cbn [fst snd]. split; [done |].
    intros c. destruct changed; [| done]. rewrite Hp.
    apply OnVTermPropChange_scrollback.
  - split; [done |]. intros c. unfold VTermWrapper.OnBell. by rewrite Hb.
  - split; [done |]. intros c. unfold VTermWrapper.OnResize. by rewrite Hr.
  - split; [done |]. intros c. unfold VTermWrapper.OnScrollbackPush. by rewrite Hs.
  - done.
  - split; [done |]. intros c. unfold VTermWrapper.OnOutput. by rewrite Ho.
Qed.

Lemma on_report_started s rep :
  started s ->
  started (fst (on_report MB s rep)) /\
  scrollback_of (core (fst (on_report MB s rep))) = scrollback_of (core s).
Proof.
  intros (vt & Hvt & Hw). unfold on_report. rewrite Hvt.
  destruct (dispatch_wired vt rep Hw) as [Hw' Hsb].
  destruct (VTermWrapper.dispatch MB vt rep) as [vt' effect]. cbn [fst snd] in *.
  specialize (Hsb (core s)).
  destruct (effect (core s)) as [res c']. cbn [fst snd core] in *.
  split; [by exists vt' | done].
Qed.

Lemma on_reports_started s reps :
  started s ->
  started (fst (on_reports MB s reps)) /\
  scrollback_of (core (fst (on_reports MB s reps))) = scrollback_of (core s).
Proof.
  revert s. induction reps as [| rep reps IH]; intros s Hs; [done |].
  cbn [on_reports].
  destruct (on_report_started s rep Hs) as [Hs' Hsb].
  destruct (on_report MB s rep) as [s' [[] | e]]; cbn [fst] in *; [| done].
  destruct (IH s' Hs') as [Hs'' Hsb']. split; [done | congruence].
Qed.


End Reports.

Lemma Start_started s0 config env s :
  Start s0 config env = (s, true) ->
  started s /\ scrollback_of (core s) = [] /\ m_state (core s) = Running /\
  exists pty, m_pty s = Some pty /\
    PtySession.m_outputCallback pty = Some OnPtyOutput /\
    PtySession.m_exitCallback pty = Some OnPtyExit.
Proof.
  unfold Start.
  destruct (m_state (core s0)); try done;
    (destruct (TerminalBuffer.create _) as [tb |] eqn:Hc; [| done];
     destruct (vterm_new_ok env); [| done];
     destruct (pty_start_ok env); [| done];
     cbn [negb]; intros [= <-];
     (split; [eexists; split; [done | by repeat split] |]);
     (split; [| split; [done | eexists; by repeat split]]);
     unfold scrollback_of; cbn;
     unfold TerminalBuffer.create in Hc;
     destruct (_ || _); [done | by injection Hc as <-]).
Qed.




(** *** PTY output and the ring buffer *)

(** [OnPtyOutput] makes one [Write]: the queue grows by what fits, and the
    bytes past the free capacity are not queued. *)
Lemma OnPtyOutput_queue c rb data :
  m_outputBuffer c = Some rb -> RingBuffer.wf rb ->
  exists rb',
    m_outputBuffer (snd (OnPtyOutput data c)) = Some rb' /\
    RingBuffer.wf rb' /\
    RingBuffer.contents rb' =
      RingBuffer.contents rb ++ take (Z.to_nat (RingBuffer.Available rb)) data.
Proof.
  intros Hrb Hwf. unfold OnPtyOutput, modify; cbn [snd]. rewrite Hrb.
  destruct (RingBufferFacts.Write_contents_take rb data Hwf) as [Hwf' Hc].
  by exists (fst (RingBuffer.Write rb data)).
Qed.

Lemma deliver_all_queued deliveries :
  forall c rb,
    m_outputBuffer c = Some rb -> RingBuffer.bounded rb ->
    queued (deliver_all c deliveries) =
    Z.min (RingBuffer.Size rb + Z.of_nat (length (concat deliveries)))
          (RingBuffer.Capacity rb).
Proof.
  induction deliveries as [| data deliveries IH]; intros c rb Hrb Hb.
  - unfold queued, deliver_all; cbn. rewrite Hrb.
    unfold RingBuffer.bounded in Hb. lia.
  - unfold deliver_all in *. cbn [foldl].
    destruct (RingBufferFacts.Size_Write rb data Hb) as [Hsize Hcap].
    rewrite (IH _ (fst (RingBuffer.Write rb data))).
    + rewrite Hsize, Hcap. cbn [concat]. rewrite length_app.
      unfold RingBuffer.bounded in Hb. lia.
    + unfold OnPtyOutput, modify; cbn [snd]. by rewrite Hrb.
    + by apply RingBufferFacts.bounded_Write.
Qed.

(** C2 at its failing input.  A session started with the default
    configuration receives sixteen PTY reads of 4096 bytes while the UI thread
    does not pump: 65536 bytes are delivered, 65535 are queued. *)
Theorem OnPtyOutput_drops_when_full :
  let env := {| vterm_new_ok := true; pty_start_ok := true |} in
  let s := fst (Start create SessionConfig_default env) in
  let deliveries := replicate 16 (replicate 4096 65) in
  Z.of_nat (length (concat deliveries)) = 65536 /\
  queued (deliver_all (core s) deliveries) = 65535.
Proof.
  intros env s deliveries. split; [by vm_compute |].
  rewrite (deliver_all_queued deliveries (core s) (RingBuffer.create 65536)).
  - by vm_compute.
  - reflexivity.
  - apply RingBufferFacts.bounded_create.
Qed.

(** *** The reader thread *)

(** Output deliveries leave the session's state and exit code alone. *)
Lemma OnPtyOutput_state data c :
  fst (OnPtyOutput data c) = Ok tt /\
  m_state (snd (OnPtyOutput data c)) = m_state c /\
  m_exitCode (snd (OnPtyOutput data c)) = m_exitCode c.
Proof. unfold OnPtyOutput, modify; cbn. by destruct (m_outputBuffer c). Qed.

Lemma reader_loop_until_failure (pty : PtySession.t Core) goods e rest :
  PtySession.m_outputCallback pty = Some OnPtyOutput ->
  Forall (fun round => delivers round = true) goods ->
  forall c,
    let rounds := goods ++
      {| PtySession.running_seen := true;
         PtySession.read_result := PtySession.ReadFailed e |} :: rest in
    fst (PtySession.reader_loop pty rounds c) = Ok true /\
    m_state (snd (PtySession.reader_loop pty rounds c)) = m_state c /\
    m_exitCode (snd (PtySession.reader_loop pty rounds c)) = m_exitCode c.
Proof.
  intros Hcb Hgoods. induction Hgoods as [| round goods Hround _ IH]; intros c.
  - done.
  - cbn [app PtySession.reader_loop]. cbn zeta in IH.
    unfold delivers in Hround.
    destruct (PtySession.running_seen round); [| done].
    destruct (PtySession.read_result round) as [data |]; [| done].
    cbn [negb andb] in *.
    destruct (length data =? 0)%nat; [done |].
    rewrite Hcb. unfold mbind.
    destruct (OnPtyOutput_state data c) as (Hok & Hst & Hcode).
    destruct (OnPtyOutput data c) as [res c1]. cbn [fst snd] in *. subst res.
    destruct (IH c1) as (H1 & H2 & H3). repeat split; congruence.
Qed.

(** C3, as the code has it.  When a blocking read of the reader thread
    fails, with whatever error, the loop ends and the thread runs to its
    end.  The session becomes Exited only if the child process has exited,
    and then with the child's exit code; otherwise it stays Running with its
    exit code untouched.  The error value reaches nothing. *)
Theorem reader_failure_outcome (s0 s : t) (config : SessionConfig) (env : StartEnv)
    (goods rest : list PtySession.Round) (e : Z) (proc : PtySession.ProcessInfo) :
  Start s0 config env = (s, true) ->
  Forall (fun round => delivers round = true) goods ->
  let rounds := goods ++
    {| PtySession.running_seen := true;
       PtySession.read_result := PtySession.ReadFailed e |} :: rest in
  exists pty,
    m_pty s = Some pty /\
    let '(res, c') := PtySession.IoThreadProc pty rounds proc (core s) in
    res = Ok (Some (PtySession.set_running pty false)) /\
    match PtySession.reported_exit proc with
    | Some exitCode => m_state c' = Exited /\ m_exitCode c' = exitCode
    | None => m_state c' = Running /\ m_exitCode c' = m_exitCode (core s)
    end.
Proof.
  intros HStart Hgoods rounds.
  destruct (Start_started s0 config env s HStart)
    as (_ & _ & Hrun & pty & Hpty & Hout & Hexit).
  exists pty. split; [done |].
  unfold PtySession.IoThreadProc, mbind.
  destruct (reader_loop_until_failure pty goods e rest Hout Hgoods (core s))
    as (Hres & Hst & Hcode).
  fold rounds in Hres, Hst, Hcode.
  destruct (PtySession.reader_loop pty rounds (core s)) as [res c1].
  cbn [fst snd] in *. subst res. rewrite Hexit.
  destruct (PtySession.reported_exit proc) as [exitCode |]; cbn.
  - done.
  - split; [done |]. split; congruence.
Qed.

Lemma reader_failure_outcome_witness :
  let env := {| vterm_new_ok := true; pty_start_ok := true |} in
  let s := fst (Start create SessionConfig_default env) in
  let rounds := [ {| PtySession.running_seen := true;
                     PtySession.read_result := PtySession.ReadOk [104; 105] |} ] ++
    {| PtySession.running_seen := true;
       PtySession.read_result := PtySession.ReadFailed 5 |} :: [] in
  let proc := {| PtySession.hProcess := true;
                 PtySession.GetExitCodeProcess := Some 3 |} in
  exists pty,
    m_pty s = Some pty /\
    let '(res, c') := PtySession.IoThreadProc pty rounds proc (core s) in
    res = Ok (Some (PtySession.set_running pty false)) /\
    match PtySession.reported_exit proc with
    | Some exitCode => m_state c' = Exited /\ m_exitCode c' = exitCode
    | None => m_state c' = Running /\ m_exitCode c' = m_exitCode (core s)
    end.
Proof.
  intros env s rounds proc.
  apply (reader_failure_outcome create s SessionConfig_default env).
  - reflexivity.
  - repeat constructor.
Defined.

(** C3 fails as stated: a read that fails with ERROR_ACCESS_DENIED (5), which
    is neither broken-pipe nor operation-aborted, leaves the session Running
    while the child is alive, and Exited with the child's code 0, not 5, once
    the child has exited; no callback other than the exit callback is made. *)
Lemma reader_error_not_surfaced :
  let env := {| vterm_new_ok := true; pty_start_ok := true |} in
  let s := SetExitCallback (fst (Start create SessionConfig_default env)) in
  let rounds := [ {| PtySession.running_seen := true;
                     PtySession.read_result := PtySession.ReadFailed 5 |} ] in
  let alive := {| PtySession.hProcess := true;
                  PtySession.GetExitCodeProcess := Some PtySession.STILL_ACTIVE |} in
  let exited := {| PtySession.hProcess := true;
                   PtySession.GetExitCodeProcess := Some 0 |} in
  5 <> PtySession.ERROR_BROKEN_PIPE /\ 5 <> PtySession.ERROR_OPERATION_ABORTED /\
  exists pty,
    m_pty s = Some pty /\
    m_state (snd (PtySession.IoThreadProc pty rounds alive (core s))) = Running /\
    notified (snd (PtySession.IoThreadProc pty rounds alive (core s))) = [] /\
    m_state (snd (PtySession.IoThreadProc pty rounds exited (core s))) = Exited /\
    m_exitCode (snd (PtySession.IoThreadProc pty rounds exited (core s))) = 0 /\
    notified (snd (PtySession.IoThreadProc pty rounds exited (core s))) = [ExitNotified 0].
Proof.
  cbv zeta. split; [done |]. split; [done |].
  eexists. split; [reflexivity |]. by vm_compute.
Qed.

(** *** Damage reports inside the grid *)

Lemma GetCell_in_grid tb row col :
  0 <= row < TerminalBuffer.m_rows tb -> 0 <= col < TerminalBuffer.m_cols tb ->
  TerminalBuffer.GetCell tb row col
  = Ok {| TerminalBuffer.ref_row := row; TerminalBuffer.ref_col := col |}.
Proof.
  intros Hr Hc.
  unfold TerminalBuffer.GetCell, TerminalBuffer.ValidateRow, TerminalBuffer.ValidateCol.
  destruct (Z.ltb_spec row 0); [lia |].
  destruct (Z.leb_spec (TerminalBuffer.m_rows tb) row); [lia |].
  destruct (Z.ltb_spec col 0); [lia |].
  destruct (Z.leb_spec (TerminalBuffer.m_cols tb) col); [lia |].
  done.
Qed.

Lemma damage_cols view row cols tb :
  TerminalBuffer.wf tb -> 0 <= row < TerminalBuffer.m_rows tb ->
  Forall (fun col => 0 <= col < TerminalBuffer.m_cols tb) cols -> NoDup cols ->
  exists tb',
    for_each cols (fun col tb0 =>
      match TerminalBuffer.GetCell tb0 row col with
      | Ok ref => (Ok tt, TerminalBuffer.store tb0 ref (copy_cell (view row col)))
      | Throw e => (Throw e, tb0)
      end) tb = (Ok tt, tb') /\
    TerminalBuffer.wf tb' /\
    TerminalBuffer.m_rows tb' = TerminalBuffer.m_rows tb /\
    TerminalBuffer.m_cols tb' = TerminalBuffer.m_cols tb /\
    TerminalBuffer.m_maxScrollback tb' = TerminalBuffer.m_maxScrollback tb /\
    TerminalBuffer.m_scrollback tb' = TerminalBuffer.m_scrollback tb /\
    TerminalBuffer.m_dirty tb' = TerminalBuffer.m_dirty tb /\
    (forall c, c ∈ cols ->
       TerminalBuffer.GetCell_const tb' row c
       = copy_cell (view row c) (TerminalBuffer.GetCell_const tb row c)) /\
    (forall r c, ~ (r = row /\ c ∈ cols) ->
       TerminalBuffer.GetCell_const tb' r c = TerminalBuffer.GetCell_const tb r c).
Proof.
  intros Hwf Hrow Hcols Hnd. revert tb Hwf Hrow Hcols.
  induction cols as [| col cols IH]; intros tb Hwf Hrow Hcols.
  { exists tb. cbn [for_each]. unfold ret.
    do 7 (split; [done |]). split; [| done].
    intros c Hc. by apply elem_of_nil in Hc. }
  apply Forall_cons_iff in Hcols as [Hcol Hcols]. pose proof (NoDup_cons_1_1 _ _ Hnd) as Hnin. apply NoDup_cons_1_2 in Hnd.
  cbn [for_each]. unfold mbind at 1. rewrite (GetCell_in_grid tb row col Hrow Hcol).
  unfold TerminalBuffer.store.
  cbn [TerminalBuffer.ref_row TerminalBuffer.ref_col].
  set (tb1 := TerminalBuffer.update_cell tb row col (copy_cell (view row col))).
  assert (Hin : TerminalBuffer.in_grid tb row col = true)
    by (apply TerminalBufferFacts.in_grid_range; lia).
  assert (Hwf1 : TerminalBuffer.wf tb1) by by apply TerminalBufferFacts.wf_update_cell.
  destruct (TerminalBufferFacts.update_cell_fields tb row col (copy_cell (view row col)))
    as (Hr1 & Hc1 & Hm1 & Hs1 & Hd1). fold tb1 in Hr1, Hc1, Hm1, Hs1, Hd1.
  destruct (IH Hnd tb1 Hwf1) as (tb' & Hrun & Hwf' & Hr' & Hc' & Hm' & Hs' & Hd' & Hin' & Hout');
    [lia | by rewrite Hc1 |].
  exists tb'. split; [exact Hrun |]. split; [exact Hwf' |].
  split; [lia |]. split; [lia |]. split; [lia |].
  split; [by rewrite Hs' |]. split; [by rewrite Hd' |].
  assert (Hone : forall r c, TerminalBuffer.GetCell_const tb1 r c =
            if (r =? row) && (c =? col)
            then copy_cell (view row col) (TerminalBuffer.GetCell_const tb row col)
            else TerminalBuffer.GetCell_const tb r c).
  { intros r c. unfold tb1.
    rewrite TerminalBufferFacts.GetCell_const_update_cell by done.
    by rewrite (TerminalBufferFacts.GetCell_const_in_grid tb row col), Hin. }
  split.
  - intros c Hc. apply elem_of_cons in Hc as [-> | Hc].
    + rewrite Hout' by (intros [_ ?]; done).
      by rewrite Hone, !Z.eqb_refl.
    + rewrite (Hin' c Hc), Hone.
      destruct (Z.eqb_spec c col) as [-> | ?]; [done |].
      by rewrite andb_false_r.
  - intros r c Hno. rewrite Hout'.
    + rewrite Hone. destruct (Z.eqb_spec r row) as [-> | ?]; [| done].
      destruct (Z.eqb_spec c col) as [-> | ?]; [| done].
      exfalso. apply Hno. split; [done | by left].
    + intros [-> Hc]. apply Hno. split; [done | by right].
Qed.

Lemma damage_rows view rows sc ec tb :
  TerminalBuffer.wf tb ->
  Forall (fun row => 0 <= row < TerminalBuffer.m_rows tb) rows -> NoDup rows ->
  0 <= sc -> ec <= TerminalBuffer.m_cols tb ->
  exists tb',
    for_each rows (fun row =>
      mbind
        (for_each (seqZ sc (ec - sc)) (fun col tb0 =>
           match TerminalBuffer.GetCell tb0 row col with
           | Ok ref => (Ok tt, TerminalBuffer.store tb0 ref (copy_cell (view row col)))
           | Throw e => (Throw e, tb0)
           end))
        (fun _ => modify (fun tb0 => TerminalBuffer.MarkDirty tb0 row))) tb
    = (Ok tt, tb') /\
    TerminalBuffer.wf tb' /\
    TerminalBuffer.m_rows tb' = TerminalBuffer.m_rows tb /\
    TerminalBuffer.m_cols tb' = TerminalBuffer.m_cols tb /\
    TerminalBuffer.m_maxScrollback tb' = TerminalBuffer.m_maxScrollback tb /\
    TerminalBuffer.m_scrollback tb' = TerminalBuffer.m_scrollback tb /\
    (forall r c, r ∈ rows -> sc <= c < ec ->
       TerminalBuffer.GetCell_const tb' r c
       = copy_cell (view r c) (TerminalBuffer.GetCell_const tb r c)) /\
    (forall r c, ~ (r ∈ rows /\ sc <= c < ec) ->
       TerminalBuffer.GetCell_const tb' r c = TerminalBuffer.GetCell_const tb r c) /\
    (forall r, r ∈ rows -> TerminalBuffer.IsDirty tb' r = true) /\
    (forall r, r ∉ rows -> TerminalBuffer.IsDirty tb' r = TerminalBuffer.IsDirty tb r).
Proof.
  intros Hwf Hrows Hnd Hsc Hec. revert tb Hwf Hrows Hec.
  induction rows as [| row rows IH]; intros tb Hwf Hrows Hec.
  { exists tb. cbn [for_each]. unfold ret.
    do 6 (split; [done |]). split; [| split; [done | split; [| done]]].
    - intros r c Hr. by apply elem_of_nil in Hr.
    - intros r Hr. by apply elem_of_nil in Hr. }
  apply Forall_cons_iff in Hrows as [Hrow Hrows]. pose proof (NoDup_cons_1_1 _ _ Hnd) as Hnin. apply NoDup_cons_1_2 in Hnd.
  cbn [for_each]. unfold mbind at 1. unfold mbind at 1.
  destruct (damage_cols view row (seqZ sc (ec - sc)) tb Hwf Hrow)
    as (tb1 & Hrun1 & Hwf1 & Hr1 & Hc1 & Hm1 & Hs1 & Hd1 & Hin1 & Hout1).
  { apply Forall_seqZ. intros c Hc. lia. }
  { apply NoDup_seqZ. }
  rewrite Hrun1. unfold modify at 1.
  set (tb2 := TerminalBuffer.MarkDirty tb1 row).
  assert (Hwf2 : TerminalBuffer.wf tb2) by by apply TerminalBufferFacts.wf_MarkDirty.
  destruct (TerminalBufferFacts.MarkDirty_fields tb1 row) as (Hr2 & Hc2 & Hm2 & _ & Hs2).
  fold tb2 in Hr2, Hc2, Hm2, Hs2.
  destruct (IH Hnd tb2 Hwf2)
    as (tb' & Hrun & Hwf' & Hr' & Hc' & Hm' & Hs' & Hin' & Hout' & Hdin' & Hdout');
    [by rewrite Hr2, Hr1 | lia |].
  assert (Hcell2 : forall r c, TerminalBuffer.GetCell_const tb2 r c
                               = TerminalBuffer.GetCell_const tb1 r c)
    by (intros; apply TerminalBufferFacts.GetCell_const_MarkDirty).
  assert (Hdirty2 : forall r, TerminalBuffer.IsDirty tb2 r =
            (0 <=? r) && (r <? TerminalBuffer.m_rows tb) && (r =? row)
            || TerminalBuffer.IsDirty tb r).
  { intros r. unfold tb2. rewrite TerminalBufferFacts.IsDirty_MarkDirty.
    - rewrite Hr1. unfold TerminalBuffer.IsDirty. by rewrite Hd1, Hr1.
    - destruct Hwf1 as (_ & _ & _ & _ & Hlen). exact Hlen. }
  exists tb'. split; [exact Hrun |]. split; [exact Hwf' |].
  split; [lia |]. split; [lia |]. split; [lia |].
  split; [by rewrite Hs', Hs2 |].
  split; [| split; [| split]].
  - intros r c Hr Hc. apply elem_of_cons in Hr as [-> | Hr].
    + rewrite Hout' by (intros [? _]; done).
      rewrite Hcell2. apply Hin1. apply elem_of_seqZ. lia.
    + rewrite (Hin' r c Hr Hc), Hcell2, Hout1; [done |].
      intros [-> _]. done.
  - intros r c Hno. rewrite Hout'.
    + rewrite Hcell2. apply Hout1. intros [-> Hc]. apply Hno.
      split; [by left |]. apply elem_of_seqZ in Hc. lia.
    + intros [Hr Hc]. apply Hno. split; [by right | done].
  - intros r Hr. apply elem_of_cons in Hr as [-> | Hr]; [| by apply Hdin'].
    rewrite (Hdout' row Hnin), Hdirty2, Z.eqb_refl.
    destruct (Z.leb_spec 0 row); [| lia].
    destruct (Z.ltb_spec row (TerminalBuffer.m_rows tb)); [done | lia].
  - intros r Hr. apply not_elem_of_cons in Hr as [Hne Hr].
    rewrite (Hdout' r Hr), Hdirty2.
    destruct (Z.eqb_spec r row); [done |]. by rewrite andb_false_r.
Qed.

(** X27.  A damage report for a rectangle inside the grid never throws: it
    copies the parser's cell into every cell of the rectangle, leaves every
    other cell, the scrollback and the dimensions as they were, and marks
    exactly the rows of the rectangle dirty in addition to those that were. *)
Theorem OnVTermDamage_copies view (startRow endRow startCol endCol : Z)
    (c : Core) (tb : TerminalBuffer.t) :
  m_buffer c = Some tb -> TerminalBuffer.wf tb ->
  0 <= startRow -> endRow <= TerminalBuffer.m_rows tb ->
  0 <= startCol -> endCol <= TerminalBuffer.m_cols tb ->
  exists tb',
    OnVTermDamage view startRow endRow startCol endCol c
    = (Ok tt, set_buffer c (Some tb')) /\
    TerminalBuffer.wf tb' /\
    TerminalBuffer.m_rows tb' = TerminalBuffer.m_rows tb /\
    TerminalBuffer.m_cols tb' = TerminalBuffer.m_cols tb /\
    TerminalBuffer.m_scrollback tb' = TerminalBuffer.m_scrollback tb /\
    (forall row col,
       startRow <= row < endRow -> startCol <= col < endCol ->
       TerminalBuffer.GetCell_const tb' row col
       = copy_cell (view row col) (TerminalBuffer.GetCell_const tb row col)) /\
    (forall row col,
       ~ (startRow <= row < endRow /\ startCol <= col < endCol) ->
       TerminalBuffer.GetCell_const tb' row col
       = TerminalBuffer.GetCell_const tb row col) /\
    (forall row,
       TerminalBuffer.IsDirty tb' row
       = TerminalBuffer.IsDirty tb row || (startRow <=? row) && (row <? endRow)).
Proof.
  intros Hb Hwf Hsr Her Hsc Hec.
  destruct (damage_rows view (seqZ startRow (endRow - startRow)) startCol endCol tb Hwf)
    as (tb' & Hrun & Hwf' & Hr' & Hc' & _ & Hs' & Hin & Hout & Hdin & Hdout);
    [apply Forall_seqZ; intros; lia | apply NoDup_seqZ | done | done |].
  exists tb'. unfold OnVTermDamage. rewrite Hb. unfold damage_buffer. rewrite Hrun.
  split; [done |]. split; [done |]. split; [done |]. split; [done |]. split; [done |].
  split; [| split].
  - intros row col Hrow Hcol. apply Hin; [| done]. apply elem_of_seqZ. lia.
  - intros row col Hno. apply Hout. intros [Hrow Hcol]. apply Hno.
    apply elem_of_seqZ in Hrow. lia.
  - intros row.
    destruct (decide (row ∈ seqZ startRow (endRow - startRow))) as [Hrow | Hrow].
    + rewrite (Hdin row Hrow). apply elem_of_seqZ in Hrow.
      destruct (Z.leb_spec startRow row); [| lia].
      destruct (Z.ltb_spec row endRow); [| lia].
      by rewrite orb_true_r.
    + rewrite (Hdout row Hrow). rewrite elem_of_seqZ in Hrow.
      destruct (Z.leb_spec startRow row); [| by rewrite orb_false_r].
      destruct (Z.ltb_spec row endRow); [lia | by rewrite orb_false_r].
Qed.

Lemma OnVTermDamage_copies_witness :
  let tb := {| TerminalBuffer.m_rows := 3; TerminalBuffer.m_cols := 2;
               TerminalBuffer.m_maxScrollback := 5;
               TerminalBuffer.m_screen :=
                 replicate 3 (replicate 2 TerminalBuffer.Cell_default);
               TerminalBuffer.m_scrollback := [];
               TerminalBuffer.m_dirty := [false; false; false] |} in
  let c := set_buffer (core create) (Some tb) in
  let view := VTermWrapper.GetCell (fun _ _ => None) in
  exists tb',
    OnVTermDamage view 1 3 0 2 c = (Ok tt, set_buffer c (Some tb')) /\
    TerminalBuffer.wf tb' /\
    TerminalBuffer.m_rows tb' = TerminalBuffer.m_rows tb /\
    TerminalBuffer.m_cols tb' = TerminalBuffer.m_cols tb /\
    TerminalBuffer.m_scrollback tb' = TerminalBuffer.m_scrollback tb /\
    (forall row col,
       1 <= row < 3 -> 0 <= col < 2 ->
       TerminalBuffer.GetCell_const tb' row col
       = copy_cell (view row col) (TerminalBuffer.GetCell_const tb row col)) /\
    (forall row col,
       ~ (1 <= row < 3 /\ 0 <= col < 2) ->
       TerminalBuffer.GetCell_const tb' row col
       = TerminalBuffer.GetCell_const tb row col) /\
    (forall row,
       TerminalBuffer.IsDirty tb' row
       = TerminalBuffer.IsDirty tb row || (1 <=? row) && (row <? 3)).
Proof.
  intros tb c view. apply (OnVTermDamage_copies view 1 3 0 2 c tb).
  - reflexivity.
  - repeat split; simpl; try lia. repeat constructor.
  - lia.
  - simpl; lia.
  - lia.
  - simpl; lia.
Defined.

(** *** What a damaged cell receives *)

Lemma c_str_head s : forall c, head (c_str s) = Some c -> c <> 0 /\ head s = Some c.
Proof.
  intros c. destruct s as [| a s]; cbn [c_str head]; [done |].
  destruct (Z.eqb_spec a 0); cbn [head]; [done |]. intros [= <-]. done.
Qed.

Lemma land_1_cases x : Z.land x 1 = 0 \/ Z.land x 1 = 1.
Proof.
  assert (H : Z.land x 1 = x mod 2) by exact (Z.land_ones x 1 ltac:(lia)).
  rewrite H. pose proof (Z.mod_pos_bound x 2). lia.
Qed.

(** X28.  The cell a damage report stores for a position the parser answers
    for: a palette colour arrives as RGB black whatever its index, so the
    grid never receives an indexed colour; the character is never NUL; the
    conceal attribute is not copied; and combining marks of the old cell
    stay when the new cell holds a single character. *)
Theorem damage_cell_conversion (screen : Z -> Z -> option VTermWrapper.VTermScreenCell)
    (row col : Z) (cell : VTermWrapper.VTermScreenCell) (old : TerminalBuffer.Cell) :
  screen row col = Some cell ->
  let new := copy_cell (VTermWrapper.GetCell screen row col) old in
  let colour (vc : VTermWrapper.VTermColor) :=
    if VTermWrapper.VTERM_COLOR_IS_DEFAULT_FG vc
       || VTermWrapper.VTERM_COLOR_IS_DEFAULT_BG vc
    then TerminalBuffer.CellColor_Default
    else if VTermWrapper.VTERM_COLOR_IS_INDEXED vc
    then TerminalBuffer.CellColor_Rgb 0 0 0
    else TerminalBuffer.CellColor_Rgb (VTermWrapper.vc_red vc)
           (VTermWrapper.vc_green vc) (VTermWrapper.vc_blue vc) in
  TerminalBuffer.fg new = colour (VTermWrapper.vs_fg cell) /\
  TerminalBuffer.bg new = colour (VTermWrapper.vs_bg cell) /\
  TerminalBuffer.IsIndexed (TerminalBuffer.fg new) = false /\
  TerminalBuffer.IsIndexed (TerminalBuffer.bg new) = false /\
  TerminalBuffer.charCode new <> 0 /\
  (TerminalBuffer.charCode new = 32 \/
   head (VTermWrapper.vs_chars cell) = Some (TerminalBuffer.charCode new)) /\
  TerminalBuffer.conceal (TerminalBuffer.attrs new)
  = TerminalBuffer.conceal (TerminalBuffer.attrs old) /\
  (forall c rest, VTermWrapper.vs_chars cell = c :: 0 :: rest ->
     TerminalBuffer.combining new = TerminalBuffer.combining old) /\
  0 <= TerminalBuffer.width new < 256.
Proof.
  intros Hcell new colour.
  assert (Hcol : forall vc,
            (let tc := VTermWrapper.TermColor_FromVTerm vc in
             if VTermWrapper.isDefault tc then TerminalBuffer.CellColor_Default
             else TerminalBuffer.CellColor_Rgb (VTermWrapper.tc_r tc)
                    (VTermWrapper.tc_g tc) (VTermWrapper.tc_b tc)) = colour vc).
  { intros vc. unfold colour, VTermWrapper.TermColor_FromVTerm. cbv zeta.
    destruct (_ || _); [done |].
    unfold VTermWrapper.VTERM_COLOR_IS_INDEXED, VTermWrapper.VTERM_COLOR_IS_RGB,
      VTermWrapper.VTERM_COLOR_TYPE_MASK, VTermWrapper.VTERM_COLOR_INDEXED,
      VTermWrapper.VTERM_COLOR_RGB.
    destruct (land_1_cases (VTermWrapper.vc_type vc)) as [-> | ->]; done. }
  assert (Hidx : forall vc, TerminalBuffer.IsIndexed (colour vc) = false).
  { intros vc. unfold colour. destruct (_ || _); [done |]. by destruct (_ vc). }
  assert (Hfg : TerminalBuffer.fg new = colour (VTermWrapper.vs_fg cell)).
  { unfold new, VTermWrapper.GetCell. rewrite Hcell. apply Hcol. }
  assert (Hbg : TerminalBuffer.bg new = colour (VTermWrapper.vs_bg cell)).
  { unfold new, VTermWrapper.GetCell. rewrite Hcell. apply Hcol. }
  split; [exact Hfg |]. split; [exact Hbg |].
  split; [by rewrite Hfg |]. split; [by rewrite Hbg |].
  unfold new, VTermWrapper.GetCell. rewrite Hcell.
  unfold copy_cell, VTermWrapper.convert_cell.
  cbn [TerminalBuffer.charCode TerminalBuffer.combining TerminalBuffer.attrs
       TerminalBuffer.conceal TerminalBuffer.width VTermWrapper.chars
       VTermWrapper.tc_width].
  set (cs := c_str (take VTermWrapper.VTERM_MAX_CHARS_PER_CELL
                         (VTermWrapper.vs_chars cell))).
  assert (Hhead : forall c, head cs = Some c ->
            c <> 0 /\ head (VTermWrapper.vs_chars cell) = Some c).
  { intros c Hc. destruct (c_str_head _ c Hc) as [Hne Hh]. split; [done |].
    destruct (VTermWrapper.vs_chars cell); [done |]. exact Hh. }
  split; [| split; [| split; [done | split]]].
  - destruct cs as [| c cs']; [done |]. cbn [length Nat.eqb].
    by destruct (Hhead c eq_refl).
  - destruct cs as [| c cs']; [by left |]. cbn [length Nat.eqb].
    right. by destruct (Hhead c eq_refl).
  - intros c rest Hchars. unfold cs. rewrite Hchars.
    unfold VTermWrapper.VTERM_MAX_CHARS_PER_CELL. cbn [take c_str].
    destruct (Z.eqb_spec c 0); cbn [Z.eqb length Nat.eqb drop take list_inserts];
      done.
  - unfold to_uint8. apply Z.mod_pos_bound. lia.
Qed.

Lemma damage_cell_conversion_witness :
  let red := {| VTermWrapper.vc_type := 1; VTermWrapper.vc_red := 9;
                VTermWrapper.vc_green := 0; VTermWrapper.vc_blue := 0 |} in
  let cell := {| VTermWrapper.vs_chars := [97; 0; 0; 0; 0; 0];
                 VTermWrapper.vs_width := 1;
                 VTermWrapper.vs_attrs :=
                   {| VTermWrapper.va_bold := 0; VTermWrapper.va_underline := 0;
                      VTermWrapper.va_italic := 0; VTermWrapper.va_blink := 0;
                      VTermWrapper.va_reverse := 0; VTermWrapper.va_conceal := 1;
                      VTermWrapper.va_strike := 0 |};
                 VTermWrapper.vs_fg := red; VTermWrapper.vs_bg := red |} in
  let old := {| TerminalBuffer.charCode := 101;
                TerminalBuffer.combining := [769; 0; 0];
                TerminalBuffer.fg := TerminalBuffer.CellColor_Default;
                TerminalBuffer.bg := TerminalBuffer.CellColor_Default;
                TerminalBuffer.attrs := TerminalBuffer.CellAttributes_default;
                TerminalBuffer.width := 1 |} in
  let new := copy_cell (VTermWrapper.GetCell (fun _ _ => Some cell) 0 0) old in
  TerminalBuffer.fg new = TerminalBuffer.CellColor_Rgb 0 0 0 /\
  TerminalBuffer.bg new = TerminalBuffer.CellColor_Rgb 0 0 0 /\
  TerminalBuffer.IsIndexed (TerminalBuffer.fg new) = false /\
  TerminalBuffer.IsIndexed (TerminalBuffer.bg new) = false /\
  TerminalBuffer.charCode new <> 0 /\
  (TerminalBuffer.charCode new = 32 \/
   head (VTermWrapper.vs_chars cell) = Some (TerminalBuffer.charCode new)) /\
  TerminalBuffer.conceal (TerminalBuffer.attrs new)
  = TerminalBuffer.conceal (TerminalBuffer.attrs old) /\
  (forall c rest, VTermWrapper.vs_chars cell = c :: 0 :: rest ->
     TerminalBuffer.combining new = TerminalBuffer.combining old) /\
  0 <= TerminalBuffer.width new < 256.
Proof.
  intros red cell old.
  exact (damage_cell_conversion (fun _ _ => Some cell) 0 0 cell old eq_refl).
Defined.

(** *** Draining the queue into the parser *)

Lemma OnVTermDamage_queue view sr er sc ec c :
  m_outputBuffer (snd (OnVTermDamage view sr er sc ec c)) = m_outputBuffer c.
Proof.
  unfold OnVTermDamage. destruct (m_buffer c); [| done].
  by destruct (damage_buffer _ _ _ _ _ _).
Qed.

Lemma OnVTermPropChange_queue props c :
  m_outputBuffer (snd (OnVTermPropChange props c)) = m_outputBuffer c.
Proof. unfold OnVTermPropChange, modify; cbn [snd]. by destruct (_ && _). Qed.

Lemma dispatch_wired_queue MB vt rep :
  wired vt ->
  forall c, m_outputBuffer (snd (snd (VTermWrapper.dispatch MB vt rep) c))
            = m_outputBuffer c.
Proof.
  intros (Hd & Hp & Hm & Hb & Hr & Ho & Hs) c.
  destruct rep; cbn [VTermWrapper.dispatch fst snd].
  - unfold VTermWrapper.OnDamage. rewrite Hd. apply OnVTermDamage_queue.
  - unfold VTermWrapper.OnMoveRect. rewrite Hd.
    cbn [VTermWrapper.call_if_set]. unfold mbind.
    pose proof (OnVTermDamage_queue (VTermWrapper.GetCell screen)
                  (VTermWrapper.start_row src) (VTermWrapper.end_row src)
                  (VTermWrapper.start_col src) (VTermWrapper.end_col src) c) as H1.
    destruct (OnVTermDamage _ _ _ _ _ c) as [[[] | e] c1]; cbn [snd] in *; [| done].
    by rewrite OnVTermDamage_queue.
  - unfold VTermWrapper.OnMoveCursor; cbn [fst snd]. by rewrite Hm.
  - unfold VTermWrapper.OnSetTermProp.
    destruct (VTermWrapper.apply_prop MB (VTermWrapper.m_props vt) change)
      as [props changed]. cbn [fst snd].
    destruct changed; [| done]. rewrite Hp. apply OnVTermPropChange_queue.
  - unfold VTermWrapper.OnBell. by rewrite Hb.
  - unfold VTermWrapper.OnResize. by rewrite Hr.
  - unfold VTermWrapper.OnScrollbackPush. by rewrite Hs.
  - done.
  - unfold VTermWrapper.OnOutput. by rewrite Ho.
Qed.

Lemma on_reports_queue MB s reps :
  started s ->
  started (fst (on_reports MB s reps)) /\
  m_outputBuffer (core (fst (on_reports MB s reps))) = m_outputBuffer (core s).
Proof.
  intros Hs. split; [by apply on_reports_started |].
  revert s Hs. induction reps as [| rep reps IH]; intros s Hs; [done |].
  cbn [on_reports].
  destruct (on_report_started MB s rep Hs) as [Hs' _].
  assert (Hq : m_outputBuffer (core (fst (on_report MB s rep)))
               = m_outputBuffer (core s)).
  { destruct Hs as (vt & Hvt & Hw). unfold on_report. rewrite Hvt.
    pose proof (dispatch_wired_queue MB vt rep Hw (core s)) as Hd.
    destruct (VTermWrapper.dispatch MB vt rep) as [vt' effect]. cbn [snd] in Hd.
    by destruct (effect (core s)). }
  destruct (on_report MB s rep) as [s' [[] | e]]; cbn [fst] in *; [| done].
  by rewrite (IH s' Hs').
Qed.

Lemma started_set_queue s rb : started s -> started (set_queue s rb).
Proof. intros (vt & Hvt & Hw). by exists vt. Qed.

Section Pump.
Context (MB : list Z -> list Z) {Parser : Type}.
Context (iw : Parser -> list Z -> Parser * list VTermWrapper.Report).
Context (fd : Parser -> Parser * list VTermWrapper.Report).

Lemma pump_run fuel : forall s p rb,
  started s -> m_outputBuffer (core s) = Some rb -> RingBuffer.wf rb ->
  (length (RingBuffer.contents rb) + 4096 <= 4096 * fuel)%nat ->
  exists s' p' res,
    pump MB iw fuel s p = Some (s', p', res) /\ started s' /\
    (res = Ok tt ->
     exists chunks rb',
       concat chunks = RingBuffer.contents rb /\
       Forall (fun chunk : list Z => (0 < length chunk <= 4096)%nat) chunks /\
       p' = fed iw p chunks /\
       m_outputBuffer (core s') = Some rb' /\ RingBuffer.wf rb' /\
       RingBuffer.contents rb' = []).
Proof.
  induction fuel as [| fuel IH]; intros s p rb Hs Hrb Hwf Hfuel; [lia |].
  cbn [pump]. rewrite Hrb.
  assert (H4096 : RingBuffer.is_size_t 4096) by (unfold RingBuffer.is_size_t; lia).
  destruct (RingBufferFacts.Read_take rb 4096 Hwf H4096) as [Hbuf Hrest].
  destruct (RingBufferFacts.Read_contents rb 4096 Hwf H4096) as [Hwf' _].
  destruct (RingBuffer.Read rb 4096) as [rb' buf]. cbn [fst snd] in *.
  assert (Hlenbuf : length buf = (4096 `min` length (RingBuffer.contents rb))%nat).
  { rewrite Hbuf, length_take. done. }
  pose proof (started_set_queue s rb' Hs) as Hs1.
  destruct (length buf =? 0)%nat eqn:Hlen.
  - apply Nat.eqb_eq in Hlen.
    exists (set_queue s rb'), p, (Ok tt). split; [done |]. split; [done |].
    intros _. exists [], rb'.
    assert (Hnil : RingBuffer.contents rb = []) by (apply nil_length_inv; lia).
    split; [by rewrite Hnil |]. split; [constructor |]. split; [done |].
    split; [done |]. split; [done |]. by rewrite Hrest, Hnil.
  - apply Nat.eqb_neq in Hlen. unfold InputWrite.
    destruct (length buf =? 0)%nat eqn:Hlen'; [by apply Nat.eqb_eq in Hlen' |].
    destruct (iw p buf) as [p1 reps] eqn:Hiw.
    destruct (on_reports_queue MB (set_queue s rb') reps Hs1) as [Hs2 Hq].
    destruct (on_reports MB (set_queue s rb') reps) as [s2 res]. cbn [fst] in *.
    destruct res as [[] | e].
    + destruct (IH s2 p1 rb' Hs2 Hq Hwf') as (s' & p' & res & Hrun & Hs' & Hok).
      { rewrite Hrest, length_drop. lia. }
      exists s', p', res. split; [done |]. split; [done |].
      intros Hres. destruct (Hok Hres) as (chunks & rb'' & Hcat & Hall & Hp & Hq' & Hwf'' & He).
      exists (buf :: chunks), rb''.
      split; [| split; [| split; [| done]]].
      * cbn [concat]. rewrite Hcat, Hbuf, Hrest. apply take_drop.
      * constructor; [lia | done].
      * unfold fed. cbn [foldl]. by rewrite Hiw.
    + exists s2, p1, (Throw e). split; [done |]. split; [done |]. done.
Qed.

Lemma FlushDamage_queue s p :
  started s ->
  exists s' res,
    FlushDamage MB fd s p = (s', fst (fd p), res) /\ started s' /\
    m_outputBuffer (core s') = m_outputBuffer (core s).
Proof.
  intros Hs. unfold FlushDamage. destruct (fd p) as [p' reps].
  destruct (on_reports_queue MB s reps Hs) as [Hs' Hq].
  destruct (on_reports MB s reps) as [s' res]. cbn [fst] in *.
  by exists s', res.
Qed.

Lemma queued_empty c (rb : RingBuffer.t Z) :
  m_outputBuffer c = Some rb -> RingBuffer.wf rb -> RingBuffer.contents rb = [] ->
  queued c = 0.
Proof.
  intros Hrb Hwf He. unfold queued. rewrite Hrb.
  pose proof (RingBufferFacts.length_contents rb) as Hl.
  pose proof (RingBufferFacts.wf_Size rb Hwf) as Hsz.
  rewrite He in Hl. cbn [length] in Hl. lia.
Qed.

Lemma reads_enough (rb : RingBuffer.t Z) fuel :
  RingBuffer.wf rb -> RingBuffer.Size rb / 4096 + 2 <= Z.of_nat fuel ->
  (length (RingBuffer.contents rb) + 4096 <= 4096 * fuel)%nat.
Proof.
  intros Hwf Hfuel. pose proof (RingBufferFacts.wf_Size rb Hwf) as Hsize.
  rewrite RingBufferFacts.length_contents.
  pose proof (Z.mod_pos_bound (RingBuffer.Size rb) 4096 ltac:(lia)).
  pose proof (Z.div_mod (RingBuffer.Size rb) 4096 ltac:(lia)). lia.
Qed.

End Pump.

(** X29.  With its wrapper wired as [Start] leaves it, [ProcessOutput] comes
    back after at most one read per 4096 queued bytes and two more.  Unless a
    handler throws, the queue is then empty and the parser has been given
    every queued byte once, in order, in calls of at most 4096 bytes,
    followed by the damage flush. *)
Theorem ProcessOutput_drains (MB : list Z -> list Z) {Parser : Type}
    (vterm_input_write : Parser -> list Z -> Parser * list VTermWrapper.Report)
    (vterm_screen_flush_damage : Parser -> Parser * list VTermWrapper.Report)
    (fuel : nat) (s : t) (p : Parser) (rb : RingBuffer.t Z) :
  started s -> m_outputBuffer (core s) = Some rb -> RingBuffer.wf rb ->
  RingBuffer.Size rb / 4096 + 2 <= Z.of_nat fuel ->
  exists s' p' res,
    ProcessOutput MB vterm_input_write vterm_screen_flush_damage fuel s p
    = Some (s', p', res) /\
    started s' /\
    (res = Ok tt ->
     queued (core s') = 0 /\
     exists chunks,
       concat chunks = RingBuffer.contents rb /\
       Forall (fun chunk : list Z => (0 < length chunk <= 4096)%nat) chunks /\
       p' = fst (vterm_screen_flush_damage (fed vterm_input_write p chunks))).
Proof.
  intros Hs Hrb Hwf Hfuel.
  destruct (pump_run MB vterm_input_write fuel s p rb Hs Hrb Hwf
              (reads_enough rb fuel Hwf Hfuel))
    as (s1 & p1 & res1 & Hrun & Hs1 & Hok).
  unfold ProcessOutput. rewrite Hrb.
  destruct Hs as (vt & Hvt & Hw). rewrite Hvt, Hrun.
  destruct res1 as [[] | e].
  - destruct (Hok eq_refl) as (chunks & rb' & Hcat & Hall & Hp & Hq & Hwf' & He).
    destruct (FlushDamage_queue MB vterm_screen_flush_damage s1 p1 Hs1)
      as (s2 & res & Hflush & Hs2 & Hq2).
    exists s2, (fst (vterm_screen_flush_damage p1)), res.
    split; [by rewrite Hflush |]. split; [done |].
    intros _. split.
    + apply (queued_empty _ rb'); [congruence | done | done].
    + exists chunks. split; [done |]. split; [done |]. by rewrite Hp.
  - exists s1, p1, (Throw e). split; [done |]. split; [done |]. done.
Qed.

Lemma ProcessOutput_drains_witness :
  let MB := fun s : list Z => s in
  let iw := fun (p : list Z) (data : list Z) =>
              (p ++ data, @nil VTermWrapper.Report) in
  let fd := fun p : list Z => (p, @nil VTermWrapper.Report) in
  let rb := fst (RingBuffer.Write (RingBuffer.create 4) [104; 105]) in
  let vt := VTermWrapper.SetTermPropCallback
              (VTermWrapper.SetDamageCallback VTermWrapper.create OnVTermDamage)
              OnVTermPropChange in
  let s := {| core := set_outputBuffer (core create) (Some rb);
              m_vterm := Some vt; m_pty := None |} in
  exists s' p' res,
    ProcessOutput MB iw fd 2 s [] = Some (s', p', res) /\
    started s' /\
    (res = Ok tt ->
     queued (core s') = 0 /\
     exists chunks,
       concat chunks = RingBuffer.contents rb /\
       Forall (fun chunk : list Z => (0 < length chunk <= 4096)%nat) chunks /\
       p' = fst (fd (fed iw [] chunks))).
Proof.
  intros MB iw fd rb vt s.
  apply (ProcessOutput_drains MB iw fd 2%nat s [] rb).
  - exists vt. split; [reflexivity |]. repeat split.
  - reflexivity.
  - exists 2. vm_compute. repeat split; discriminate.
  - vm_compute. discriminate.
Defined.

(** *** From the reader thread to the parser *)

Lemma Start_queue s0 config env s :
  Start s0 config env = (s, true) ->
  m_outputBuffer (core s) = Some (RingBuffer.create 65536).
Proof.
  unfold Start.
  destruct (m_state (core s0)); try done;
    (destruct (TerminalBuffer.create _) as [tb |]; [| done];
     destruct (vterm_new_ok env); [| done];
     destruct (pty_start_ok env); [| done];
     cbn [negb]; by intros [= <-]).
Qed.

Lemma reader_loop_delivers (pty : PtySession.t Core) goods :
  PtySession.m_outputCallback pty = Some OnPtyOutput ->
  Forall (fun round => delivers round = true) goods ->
  forall c rb,
    m_outputBuffer c = Some rb -> RingBuffer.wf rb ->
    RingBuffer.Size rb + Z.of_nat (length (concat (read_bytes <$> goods)))
    <= RingBuffer.Capacity rb ->
    exists rb',
      PtySession.reader_loop pty goods c = (Ok false, set_outputBuffer c (Some rb')) /\
      RingBuffer.wf rb' /\
      RingBuffer.contents rb'
      = RingBuffer.contents rb ++ concat (read_bytes <$> goods).
Proof.
  intros Hcb Hgoods. induction Hgoods as [| round goods Hround _ IH];
    intros c rb Hrb Hwf Hfit.
  - exists rb. cbn [PtySession.reader_loop fmap list_fmap concat]. unfold ret.
    rewrite app_nil_r. split; [| done]. f_equal.
    destruct c. cbn in Hrb. by rewrite <- Hrb.
  - cbn [PtySession.reader_loop]. cbn [fmap list_fmap concat] in Hfit |- *.
    unfold delivers in Hround. destruct round as [seen [data | e]];
      cbn [read_bytes PtySession.running_seen PtySession.read_result] in *;
      (destruct seen; [| done]); [| done].
    cbn [negb andb] in *.
    destruct (length data =? 0)%nat; [done |].
    rewrite Hcb. unfold mbind. unfold OnPtyOutput at 1, modify at 1. rewrite Hrb.
    rewrite length_app in Hfit.
    destruct (RingBufferFacts.wf_bounded rb Hwf) as [Hb Hcap].
    destruct (RingBufferFacts.Write_contents rb data Hwf) as [Hwf1 Hc1].
    { rewrite (RingBufferFacts.Available_eq rb Hb). lia. }
    destruct (RingBufferFacts.Size_Write rb data Hb) as [Hs1 Hcap1].
    set (rb1 := fst (RingBuffer.Write rb data)) in *.
    destruct (IH (set_outputBuffer c (Some rb1)) rb1 eq_refl Hwf1)
      as (rb' & Hrun & Hwf' & Hc').
    { rewrite Hs1, Hcap1. lia. }
    exists rb'. rewrite Hrun. split; [done |]. split; [done |].
    by rewrite Hc', Hc1, app_assoc.
Qed.

(** X30.  In a session that [Start] has just set up, the bytes the reader
    thread obtains from successful reads, 65535 at the most, are all queued,
    and the next [ProcessOutput] gives the parser exactly these bytes, in the
    order read, unless a handler throws. *)
Theorem output_reaches_parser (MB : list Z -> list Z) {Parser : Type}
    (vterm_input_write : Parser -> list Z -> Parser * list VTermWrapper.Report)
    (vterm_screen_flush_damage : Parser -> Parser * list VTermWrapper.Report)
    (s0 s : t) (config : SessionConfig) (env : StartEnv)
    (goods : list PtySession.Round) (p : Parser) (fuel : nat) :
  Start s0 config env = (s, true) ->
  Forall (fun round => delivers round = true) goods ->
  let sent := concat (read_bytes <$> goods) in
  Z.of_nat (length sent) <= 65535 ->
  Z.of_nat (length sent) / 4096 + 2 <= Z.of_nat fuel ->
  exists pty,
    m_pty s = Some pty /\
    let c1 := snd (PtySession.reader_loop pty goods (core s)) in
    queued c1 = Z.of_nat (length sent) /\
    exists s' p' res,
      ProcessOutput MB vterm_input_write vterm_screen_flush_damage fuel
        (with_core s c1) p = Some (s', p', res) /\
      (res = Ok tt ->
       queued (core s') = 0 /\
       exists chunks,
         concat chunks = sent /\
         p' = fst (vterm_screen_flush_damage (fed vterm_input_write p chunks))).
Proof.
  intros HStart Hgoods sent Hfit Hfuel.
  destruct (Start_started s0 config env s HStart)
    as ((vt & Hvt & Hw) & _ & _ & pty & Hpty & Hout & _).
  pose proof (Start_queue s0 config env s HStart) as Hq.
  assert (Hwf0 : RingBuffer.wf (RingBuffer.create (T:=Z) 65536)).
  { apply RingBufferFacts.wf_create. split; [lia | by vm_compute]. }
  exists pty. split; [done |].
  destruct (reader_loop_delivers pty goods Hout Hgoods (core s)
              (RingBuffer.create 65536) Hq Hwf0) as (rb' & Hrun & Hwf' & Hc').
  { change (RingBuffer.Size (RingBuffer.create (T:=Z) 65536)) with 0.
    change (RingBuffer.Capacity (RingBuffer.create (T:=Z) 65536)) with 65535.
    fold sent. lia. }
  rewrite Hrun. cbn [snd]. cbv zeta.
  rewrite RingBufferFacts.contents_create, app_nil_l in Hc'. fold sent in Hc'.
  assert (Hsize : RingBuffer.Size rb' = Z.of_nat (length sent)).
  { pose proof (RingBufferFacts.length_contents rb') as Hl.
    pose proof (RingBufferFacts.wf_Size rb' Hwf'). rewrite Hc' in Hl. lia. }
  split; [done |].
  set (s1 := with_core s (set_outputBuffer (core s) (Some rb'))).
  assert (Hs1 : started s1) by by exists vt.
  destruct (pump_run MB vterm_input_write fuel s1 p rb' Hs1 eq_refl Hwf')
    as (s2 & p2 & res2 & Hpump & Hs2 & Hok).
  { apply reads_enough; [done | by rewrite Hsize]. }
  unfold ProcessOutput. cbn [s1 with_core core m_vterm set_outputBuffer m_outputBuffer].
  rewrite Hvt. fold s1. rewrite Hpump.
  destruct res2 as [[] | e].
  - destruct (Hok eq_refl) as (chunks & rb'' & Hcat & _ & Hp & Hq'' & Hwf'' & He).
    destruct (FlushDamage_queue MB vterm_screen_flush_damage s2 p2 Hs2)
      as (s3 & res & Hflush & _ & Hq3).
    exists s3, (fst (vterm_screen_flush_damage p2)), res.
    split; [by rewrite Hflush |]. intros _. split.
    + apply (queued_empty _ rb''); [congruence | done | done].
    + exists chunks. split; [congruence | by rewrite Hp].
  - exists s2, p2, (Throw e). split; [done |]. done.
Qed.

Lemma output_reaches_parser_witness :
  let MB := fun s : list Z => s in
  let iw := fun (p : list Z) (data : list Z) =>
              (p ++ data, @nil VTermWrapper.Report) in
  let fd := fun p : list Z => (p, @nil VTermWrapper.Report) in
  let env := {| vterm_new_ok := true; pty_start_ok := true |} in
  let s := fst (Start create SessionConfig_default env) in
  let goods := [ {| PtySession.running_seen := true;
                    PtySession.read_result := PtySession.ReadOk [104; 105] |};
                 {| PtySession.running_seen := true;
                    PtySession.read_result := PtySession.ReadOk [33] |} ] in
  let sent := concat (read_bytes <$> goods) in
  exists pty,
    m_pty s = Some pty /\
    let c1 := snd (PtySession.reader_loop pty goods (core s)) in
    queued c1 = Z.of_nat (length sent) /\
    exists s' p' res,
      ProcessOutput MB iw fd 2 (with_core s c1) [] = Some (s', p', res) /\
      (res = Ok tt ->
       queued (core s') = 0 /\
       exists chunks,
         concat chunks = sent /\
         p' = fst (fd (fed iw [] chunks))).
Proof.
  intros MB iw fd env s goods sent.
  apply (output_reaches_parser MB iw fd create s SessionConfig_default env
           goods [] 2%nat).
  - reflexivity.
  - repeat constructor.
  - simpl. lia.
  - vm_compute. discriminate.
Defined.

End SessionFacts.

(** ** Strings: searching, printing and reading numbers *)

Module CxxFacts.
Import Cxx.

Lemma is_prefix_app needle rest : is_prefix needle (needle ++ rest) = true.
Proof.
  induction needle as [| a needle IH]; [done |].
  cbn [app is_prefix]. by rewrite Z.eqb_refl.
Qed.








(** *** Decimal digits *)











End CxxFacts.

(** ** Session persistence: the round trip *)

Module PersistenceFacts.
Import Cxx CxxFacts Session.

Section Conversions.
Context (W2M M2W : list Z -> list Z) (out : Z -> Z).









End Conversions.



(** A session whose rows are 0, as a failed [Start] with such a configuration
    leaves it, is read back with 25 rows. *)
Example zero_rows_read_back_as_default :
  let given := {| shell := bytes "cmd.exe"; args := []; workingDir := [];
                  title := bytes "Console3"; profileName := [];
                  rows := 0; cols := 80; scrollbackLines := 10000;
                  tabIndex := 0 |} in
  let started := Start create given {| vterm_new_ok := true; pty_start_ok := true |} in
  snd started = false /\
  rows <$> Deserialize (fun u => u) (fun v => v)
             (Serialize (fun w => w) (fst started)) = Some 25.
Proof. cbv zeta. split; by vm_compute. Qed.

(** The text the default configuration is written as. *)
Example Serialize_default :
  SerializeConfig (fun w => w) SessionConfig_default =
  bytes "{" ++ [10] ++
  bytes "  " ++ [34] ++ bytes "shell" ++ [34] ++ bytes ": " ++ [34] ++ bytes "cmd.exe" ++ [34] ++ bytes "," ++ [10] ++
  bytes "  " ++ [34] ++ bytes "args" ++ [34] ++ bytes ": " ++ [34] ++ [34] ++ bytes "," ++ [10] ++
  bytes "  " ++ [34] ++ bytes "workingDir" ++ [34] ++ bytes ": " ++ [34] ++ [34] ++ bytes "," ++ [10] ++
  bytes "  " ++ [34] ++ bytes "title" ++ [34] ++ bytes ": " ++ [34] ++ bytes "Console3" ++ [34] ++ bytes "," ++ [10] ++
  bytes "  " ++ [34] ++ bytes "profileName" ++ [34] ++ bytes ": " ++ [34] ++ [34] ++ bytes "," ++ [10] ++
  bytes "  " ++ [34] ++ bytes "rows" ++ [34] ++ bytes ": 25," ++ [10] ++
  bytes "  " ++ [34] ++ bytes "cols" ++ [34] ++ bytes ": 80," ++ [10] ++
  bytes "  " ++ [34] ++ bytes "scrollbackLines" ++ [34] ++ bytes ": 10000," ++ [10] ++
  bytes "  " ++ [34] ++ bytes "tabIndex" ++ [34] ++ bytes ": 0" ++ [10] ++
  bytes "}".
Proof. by vm_compute. Qed.

(** What [Serialize] writes is what [GetConfig] reports: a session that was
    never started writes the defaults, with an empty profile name and tab 0. *)
Example Serialize_fresh_session :
  Serialize (fun w => w) create = SerializeConfig (fun w => w)
    {| shell := bytes "cmd.exe"; args := []; workingDir := [];
       title := bytes "Console3"; profileName := [];
       rows := 25; cols := 80; scrollbackLines := 10000; tabIndex := 0 |}.
Proof. reflexivity. Qed.

End PersistenceFacts.
